(** * AI-Music-Visualizer: the render loops, the capture session and the
      palette request, embedded in Rocq.

    Sources embedded here:
    - the VisualizerCanvas component (live render loop, [drawTitle], [draw]);
    - the App component (RESOLUTIONS, [drawTitle], [handleGeneratePalette],
      [handleDownload] with its recorder handlers and [drawOffscreen]);
    - the palette service ([generateColorPalette]).

    Conventions of the embedding.
    - A JavaScript number is a value of [num]: a finite value, held as a
      rational, or [NaN].  [undefined] met by arithmetic becomes [NaN], as
      in the language.  The renderers compute with the exact results of
      the operations; the rounding of binary64 arithmetic is modelled in
      [Double], which gives the length rule with every operation rounded,
      and is compared with the machine's floats in [Hardware].
    - A JavaScript string is its sequence of UTF-16 code units.
    - A 2D drawing context is its drawing state together with the
      chronological list of the drawing operations it has performed; the
      list stands for the pixels of the surface.
    - Browser objects (MediaRecorder, the audio graph, the media element)
      are modelled by the part of their documented behaviour the handlers
      rely on. *)

From Stdlib Require Import Strings.String Strings.Ascii Strings.Byte.
From Stdlib Require Import QArith Qpower Qround Qminmax ZArith NArith List Bool Lia.
From Stdlib Require Import Lqa.
From Stdlib Require Import Floats.PrimFloat Floats.FloatOps.
From Stdlib Require Import Floats.SpecFloat.
Import ListNotations.

Local Open Scope Q_scope.

(* ================================================================== *)
(** ** JavaScript values *)
(* ================================================================== *)

Module JS.

(** Numbers. *)
Inductive num : Type :=
| Num (q : Q)
| NaN.

Definition num_div (a : num) (d : Q) : num :=
  match a with Num x => Num (x / d) | NaN => NaN end.

Definition num_mul (a : num) (m : Q) : num :=
  match a with Num x => Num (x * m) | NaN => NaN end.

(** [r + a] for a finite [r]. *)
Definition num_add (r : Q) (a : num) : num :=
  match a with Num x => Num (r + x) | NaN => NaN end.

(** [a >= b]: any comparison with NaN is false. *)
Definition num_ge (a : num) (b : Q) : bool :=
  match a with Num x => Qle_bool b x | NaN => false end.

(** [Math.max(a, b)]: NaN as soon as one argument is. *)
Definition Math_max (a : num) (b : Q) : num :=
  match a with Num x => Num (Qmax x b) | NaN => NaN end.

Definition Math_min (a b : Q) : Q := Qmin a b.

Definition Math_floor (x : Q) : Z := Qfloor x.

(** [x || 0] on an array read: [undefined], [NaN] and [0] are falsy. *)
Definition or_zero (x : option num) : Q :=
  match x with
  | Some (Num q) => if Qeq_bool q 0 then 0 else q
  | Some NaN | None => 0
  end.

(** Equality of numbers up to the representation of the rational. *)
Definition num_eq (a b : num) : Prop :=
  match a, b with
  | Num x, Num y => x == y
  | NaN, NaN => True
  | _, _ => False
  end.

(** Strings: UTF-16 code units. *)
Definition code_unit := N.
Definition jsstring := list code_unit.

(** An ASCII literal of the source. *)
Definition lit (s : string) : jsstring :=
  map N_of_ascii (list_ascii_of_string s).

Definition code_unit_eqb (a b : code_unit) : bool := N.eqb a b.

(** WhiteSpace and LineTerminator code points of ECMAScript, the ones
    [String.prototype.trim] removes. *)
Definition is_space (c : code_unit) : bool :=
  (N.leb 9 c && N.leb c 13)
  || N.eqb c 32 || N.eqb c 160 || N.eqb c 5760
  || (N.leb 8192 c && N.leb c 8202)
  || N.eqb c 8232 || N.eqb c 8233 || N.eqb c 8239 || N.eqb c 8287
  || N.eqb c 12288 || N.eqb c 65279.

Fixpoint trimStart (s : jsstring) : jsstring :=
  match s with
  | [] => []
  | c :: s' => if is_space c then trimStart s' else s
  end.

Definition trimEnd (s : jsstring) : jsstring := rev (trimStart (rev s)).

Definition trim (s : jsstring) : jsstring := trimEnd (trimStart s).

(** Truthiness of a string: the empty string is the only falsy one. *)
Definition truthy (s : jsstring) : bool :=
  match s with [] => false | _ :: _ => true end.

(** [s || d] on a possibly undefined string. *)
Definition or_string (s : option jsstring) (d : jsstring) : jsstring :=
  match s with
  | Some v => if truthy v then v else d
  | None => d
  end.

(** [s.split(sep)] for a one-unit separator: the pieces between the
    occurrences of the separator, never an empty array. *)
Fixpoint split (sep : code_unit) (s : jsstring) : list jsstring :=
  match s with
  | [] => [[]]
  | c :: s' =>
      if code_unit_eqb c sep then [] :: split sep s'
      else match split sep s' with
           | [] => [[c]]
           | p :: ps => (c :: p) :: ps
           end
  end.

(** Reading a typed array of bytes: out of range is [undefined]. *)
Definition read_u8 (a : list byte) (i : Z) : option num :=
  if (i <? 0)%Z then None
  else option_map (fun b => Num (inject_Z (Z.of_N (Byte.to_N b))))
                  (nth_error a (Z.to_nat i)).

(** [undefined] coerced by arithmetic. *)
Definition to_num (x : option num) : num :=
  match x with Some v => v | None => NaN end.

(** [a[i] = v] on an ordinary array: writes in place, appends at the
    end, and past the end leaves holes (read back as [undefined], here
    [NaN], which [or_zero] treats alike). *)
Fixpoint array_set (a : list num) (i : nat) (v : num) : list num :=
  match i, a with
  | O, [] => [v]
  | O, _ :: a' => v :: a'
  | S i', [] => NaN :: array_set [] i' v
  | S i', x :: a' => x :: array_set a' i' v
  end.

End JS.
Import JS.

(* ================================================================== *)
(** ** The 2D drawing context *)
(* ================================================================== *)

Module Canvas2D.

(** A point [(cx + rho * cos a, cy + rho * sin a)] with
    [a = turn * 2 * PI - PI / 2].  The bar end points are kept in this
    polar form: cos and sin are not evaluated. *)
Record Point : Type := mkPoint {
  center_x : Q;
  center_y : Q;
  rho : num;
  turn : Q
}.

Inductive PathCmd : Type :=
| MoveTo (p : Point)
| LineTo (p : Point)
| Arc (x y r : Q).            (* a full circle, from 0 to 2 * PI *)

Definition Path := list PathCmd.

(** [`bold ${fontSize}px Arial`], or the font of a fresh context. *)
Inductive Font : Type :=
| DefaultFont
| BoldArial (px : Q).

Record Image : Type := mkImage {
  img_width : positive;
  img_height : positive
}.

(** The part of the context that [save] and [restore] handle. *)
Record DrawState : Type := mkDrawState {
  fillStyle : jsstring;
  strokeStyle : jsstring;
  lineWidth : Q;
  font : Font;
  textAlign : jsstring;
  clipRegion : option Path
}.

Inductive Op : Type :=
| FillRect (st : DrawState) (x y w h : Q)
| DrawImage (st : DrawState) (img : Image) (x y w h : Q)
| Stroke (st : DrawState) (p : Path)
| FillText (st : DrawState) (text : jsstring) (x y : Q).

Record Ctx : Type := mkCtx {
  state : DrawState;
  stack : list DrawState;
  path : Path;
  ops : list Op
}.

Definition initial_state : DrawState :=
  {| fillStyle := lit "#000000"; strokeStyle := lit "#000000";
     lineWidth := 1; font := DefaultFont; textAlign := lit "start";
     clipRegion := None |}.

Definition fresh : Ctx :=
  {| state := initial_state; stack := []; path := []; ops := [] |}.

Definition with_state (f : DrawState -> DrawState) (c : Ctx) : Ctx :=
  {| state := f (state c); stack := stack c; path := path c; ops := ops c |}.

Definition emit (o : Op) (c : Ctx) : Ctx :=
  {| state := state c; stack := stack c; path := path c;
     ops := ops c ++ [o] |}.

(** Assigning [undefined] to a style is ignored by the context; the
    colour strings of a palette are taken to be valid colours. *)
Definition set_fillStyle (v : option jsstring) (c : Ctx) : Ctx :=
  match v with
  | None => c
  | Some s =>
      with_state (fun d =>
        {| fillStyle := s; strokeStyle := strokeStyle d;
           lineWidth := lineWidth d; font := font d;
           textAlign := textAlign d; clipRegion := clipRegion d |}) c
  end.

Definition set_strokeStyle (v : option jsstring) (c : Ctx) : Ctx :=
  match v with
  | None => c
  | Some s =>
      with_state (fun d =>
        {| fillStyle := fillStyle d; strokeStyle := s;
           lineWidth := lineWidth d; font := font d;
           textAlign := textAlign d; clipRegion := clipRegion d |}) c
  end.

Definition set_lineWidth (w : Q) (c : Ctx) : Ctx :=
  with_state (fun d =>
    {| fillStyle := fillStyle d; strokeStyle := strokeStyle d;
       lineWidth := w; font := font d;
       textAlign := textAlign d; clipRegion := clipRegion d |}) c.

Definition set_font (f : Font) (c : Ctx) : Ctx :=
  with_state (fun d =>
    {| fillStyle := fillStyle d; strokeStyle := strokeStyle d;
       lineWidth := lineWidth d; font := f;
       textAlign := textAlign d; clipRegion := clipRegion d |}) c.

Definition set_textAlign (a : jsstring) (c : Ctx) : Ctx :=
  with_state (fun d =>
    {| fillStyle := fillStyle d; strokeStyle := strokeStyle d;
       lineWidth := lineWidth d; font := font d;
       textAlign := a; clipRegion := clipRegion d |}) c.

Definition fillRect (x y w h : Q) (c : Ctx) : Ctx :=
  emit (FillRect (state c) x y w h) c.

Definition save (c : Ctx) : Ctx :=
  {| state := state c; stack := state c :: stack c;
     path := path c; ops := ops c |}.

Definition restore (c : Ctx) : Ctx :=
  match stack c with
  | [] => c
  | d :: rest =>
      {| state := d; stack := rest; path := path c; ops := ops c |}
  end.

Definition beginPath (c : Ctx) : Ctx :=
  {| state := state c; stack := stack c; path := []; ops := ops c |}.

Definition add_path (p : PathCmd) (c : Ctx) : Ctx :=
  {| state := state c; stack := stack c; path := path c ++ [p];
     ops := ops c |}.

Definition arc (x y r : Q) : Ctx -> Ctx := add_path (Arc x y r).
Definition moveTo (p : Point) : Ctx -> Ctx := add_path (MoveTo p).
Definition lineTo (p : Point) : Ctx -> Ctx := add_path (LineTo p).

(** The first [clip] of a saved state installs the current path (the
    renderers never nest clips). *)
Definition clip (c : Ctx) : Ctx :=
  with_state (fun d =>
    {| fillStyle := fillStyle d; strokeStyle := strokeStyle d;
       lineWidth := lineWidth d; font := font d;
       textAlign := textAlign d; clipRegion := Some (path c) |}) c.

Definition drawImage (img : Image) (x y w h : Q) (c : Ctx) : Ctx :=
  emit (DrawImage (state c) img x y w h) c.

Definition stroke (c : Ctx) : Ctx := emit (Stroke (state c) (path c)) c.

Definition fillText (text : jsstring) (x y : Q) (c : Ctx) : Ctx :=
  emit (FillText (state c) text x y) c.

(** A canvas element.  Assigning its width or its height clears the
    bitmap and resets the context.  [supports2d] tells whether
    [getContext('2d')] returns the context or null. *)
Record Canvas : Type := mkCanvas {
  width : N;
  height : N;
  supports2d : bool;
  context : Ctx
}.

Definition getContext2d (cv : Canvas) : option Ctx :=
  if supports2d cv then Some (context cv) else None.

Definition set_width (w : N) (cv : Canvas) : Canvas :=
  {| width := w; height := height cv; supports2d := supports2d cv;
     context := fresh |}.

Definition set_height (h : N) (cv : Canvas) : Canvas :=
  {| width := width cv; height := h; supports2d := supports2d cv;
     context := fresh |}.

Definition with_context (c : Ctx) (cv : Canvas) : Canvas :=
  {| width := width cv; height := height cv; supports2d := supports2d cv;
     context := c |}.

(** [document.createElement('canvas')]. *)
Definition createCanvas (has2d : bool) : Canvas :=
  {| width := 300; height := 150; supports2d := has2d; context := fresh |}.

Definition QN (n : N) : Q := inject_Z (Z.of_N n).
Definition Qnat (n : nat) : Q := inject_Z (Z.of_nat n).

End Canvas2D.
Import Canvas2D.

(** Sequencing of context operations, in source order. *)
Notation "c '|>' f" := (f c) (at level 45, left associativity, only parsing).

(** [for (let i = start; ...; i++) body], [count] iterations. *)
Fixpoint for_loop {S : Type} (body : nat -> S -> S) (i count : nat) (st : S)
  : S :=
  match count with
  | O => st
  | Datatypes.S k => for_loop body (Datatypes.S i) k (body i st)
  end.

(** [barColors[i % colorCount]]: with [colorCount = 0] the index is NaN
    and the read is [undefined]. *)
Definition color_at (barColors : list jsstring) (i colorCount : nat)
  : option jsstring :=
  if Nat.eqb colorCount 0 then None
  else nth_error barColors (i mod colorCount).

(* ================================================================== *)
(** ** Web Audio: the analysis node *)
(* ================================================================== *)

Module WebAudio.

Record AnalyserNode : Type := mkAnalyser {
  frequencyBinCount : N
}.

(** [new Uint8Array(n)]. *)
Definition Uint8Array (n : N) : list byte := repeat x00 (N.to_nat n).

(** [analyser.getByteFrequencyData(array)]: the current spectrum is
    copied over the array, as far as both reach. *)
Definition getByteFrequencyData (spectrum array : list byte) : list byte :=
  firstn (length array) spectrum ++ skipn (length spectrum) array.

End WebAudio.
Import WebAudio.

(* ================================================================== *)
(** ** The VisualizerCanvas component (live render loop) *)
(* ================================================================== *)

Module VisualizerCanvas.

Record Props : Type := mkProps {
  analyserNode : option AnalyserNode;
  isPlaying : bool;
  colors : list jsstring;
  videoTitle : jsstring;
  image : option Image
}.

(** The refs of the component, the layout box of the canvas and the
    frames requested from the browser. *)
Record Component : Type := mkComponent {
  canvasRef : option Canvas;
  parentElement : option (N * N);      (* clientWidth, clientHeight *)
  animationFrameRef : option nat;
  barLengthsRef : list num;
  pendingFrames : list nat;
  nextHandle : nat
}.

Definition drawTitle (text : jsstring) (width height : Q) (ctx : Ctx) : Ctx :=
  if negb (truthy (trim text)) then ctx
  else
    let fontSize := Qmax 24 (Math_min (width * 0.05) 80) in
    let x := width / 2 in
    let y := height - (fontSize * 2) in
    ctx |> set_font (BoldArial fontSize)
        |> set_textAlign (lit "center")
        |> set_fillStyle (Some (lit "rgba(255, 255, 255, 0.95)"))
        |> fillText text x y.

Definition NUM_BARS : nat := 128.

Definition dataIndex (i : nat) (node : AnalyserNode) : Z :=
  Math_floor ((Qnat i / Qnat NUM_BARS) * (QN (frequencyBinCount node) * 0.5)).

Definition targetLength (dataArray : list byte) (dataIndex : Z)
  (maxBarLength : Q) : num :=
  num_mul (num_div (to_num (read_u8 dataArray dataIndex)) 255) maxBarLength.

(** Rise quickly, fall slowly.  The product and the difference are the
    exact ones here; [Double.newLength] rounds them. *)
Definition newLength (targetLength : num) (oldLength maxBarLength : Q) : num :=
  if num_ge targetLength oldLength then targetLength
  else Math_max targetLength (oldLength - (maxBarLength * 0.025)).

(** The length bar [i] takes in one tick. *)
Definition barLength (node : AnalyserNode) (dataArray : list byte)
  (maxBarLength : Q) (old : list num) (i : nat) : num :=
  newLength (targetLength dataArray (dataIndex i node) maxBarLength)
            (or_zero (nth_error old i)) maxBarLength.

(** One turn of the loop over the bars. *)
Definition bar (node : AnalyserNode) (dataArray : list byte)
  (barColors : list jsstring) (colorCount : nat)
  (cx cy radius maxBarLength : Q) (old : list num)
  (i : nat) (st : Ctx * list num) : Ctx * list num :=
  let '(ctx, newBarLengths) := st in
  let newLength := barLength node dataArray maxBarLength old i in
  let newBarLengths := array_set newBarLengths i newLength in
  let angle := Qnat i / Qnat NUM_BARS in
  let start := mkPoint cx cy (Num radius) angle in
  let stop := mkPoint cx cy (num_add radius newLength) angle in
  (ctx |> set_strokeStyle (color_at barColors i colorCount)
       |> set_lineWidth 4
       |> beginPath
       |> moveTo start
       |> lineTo stop
       |> stroke,
   newBarLengths).

Definition drawCenterImage (image : option Image) (cx cy radius : Q)
  (ctx : Ctx) : Ctx :=
  match image with
  | None => ctx
  | Some img =>
      let imgAspectRatio :=
        inject_Z (Zpos (img_width img)) / inject_Z (Zpos (img_height img)) in
      let circleDiameter := radius * 2 in
      let landscape := negb (Qle_bool imgAspectRatio 1) in
      let drawWidth :=
        if landscape then circleDiameter
        else circleDiameter * imgAspectRatio in
      let drawHeight :=
        if landscape then circleDiameter / imgAspectRatio
        else circleDiameter in
      let drawX := cx - drawWidth / 2 in
      let drawY := cy - drawHeight / 2 in
      ctx |> save
          |> beginPath
          |> arc cx cy radius
          |> clip
          |> drawImage img drawX drawY drawWidth drawHeight
          |> restore
  end.

Definition requestAnimationFrame (s : Component) : Component :=
  {| canvasRef := canvasRef s; parentElement := parentElement s;
     animationFrameRef := Some (nextHandle s);
     barLengthsRef := barLengthsRef s;
     pendingFrames := pendingFrames s ++ [nextHandle s];
     nextHandle := Datatypes.S (nextHandle s) |}.

(** [if (animationFrameRef.current) cancelAnimationFrame(...)]: the
    handle 0 is falsy. *)
Definition cancelAnimationFrame (s : Component) : Component :=
  match animationFrameRef s with
  | Some (Datatypes.S h) =>
      {| canvasRef := canvasRef s; parentElement := parentElement s;
         animationFrameRef := animationFrameRef s;
         barLengthsRef := barLengthsRef s;
         pendingFrames :=
           filter (fun k => negb (Nat.eqb k (Datatypes.S h))) (pendingFrames s);
         nextHandle := nextHandle s |}
  | _ => s
  end.

(** The frame drawn by [draw] on the context, with the new bar lengths. *)
Definition render (p : Props) (node : AnalyserNode) (dataArray : list byte)
  (width height : Q) (old : list num) (ctx : Ctx) : Ctx * list num :=
  let backgroundColor := nth_error (colors p) 0 in
  let barColors := tl (colors p) in
  let ctx := ctx |> set_fillStyle (Some (or_string backgroundColor (lit "#000000")))
                 |> fillRect 0 0 width height in
  let barColors :=
    if Nat.eqb (length barColors) 0
    then barColors ++ [lit "#8A2BE2"; lit "#FFFFFF"]
    else barColors in
  let cx := width / 2 in
  let cy := height / 2 in
  let radius := Math_min width height * 0.2 in
  let maxBarLength := Math_min width height * 0.35 in
  let ctx := drawCenterImage (image p) cx cy radius ctx in
  let colorCount := length barColors in
  let '(ctx, newBarLengths) :=
    for_loop (bar node dataArray barColors colorCount cx cy radius
                  maxBarLength old)
             0 NUM_BARS (ctx, []) in
  (drawTitle (videoTitle p) width height ctx, newBarLengths).

(** [draw]: one tick on the canvas [cv]; [spectrum] is what the
    analysis node holds at that instant, [dataArray] the array of the
    effect. *)
Definition draw (p : Props) (node : AnalyserNode) (spectrum : list byte)
  (dataArray : list byte) (cv : Canvas) (s : Component)
  : list byte * Component :=
  let dataArray := getByteFrequencyData spectrum dataArray in
  let cv :=
    match parentElement s with
    | Some (w, h) => cv |> set_width w |> set_height h
    | None => cv
    end in
  let '(ctx, newBarLengths) :=
    render p node dataArray (QN (width cv)) (QN (height cv))
           (barLengthsRef s) (context cv) in
  let s :=
    {| canvasRef := Some (with_context ctx cv);
       parentElement := parentElement s;
       animationFrameRef := animationFrameRef s;
       barLengthsRef := newBarLengths;
       pendingFrames := pendingFrames s;
       nextHandle := nextHandle s |} in
  (dataArray, if isPlaying p then requestAnimationFrame s else s).

(** The body of the effect, run when the props change. *)
Definition useEffect (p : Props) (spectrum : list byte) (s : Component)
  : Component :=
  match canvasRef s, analyserNode p with
  | Some canvas, Some node =>
      match getContext2d canvas with
      | None => s
      | Some _ =>
          let dataArray := Uint8Array (frequencyBinCount node) in
          let '(_, s) := draw p node spectrum dataArray canvas s in
          if isPlaying p then requestAnimationFrame s
          else cancelAnimationFrame s
      end
  | _, _ => s
  end.

End VisualizerCanvas.

(* ================================================================== *)
(** ** The palette service *)
(* ================================================================== *)

Module GeminiService.

(** What the call to the model and the parsing of its answer can give:
    the call or [JSON.parse] throws, or an object is parsed whose
    [palette] is an array of strings or something else. *)
Inductive Response : Type :=
| CallFails
| Parsed (palette : option (list jsstring)).

(** A promise that has settled. *)
Inductive Settled (A : Type) : Type :=
| Fulfilled (v : A)
| Rejected (message : jsstring).
Arguments Fulfilled {A} v.
Arguments Rejected {A} message.

Definition generateColorPalette (r : Response) : Settled (list jsstring) :=
  let unavailable :=
    lit "Could not generate a color palette. The AI service might be unavailable or the prompt was invalid." in
  match r with
  | Parsed (Some palette) =>
      if Nat.ltb 0 (length palette) then Fulfilled palette
      else Rejected unavailable
  | Parsed None => Rejected unavailable
  | CallFails => Rejected unavailable
  end.

End GeminiService.
Import GeminiService.

(* ================================================================== *)
(** ** The App component: palette request and capture session *)
(* ================================================================== *)

Module App.

Inductive AspectRatio : Type :=
| R16_9       (* '16:9' *)
| R9_16.      (* '9:16' *)

Definition RESOLUTIONS (a : AspectRatio) : N * N :=
  match a with
  | R16_9 => (1920, 1080)%N
  | R9_16 => (1080, 1920)%N
  end.

Definition drawTitle (text : jsstring) (width height : Q) (ctx : Ctx) : Ctx :=
  if negb (truthy (trim text)) then ctx
  else
    let fontSize := Qmax 24 (Math_min (width * 0.05) 80) in
    let x := width / 2 in
    let y := height - (fontSize * 2) in
    ctx |> set_font (BoldArial fontSize)
        |> set_textAlign (lit "center")
        |> set_fillStyle (Some (lit "rgba(255, 255, 255, 0.95)"))
        |> fillText text x y.

Record File : Type := mkFile { name : jsstring }.

Definition Blob := list byte.

Record Download : Type := mkDownload {
  download : jsstring;          (* the file name of the link *)
  content : Blob
}.

Record AudioElement : Type := mkAudio {
  muted : bool;
  playbackRate : Q;
  currentTime : Q
}.

(** The audio graph: the analysis node and the edges source ->
    analyser, analyser -> speakers, and source -> recording taps (the
    MediaStreamDestination nodes of captures). *)
Record AudioGraph : Type := mkGraph {
  analyser : AnalyserNode;
  source_to_analyser : bool;
  analyser_to_destination : bool;
  recording_taps : nat
}.

Inductive RecorderState : Type := inactive | recording | paused.

Record MediaRecorder : Type := mkRecorder {
  mimeType : jsstring;
  rstate : RecorderState;
  gathered : Blob               (* encoded data not yet delivered *)
}.

Inductive Task : Type :=
| DataAvailable (data : Blob)
| Stop.

(** What the closures created by one [handleDownload] hold. *)
Record Capture : Type := mkCapture {
  c_file : File;
  c_colors : list jsstring;
  c_videoTitle : jsstring;
  c_image : option Image;
  c_width : N;
  c_height : N;
  offscreenCanvas : Canvas;
  offscreenBarLengths : list num;
  tap_connected : bool;         (* source -> audioDestination *)
  endedListener : bool;         (* stopRecording listens to 'ended' *)
  frameRequested : bool         (* drawOffscreen is scheduled *)
}.

Record Session : Type := mkSession {
  (* React state *)
  file : option File;
  isPlaying : bool;
  isDownloading : bool;
  isGenerating : bool;
  colors : list jsstring;
  aspectRatio : AspectRatio;
  videoTitle : jsstring;
  image : option Image;
  error : option jsstring;
  (* refs; [graph] stands for audioContextRef, analyserRef, sourceRef *)
  audioRef : option AudioElement;
  graph : option AudioGraph;
  mediaRecorderRef : option MediaRecorder;
  recordingChunksRef : list Blob;
  (* closures of the running handleDownload *)
  capture : option Capture;
  (* files handed to the user *)
  downloads : list Download;
  (* events queued by the recorder *)
  tasks : list Task
}.

Definition setIsPlaying (v : bool) (s : Session) : Session :=
  {| file := file s; isPlaying := v; isDownloading := isDownloading s;
     isGenerating := isGenerating s; colors := colors s;
     aspectRatio := aspectRatio s; videoTitle := videoTitle s;
     image := image s; error := error s; audioRef := audioRef s;
     graph := graph s; mediaRecorderRef := mediaRecorderRef s;
     recordingChunksRef := recordingChunksRef s; capture := capture s;
     downloads := downloads s; tasks := tasks s |}.

Definition setIsDownloading (v : bool) (s : Session) : Session :=
  {| file := file s; isPlaying := isPlaying s; isDownloading := v;
     isGenerating := isGenerating s; colors := colors s;
     aspectRatio := aspectRatio s; videoTitle := videoTitle s;
     image := image s; error := error s; audioRef := audioRef s;
     graph := graph s; mediaRecorderRef := mediaRecorderRef s;
     recordingChunksRef := recordingChunksRef s; capture := capture s;
     downloads := downloads s; tasks := tasks s |}.

Definition setIsGenerating (v : bool) (s : Session) : Session :=
  {| file := file s; isPlaying := isPlaying s;
     isDownloading := isDownloading s; isGenerating := v;
     colors := colors s; aspectRatio := aspectRatio s;
     videoTitle := videoTitle s; image := image s; error := error s;
     audioRef := audioRef s; graph := graph s;
     mediaRecorderRef := mediaRecorderRef s;
     recordingChunksRef := recordingChunksRef s; capture := capture s;
     downloads := downloads s; tasks := tasks s |}.

Definition setColors (v : list jsstring) (s : Session) : Session :=
  {| file := file s; isPlaying := isPlaying s;
     isDownloading := isDownloading s; isGenerating := isGenerating s;
     colors := v; aspectRatio := aspectRatio s;
     videoTitle := videoTitle s; image := image s; error := error s;
     audioRef := audioRef s; graph := graph s;
     mediaRecorderRef := mediaRecorderRef s;
     recordingChunksRef := recordingChunksRef s; capture := capture s;
     downloads := downloads s; tasks := tasks s |}.

Definition setError (v : option jsstring) (s : Session) : Session :=
  {| file := file s; isPlaying := isPlaying s;
     isDownloading := isDownloading s; isGenerating := isGenerating s;
     colors := colors s; aspectRatio := aspectRatio s;
     videoTitle := videoTitle s; image := image s; error := v;
     audioRef := audioRef s; graph := graph s;
     mediaRecorderRef := mediaRecorderRef s;
     recordingChunksRef := recordingChunksRef s; capture := capture s;
     downloads := downloads s; tasks := tasks s |}.

Definition set_audioRef (v : option AudioElement) (s : Session) : Session :=
  {| file := file s; isPlaying := isPlaying s;
     isDownloading := isDownloading s; isGenerating := isGenerating s;
     colors := colors s; aspectRatio := aspectRatio s;
     videoTitle := videoTitle s; image := image s; error := error s;
     audioRef := v; graph := graph s;
     mediaRecorderRef := mediaRecorderRef s;
     recordingChunksRef := recordingChunksRef s; capture := capture s;
     downloads := downloads s; tasks := tasks s |}.

Definition set_graph (v : option AudioGraph) (s : Session) : Session :=
  {| file := file s; isPlaying := isPlaying s;
     isDownloading := isDownloading s; isGenerating := isGenerating s;
     colors := colors s; aspectRatio := aspectRatio s;
     videoTitle := videoTitle s; image := image s; error := error s;
     audioRef := audioRef s; graph := v;
     mediaRecorderRef := mediaRecorderRef s;
     recordingChunksRef := recordingChunksRef s; capture := capture s;
     downloads := downloads s; tasks := tasks s |}.

Definition set_mediaRecorderRef (v : option MediaRecorder) (s : Session) : Session :=
  {| file := file s; isPlaying := isPlaying s;
     isDownloading := isDownloading s; isGenerating := isGenerating s;
     colors := colors s; aspectRatio := aspectRatio s;
     videoTitle := videoTitle s; image := image s; error := error s;
     audioRef := audioRef s; graph := graph s; mediaRecorderRef := v;
     recordingChunksRef := recordingChunksRef s; capture := capture s;
     downloads := downloads s; tasks := tasks s |}.

Definition set_recordingChunksRef (v : list Blob) (s : Session) : Session :=
  {| file := file s; isPlaying := isPlaying s;
     isDownloading := isDownloading s; isGenerating := isGenerating s;
     colors := colors s; aspectRatio := aspectRatio s;
     videoTitle := videoTitle s; image := image s; error := error s;
     audioRef := audioRef s; graph := graph s;
     mediaRecorderRef := mediaRecorderRef s; recordingChunksRef := v;
     capture := capture s; downloads := downloads s; tasks := tasks s |}.

Definition set_capture (v : option Capture) (s : Session) : Session :=
  {| file := file s; isPlaying := isPlaying s;
     isDownloading := isDownloading s; isGenerating := isGenerating s;
     colors := colors s; aspectRatio := aspectRatio s;
     videoTitle := videoTitle s; image := image s; error := error s;
     audioRef := audioRef s; graph := graph s;
     mediaRecorderRef := mediaRecorderRef s;
     recordingChunksRef := recordingChunksRef s; capture := v;
     downloads := downloads s; tasks := tasks s |}.

Definition set_downloads (v : list Download) (s : Session) : Session :=
  {| file := file s; isPlaying := isPlaying s;
     isDownloading := isDownloading s; isGenerating := isGenerating s;
     colors := colors s; aspectRatio := aspectRatio s;
     videoTitle := videoTitle s; image := image s; error := error s;
     audioRef := audioRef s; graph := graph s;
     mediaRecorderRef := mediaRecorderRef s;
     recordingChunksRef := recordingChunksRef s; capture := capture s;
     downloads := v; tasks := tasks s |}.

Definition set_tasks (v : list Task) (s : Session) : Session :=
  {| file := file s; isPlaying := isPlaying s;
     isDownloading := isDownloading s; isGenerating := isGenerating s;
     colors := colors s; aspectRatio := aspectRatio s;
     videoTitle := videoTitle s; image := image s; error := error s;
     audioRef := audioRef s; graph := graph s;
     mediaRecorderRef := mediaRecorderRef s;
     recordingChunksRef := recordingChunksRef s; capture := capture s;
     downloads := downloads s; tasks := v |}.

Definition set_offscreenCanvas (v : Canvas) (c : Capture) : Capture :=
  {| c_file := c_file c; c_colors := c_colors c;
     c_videoTitle := c_videoTitle c; c_image := c_image c;
     c_width := c_width c; c_height := c_height c; offscreenCanvas := v;
     offscreenBarLengths := offscreenBarLengths c;
     tap_connected := tap_connected c; endedListener := endedListener c;
     frameRequested := frameRequested c |}.

Definition set_offscreenBarLengths (v : list num) (c : Capture) : Capture :=
  {| c_file := c_file c; c_colors := c_colors c;
     c_videoTitle := c_videoTitle c; c_image := c_image c;
     c_width := c_width c; c_height := c_height c;
     offscreenCanvas := offscreenCanvas c; offscreenBarLengths := v;
     tap_connected := tap_connected c; endedListener := endedListener c;
     frameRequested := frameRequested c |}.

Definition set_tap_connected (v : bool) (c : Capture) : Capture :=
  {| c_file := c_file c; c_colors := c_colors c;
     c_videoTitle := c_videoTitle c; c_image := c_image c;
     c_width := c_width c; c_height := c_height c;
     offscreenCanvas := offscreenCanvas c;
     offscreenBarLengths := offscreenBarLengths c; tap_connected := v;
     endedListener := endedListener c; frameRequested := frameRequested c |}.

Definition set_endedListener (v : bool) (c : Capture) : Capture :=
  {| c_file := c_file c; c_colors := c_colors c;
     c_videoTitle := c_videoTitle c; c_image := c_image c;
     c_width := c_width c; c_height := c_height c;
     offscreenCanvas := offscreenCanvas c;
     offscreenBarLengths := offscreenBarLengths c;
     tap_connected := tap_connected c; endedListener := v;
     frameRequested := frameRequested c |}.

Definition set_frameRequested (v : bool) (c : Capture) : Capture :=
  {| c_file := c_file c; c_colors := c_colors c;
     c_videoTitle := c_videoTitle c; c_image := c_image c;
     c_width := c_width c; c_height := c_height c;
     offscreenCanvas := offscreenCanvas c;
     offscreenBarLengths := offscreenBarLengths c;
     tap_connected := tap_connected c; endedListener := endedListener c;
     frameRequested := v |}.

Definition with_capture (f : Capture -> Capture) (s : Session) : Session :=
  match capture s with
  | Some c => set_capture (Some (f c)) s
  | None => s
  end.

Definition with_graph (f : AudioGraph -> AudioGraph) (s : Session) : Session :=
  match graph s with
  | Some g => set_graph (Some (f g)) s
  | None => s
  end.

(** [analyser.connect(audioCtx.destination)]: connecting twice is one
    connection. *)
Definition connect_destination (g : AudioGraph) : AudioGraph :=
  {| analyser := analyser g; source_to_analyser := source_to_analyser g;
     analyser_to_destination := true; recording_taps := recording_taps g |}.

(** [analyser.disconnect(audioCtx.destination)] inside [try]: the error
    raised when there is no such connection is swallowed. *)
Definition disconnect_destination (g : AudioGraph) : AudioGraph :=
  {| analyser := analyser g; source_to_analyser := source_to_analyser g;
     analyser_to_destination := false; recording_taps := recording_taps g |}.

(** [source.connect(audioDestination)] on a new destination node. *)
Definition connect_tap (g : AudioGraph) : AudioGraph :=
  {| analyser := analyser g; source_to_analyser := source_to_analyser g;
     analyser_to_destination := analyser_to_destination g;
     recording_taps := S (recording_taps g) |}.

Definition disconnect_tap (g : AudioGraph) : AudioGraph :=
  {| analyser := analyser g; source_to_analyser := source_to_analyser g;
     analyser_to_destination := analyser_to_destination g;
     recording_taps := pred (recording_taps g) |}.

(** *** The palette request *)

Definition handleGeneratePalette_begin (s : Session) : Session :=
  s |> setIsGenerating true |> setError None.

(** The rest of [handleGeneratePalette], once the provider's promise
    has settled: [try] body, [catch], [finally]. *)
Definition handleGeneratePalette_settle (r : Settled (list jsstring))
  (s : Session) : Session :=
  let s :=
    match r with
    | Fulfilled palette =>
        if Nat.ltb (length palette) 2
        then setError (Some (lit "AI did not return a valid palette. Please try a different prompt.")) s
        else setColors palette s
    | Rejected message => setError (Some message) s
    end in
  setIsGenerating false s.

Definition handleGeneratePalette (r : Settled (list jsstring)) (s : Session)
  : Session :=
  s |> handleGeneratePalette_begin |> handleGeneratePalette_settle r.

(** *** The capture frame *)

Definition NUM_BARS : nat := 128.

Definition dataIndex (i : nat) (node : AnalyserNode) : Z :=
  Math_floor ((Qnat i / Qnat NUM_BARS) * (QN (frequencyBinCount node) * 0.5)).

Definition targetLength (dataArray : list byte) (dataIndex : Z)
  (maxBarLength : Q) : num :=
  num_mul (num_div (to_num (read_u8 dataArray dataIndex)) 255) maxBarLength.

(** As in the live loop, with the exact product and difference;
    [Double.newLength] rounds them. *)
Definition newLength (targetLength : num) (oldLength maxBarLength : Q) : num :=
  if num_ge targetLength oldLength then targetLength
  else Math_max targetLength (oldLength - maxBarLength * 0.025).

Definition barLength (node : AnalyserNode) (dataArray : list byte)
  (maxBarLength : Q) (old : list num) (i : nat) : num :=
  newLength (targetLength dataArray (dataIndex i node) maxBarLength)
            (or_zero (nth_error old i)) maxBarLength.

Definition bar (node : AnalyserNode) (dataArray : list byte)
  (barColors : list jsstring) (colorCount : nat)
  (cx cy radius maxBarLength : Q) (old : list num)
  (i : nat) (st : Ctx * list num) : Ctx * list num :=
  let '(ctx, newBarLengths) := st in
  let newLength := barLength node dataArray maxBarLength old i in
  let newBarLengths := array_set newBarLengths i newLength in
  let angle := Qnat i / Qnat NUM_BARS in
  let start := mkPoint cx cy (Num radius) angle in
  let stop := mkPoint cx cy (num_add radius newLength) angle in
  (ctx |> set_strokeStyle (color_at barColors i colorCount)
       |> set_lineWidth 4
       |> beginPath
       |> moveTo start
       |> lineTo stop
       |> stroke,
   newBarLengths).

Definition drawCenterImage (image : option Image) (cx cy radius : Q)
  (ctx : Ctx) : Ctx :=
  match image with
  | None => ctx
  | Some img =>
      let imgAspectRatio :=
        inject_Z (Zpos (img_width img)) / inject_Z (Zpos (img_height img)) in
      let circleDiameter := radius * 2 in
      let landscape := negb (Qle_bool imgAspectRatio 1) in
      let drawWidth :=
        if landscape then circleDiameter
        else circleDiameter * imgAspectRatio in
      let drawHeight :=
        if landscape then circleDiameter / imgAspectRatio
        else circleDiameter in
      ctx |> save
          |> beginPath
          |> arc cx cy radius
          |> clip
          |> drawImage img (cx - drawWidth / 2) (cy - drawHeight / 2)
                       drawWidth drawHeight
          |> restore
  end.

(** The frame [drawOffscreen] draws, with the new bar lengths. *)
Definition renderOffscreen (colors : list jsstring) (image : option Image)
  (videoTitle : jsstring) (node : AnalyserNode) (dataArray : list byte)
  (width height : Q) (old : list num) (ctx : Ctx) : Ctx * list num :=
  let backgroundColor := nth_error colors 0 in
  let barColors := tl colors in
  let ctx := ctx |> set_fillStyle backgroundColor
                 |> fillRect 0 0 width height in
  let cx := width / 2 in
  let cy := height / 2 in
  let radius := Math_min width height * 0.2 in
  let maxBarLength := Math_min width height * 0.35 in
  let ctx := drawCenterImage image cx cy radius ctx in
  let colorCount := length barColors in
  let '(ctx, newBarLengths) :=
    for_loop (bar node dataArray barColors colorCount cx cy radius
                  maxBarLength old)
             0 NUM_BARS (ctx, []) in
  (drawTitle videoTitle width height ctx, newBarLengths).

Definition is_recording (s : Session) : bool :=
  match mediaRecorderRef s with
  | Some r => match rstate r with recording => true | _ => false end
  | None => false
  end.

Definition drawOffscreen (spectrum : list byte) (s : Session) : Session :=
  if negb (is_recording s) then s
  else
    match capture s, graph s with
    | Some c, Some g =>
        let dataArray :=
          getByteFrequencyData spectrum
            (Uint8Array (frequencyBinCount (analyser g))) in
        let '(ctx, newBarLengths) :=
          renderOffscreen (c_colors c) (c_image c) (c_videoTitle c)
            (analyser g) dataArray (QN (c_width c)) (QN (c_height c))
            (offscreenBarLengths c) (context (offscreenCanvas c)) in
        set_capture
          (Some (c |> set_offscreenCanvas (with_context ctx (offscreenCanvas c))
                   |> set_offscreenBarLengths newBarLengths
                   |> set_frameRequested true)) s
    | _, _ => s
    end.

(** *** The recorder and its handlers *)

(** [recorder.stop()]: the recorder becomes inactive at once; the data
    gathered so far and the stop event are delivered by queued tasks. *)
Definition recorder_stop (s : Session) : Session :=
  match mediaRecorderRef s with
  | Some r =>
      match rstate r with
      | inactive => s
      | _ =>
          s |> set_mediaRecorderRef
                 (Some {| mimeType := mimeType r; rstate := inactive;
                          gathered := [] |})
            |> set_tasks (tasks s ++ [DataAvailable (gathered r); Stop])
      end
  | None => s
  end.

(** [recorder.start()]. *)
Definition recorder_start (s : Session) : Session :=
  match mediaRecorderRef s with
  | Some r =>
      match rstate r with
      | inactive =>
          set_mediaRecorderRef
            (Some {| mimeType := mimeType r; rstate := recording;
                     gathered := [] |}) s
      | _ => s
      end
  | None => s
  end.

Definition stopRecording (s : Session) : Session :=
  if is_recording s then recorder_stop s else s.

Definition ondataavailable (data : Blob) (s : Session) : Session :=
  if Nat.ltb 0 (length data)
  then set_recordingChunksRef (recordingChunksRef s ++ [data]) s
  else s.

(** [`${file.name.split('.')[0]}_visualizer.webm`]. *)
Definition download_name (f : File) : jsstring :=
  nth 0 (split 46%N (name f)) [] ++ lit "_visualizer.webm".

(** [recorder.onstop].  [source.disconnect(audioDestination)] throws
    when the tap is not connected, which ends the handler there. *)
Definition onstop (s : Session) : Session :=
  match capture s with
  | None => s
  | Some c =>
      let blob := concat (recordingChunksRef s) in
      let s := set_downloads
                 (downloads s ++ [mkDownload (download_name (c_file c)) blob])
                 s in
      if tap_connected c then
        s |> with_graph disconnect_tap
          |> with_capture (set_tap_connected false)
          |> with_graph connect_destination
          |> with_capture (set_endedListener false)
          |> setIsDownloading false
          |> setIsPlaying false
      else s
  end.

Definition onerror (s : Session) : Session :=
  s |> setError (Some (lit "An error occurred during video creation."))
    |> stopRecording.

(** *** handleDownload *)

(** [has2d]: whether the new canvas gives a 2D context; [vp9]: whether
    [MediaRecorder.isTypeSupported] accepts the preferred type. *)
Definition handleDownload (has2d vp9 : bool) (s : Session) : Session :=
  if isDownloading s then s
  else
    match file s, graph s, audioRef s with
    | Some f, Some g, Some _ =>
        let s := s |> setIsDownloading true |> setError None in
        let '(width, height) := RESOLUTIONS (aspectRatio s) in
        let offscreenCanvas :=
          createCanvas has2d |> set_width width |> set_height height in
        match getContext2d offscreenCanvas with
        | None => setIsDownloading false s
        | Some _ =>
            let options :=
              if vp9 then lit "video/webm; codecs=vp9,opus"
              else lit "video/webm" in
            s |> with_graph connect_tap
              |> set_mediaRecorderRef
                   (Some {| mimeType := options; rstate := inactive;
                            gathered := [] |})
              |> set_recordingChunksRef []
              |> set_capture
                   (Some {| c_file := f; c_colors := colors s;
                            c_videoTitle := videoTitle s;
                            c_image := image s;
                            c_width := width; c_height := height;
                            offscreenCanvas := offscreenCanvas;
                            offscreenBarLengths := [];
                            tap_connected := true;
                            endedListener := true;
                            frameRequested := false |})
              |> with_graph disconnect_destination
              |> set_audioRef
                   (Some {| muted := false; playbackRate := 1;
                            currentTime := 0 |})
        end
    | _, _, _ => s
    end.

(** [audioEl.play().then(...)]. *)
Definition play_then (spectrum : list byte) (s : Session) : Session :=
  s |> recorder_start |> drawOffscreen spectrum |> setIsPlaying true.

(** [audioEl.play().catch(...)]. *)
Definition play_catch (s : Session) : Session :=
  s |> setError (Some (lit "Could not start playback for recording."))
    |> setIsDownloading false
    |> with_graph connect_destination.

(** *** The browser's side of a capture *)

Definition run_task (t : Task) (s : Session) : Session :=
  match t with
  | DataAvailable data => ondataavailable data s
  | Stop => onstop s
  end.

(** Runs the tasks the recorder has queued, in order. *)
Definition drain (s : Session) : Session :=
  fold_left (fun s t => run_task t s) (tasks s) (set_tasks [] s).

(** The encoder gathers more data while it records. *)
Definition gather (data : Blob) (s : Session) : Session :=
  match mediaRecorderRef s with
  | Some r =>
      match rstate r with
      | recording =>
          set_mediaRecorderRef
            (Some {| mimeType := mimeType r; rstate := recording;
                     gathered := gathered r ++ data |}) s
      | _ => s
      end
  | None => s
  end.

(** A display refresh: the scheduled [drawOffscreen] runs. *)
Definition frame (spectrum : list byte) (s : Session) : Session :=
  match capture s with
  | Some c =>
      if frameRequested c
      then s |> with_capture (set_frameRequested false)
             |> drawOffscreen spectrum
      else s
  | None => s
  end.

(** The media reaches its end: the 'ended' listener of the capture
    runs once, and the element's [onEnded] clears the playing flag. *)
Definition audio_ended (s : Session) : Session :=
  let s :=
    match capture s with
    | Some c =>
        if endedListener c
        then s |> with_capture (set_endedListener false) |> stopRecording
        else s
    | None => s
    end in
  setIsPlaying false s.

(** The encoder fails.  A browser that follows the recording
    specification inactivates the recorder, fires the error event and
    then delivers the data and the stop event itself
    ([ua_inactivates = true]); otherwise the error event is fired on a
    recorder still recording. *)
Definition encoder_error (ua_inactivates : bool) (s : Session) : Session :=
  if ua_inactivates then s |> recorder_stop |> onerror
  else onerror s.

End App.

(* ================================================================== *)
(** ** The words of the specification, for comparison with the code *)
(* ================================================================== *)

Module Spec.

(** [binIndex = floor(i / NUM_BARS * binCount * 0.5)]. *)
Definition binIndex (i : nat) (binCount : N) : Z :=
  Qfloor (Qnat i / 128 * QN binCount * 0.5).

(** [target = (sample[binIndex] / 255) * maxLength]. *)
Definition target (sample : byte) (maxLength : Q) : Q :=
  (QN (Byte.to_N sample) / 255) * maxLength.


Definition is_dot (c : code_unit) : bool := code_unit_eqb c 46%N.

Definition has_dot (s : jsstring) : bool := existsb is_dot s.

(** The base name of a file name: the name without its last extension,
    that is, without its last dot and what follows it. *)
Fixpoint strip_extension (s : jsstring) : jsstring :=
  match s with
  | [] => []
  | c :: s' =>
      if has_dot s' then c :: strip_extension s'
      else if is_dot c then [] else c :: s'
  end.

End Spec.

(** What the statements below say of one bar: the target is a number,
    the new length is a number in range, it is the target on attack and
    it falls by at most 2.5% of the maximum, not below the target, on
    decay. *)
Definition AdvanceOk (target : num) (previous maxLength : Q) (new : num)
  : Prop :=
  exists t n : Q,
    target = Num t /\ new = Num n /\
    0 <= n /\ n <= maxLength /\
    (previous <= t -> n = t) /\
    (t < previous -> previous - n <= maxLength * 0.025 /\ t <= n).

(* ================================================================== *)
(** ** Inputs used by the examples *)
(* ================================================================== *)

Module Examples.

(** The analysis node [setupAudioContext] creates: fftSize 2048. *)
Definition node : AnalyserNode := mkAnalyser 1024.

(** A spectrum at full scale in every bin. *)
Definition loud : list byte := repeat xff 1024.

Definition silent : list byte := repeat x00 1024.

(** The palette the App starts with. *)
Definition initial_colors : list jsstring :=
  [lit "#000000"; lit "#8A2BE2"; lit "#FFFFFF"].

Definition props : VisualizerCanvas.Props :=
  {| VisualizerCanvas.analyserNode := Some node;
     VisualizerCanvas.isPlaying := false;
     VisualizerCanvas.colors := initial_colors;
     VisualizerCanvas.videoTitle := lit "Neon Drift";
     VisualizerCanvas.image := None |}.



(** The props of a loaded file before the first play: no analysis node
    yet. *)
Definition props_no_node : VisualizerCanvas.Props :=
  {| VisualizerCanvas.analyserNode := None;
     VisualizerCanvas.isPlaying := false;
     VisualizerCanvas.colors := initial_colors;
     VisualizerCanvas.videoTitle := lit "Neon Drift";
     VisualizerCanvas.image := None |}.

(** A mounted component whose canvas sits in a 640 x 360 box. *)
Definition component : VisualizerCanvas.Component :=
  {| VisualizerCanvas.canvasRef := Some (createCanvas true);
     VisualizerCanvas.parentElement := Some (640, 360)%N;
     VisualizerCanvas.animationFrameRef := None;
     VisualizerCanvas.barLengthsRef := [];
     VisualizerCanvas.pendingFrames := [];
     VisualizerCanvas.nextHandle := 1 |}.

(** A session with [name] loaded and the audio graph set up by a first
    play, paused again. *)
Definition ready (name : string) (ratio : App.AspectRatio) : App.Session :=
  {| App.file := Some (App.mkFile (lit name));
     App.isPlaying := false; App.isDownloading := false;
     App.isGenerating := false;
     App.colors := initial_colors;
     App.aspectRatio := ratio;
     App.videoTitle := [];
     App.image := None;
     App.error := None;
     App.audioRef := Some (App.mkAudio false 1 0);
     App.graph := Some (App.mkGraph node true true 0);
     App.mediaRecorderRef := None;
     App.recordingChunksRef := [];
     App.capture := None;
     App.downloads := [];
     App.tasks := [] |}.

End Examples.

(* ================================================================== *)
(** ** Observations on a surface and on a session *)
(* ================================================================== *)

(** The background has been painted: some rectangle was filled. *)
Definition draws_background (s : VisualizerCanvas.Component) : Prop :=
  exists cv st x y w h,
    VisualizerCanvas.canvasRef s = Some cv /\
    In (FillRect st x y w h) (ops (context cv)).

(** The stroke colour of every bar drawn on a context, in order. *)
Definition stroke_styles (c : Ctx) : list jsstring :=
  flat_map (fun o => match o with
                     | Stroke st _ => [strokeStyle st]
                     | _ => []
                     end) (ops c).


(** No encoder has been allocated. *)
Definition no_encoder (s : App.Session) : bool :=
  match App.mediaRecorderRef s with None => true | Some _ => false end.

(** The encoder exists and has never been started or has stopped. *)
Definition encoder_inactive (s : App.Session) : bool :=
  match App.mediaRecorderRef s with
  | Some r => match App.rstate r with App.inactive => true | _ => false end
  | None => false
  end.

(** The analysis node feeds the speakers. *)
Definition analyser_reconnected (s : App.Session) : bool :=
  match App.graph s with
  | Some g => App.analyser_to_destination g
  | None => false
  end.

(** The number of recording taps hanging on the source. *)
Definition taps (s : App.Session) : nat :=
  match App.graph s with
  | Some g => App.recording_taps g
  | None => O
  end.

(** The tap of the current capture has been released. *)
Definition tap_released (s : App.Session) : bool :=
  match App.capture s with
  | Some c => negb (App.tap_connected c)
  | None => true
  end.

(** The audio routing is as before a capture. *)
Definition routing_restored (s : App.Session) : bool :=
  analyser_reconnected s && Nat.eqb (taps s) 0.

(** [handleDownload] passes its guard. *)
Definition ready_to_capture (s : App.Session) : bool :=
  negb (App.isDownloading s)
  && match App.file s with Some _ => true | None => false end
  && match App.graph s with Some _ => true | None => false end
  && match App.audioRef s with Some _ => true | None => false end.

(** A capture is running: the recorder records, the closures of
    [handleDownload] are alive with their tap and their 'ended'
    listener, and no recorder event is waiting. *)
Definition capturing (s : App.Session) : bool :=
  App.is_recording s
  && match App.capture s with
     | Some c => App.tap_connected c && App.endedListener c
     | None => false
     end
  && match App.graph s with Some _ => true | None => false end
  && match App.tasks s with [] => true | _ :: _ => false end.

(** The claim on a failed start of playback, as the specification
    states it. *)
Definition abort_before_encoder (s' : App.Session) : Prop :=
  no_encoder s' = true /\ routing_restored s' = true
  /\ App.isDownloading s' = false.

(* ================================================================== *)
(** ** The title service and the rest of the App component *)
(* ================================================================== *)

Module GeminiTitle.

(** What the call to the model can give: it throws, or it answers with
    a text. *)
Inductive Response : Type :=
| CallFails
| Text (text : jsstring).

(** The double quote and the apostrophe. *)
Definition is_quote (c : code_unit) : bool := N.eqb c 34 || N.eqb c 39.

(** [s.replace(re, '')] for the global pattern matching one quote
    character. *)
Definition remove_quotes (s : jsstring) : jsstring :=
  filter (fun c => negb (is_quote c)) s.

Definition generateTitle (r : Response) : Settled jsstring :=
  let failed := lit "Could not generate a title from the AI service." in
  match r with
  | Text text =>
      let title := remove_quotes (trim text) in
      if truthy title then Fulfilled title else Rejected failed
  | CallFails => Rejected failed
  end.

End GeminiTitle.

Module Transport.

(** The session together with the state of the App the capture model
    leaves out: the second generating flag, the state of the audio
    context and the paused flag of the media element. *)
Record Player : Type := mkPlayer {
  session : App.Session;
  isGeneratingTitle : bool;
  contextSuspended : bool;      (* audioContext.state === 'suspended' *)
  elementPaused : bool
}.

Definition with_session (f : App.Session -> App.Session) (p : Player)
  : Player :=
  {| session := f (session p); isGeneratingTitle := isGeneratingTitle p;
     contextSuspended := contextSuspended p;
     elementPaused := elementPaused p |}.

Definition setVideoTitle (v : jsstring) (s : App.Session) : App.Session :=
  {| App.file := App.file s; App.isPlaying := App.isPlaying s;
     App.isDownloading := App.isDownloading s;
     App.isGenerating := App.isGenerating s; App.colors := App.colors s;
     App.aspectRatio := App.aspectRatio s; App.videoTitle := v;
     App.image := App.image s; App.error := App.error s;
     App.audioRef := App.audioRef s; App.graph := App.graph s;
     App.mediaRecorderRef := App.mediaRecorderRef s;
     App.recordingChunksRef := App.recordingChunksRef s;
     App.capture := App.capture s; App.downloads := App.downloads s;
     App.tasks := App.tasks s |}.

Definition setIsGeneratingTitle (v : bool) (p : Player) : Player :=
  {| session := session p; isGeneratingTitle := v;
     contextSuspended := contextSuspended p;
     elementPaused := elementPaused p |}.

(** The graph [setupAudioContext] builds: fftSize 2048, hence half as
    many bins; source -> analyser -> destination. *)
Definition new_graph : App.AudioGraph :=
  {| App.analyser := mkAnalyser (2048 / 2);
     App.source_to_analyser := true;
     App.analyser_to_destination := true;
     App.recording_taps := 0 |}.

(** [starts_suspended]: the state in which the browser creates the
    audio context. *)
Definition setupAudioContext (starts_suspended : bool) (p : Player)
  : Player :=
  match App.audioRef (session p) with
  | None => p
  | Some _ =>
      match App.graph (session p) with
      | Some _ => p
      | None =>
          {| session := App.set_graph (Some new_graph) (session p);
             isGeneratingTitle := isGeneratingTitle p;
             contextSuspended := starts_suspended;
             elementPaused := elementPaused p |}
      end
  end.

(** [play_allowed]: whether the browser lets [play()] start. *)
Definition handlePlayPause (starts_suspended play_allowed : bool)
  (p : Player) : Player :=
  let p :=
    match App.graph (session p) with
    | None => setupAudioContext starts_suspended p
    | Some _ => p
    end in
  let p :=
    match App.graph (session p) with
    | Some _ =>
        if contextSuspended p
        then {| session := session p;
                isGeneratingTitle := isGeneratingTitle p;
                contextSuspended := false;
                elementPaused := elementPaused p |}
        else p
    | None => p
    end in
  let playing := App.isPlaying (session p) in
  let p :=
    match App.audioRef (session p) with
    | Some _ =>
        {| session := session p;
           isGeneratingTitle := isGeneratingTitle p;
           contextSuspended := contextSuspended p;
           elementPaused :=
             if playing then true
             else if play_allowed then false else elementPaused p |}
    | None => p
    end in
  with_session (App.setIsPlaying (negb playing)) p.

Definition handleGenerateTitle (r : Settled jsstring) (p : Player) : Player :=
  let p := p |> setIsGeneratingTitle true
             |> with_session (App.setError None) in
  let p :=
    match r with
    | Fulfilled title => with_session (setVideoTitle title) p
    | Rejected message => with_session (App.setError (Some message)) p
    end in
  setIsGeneratingTitle false p.

End Transport.

(* ================================================================== *)
(** ** Runs of a capture and further observations *)
(* ================================================================== *)

(** What happens between the start and the end of a capture. *)
Inductive CaptureEvent : Type :=
| Frame (spectrum : list byte)
| Gather (data : App.Blob).

Definition capture_step (s : App.Session) (e : CaptureEvent) : App.Session :=
  match e with
  | Frame spectrum => App.frame spectrum s
  | Gather data => App.gather data s
  end.

Definition capture_run (es : list CaptureEvent) (s : App.Session)
  : App.Session :=
  fold_left capture_step es s.

(** The encoded data of a run, in order. *)
Definition gathered_data (es : list CaptureEvent) : App.Blob :=
  flat_map (fun e => match e with Gather d => d | Frame _ => [] end) es.

(** The paths stroked on a context, with their line widths, in order. *)
Definition stroke_paths (c : Ctx) : list (Q * Path) :=
  flat_map (fun o => match o with
                     | Stroke st p => [(lineWidth st, p)]
                     | _ => []
                     end) (ops c).

(** The path of bar [i]: from the inner radius outwards by [len]. *)
Definition bar_path (cx cy radius : Q) (len : num) (i : nat) : Path :=
  [MoveTo (mkPoint cx cy (Num radius) (Qnat i / Qnat 128));
   LineTo (mkPoint cx cy (num_add radius len) (Qnat i / Qnat 128))].

(** A character [trim] does not remove. *)
Definition visible (c : code_unit) : bool := negb (is_space c).

(** Every stored length is a number between 0 and [bound]. *)
Definition lengths_within (bound : Q) (l : list num) : Prop :=
  Forall (fun x => exists q, x = Num q /\ 0 <= q /\ q <= bound) l.

(** One tick of the live loop on the bar lengths. *)
Definition live_tick (p : VisualizerCanvas.Props) (node : AnalyserNode)
  (dataArray : list byte) (w h : Q) (ctx : Ctx) (old : list num)
  : list num :=
  snd (VisualizerCanvas.render p node dataArray w h old ctx).

(** The state of a capture of file [f], started on graph [g] with the
    downloads [dl] already emitted, whose encoder holds [data]. *)
Definition recording_of (f : App.File) (g : App.AudioGraph)
  (dl : list App.Download) (data : App.Blob) (s : App.Session) : Prop :=
  (exists r, App.mediaRecorderRef s = Some r
             /\ App.rstate r = App.recording /\ App.gathered r = data)
  /\ (exists c, App.capture s = Some c /\ App.c_file c = f
                /\ App.tap_connected c = true /\ App.endedListener c = true)
  /\ App.graph s = Some (App.disconnect_destination (App.connect_tap g))
  /\ App.recordingChunksRef s = []
  /\ App.downloads s = dl
  /\ App.tasks s = []
  /\ App.isDownloading s = true
  /\ App.file s = Some f
  /\ (exists a, App.audioRef s = Some a).

(* ================================================================== *)
(** ** The length rule in binary64 *)
(* ================================================================== *)

(** The engine holds a number as an IEEE 754 binary64 value and rounds
    the exact result of every operation to the nearest such value, ties
    to the even mantissa.  [VisualizerCanvas.newLength] and
    [App.newLength] compute with the exact results; this module gives
    the same rule, written once for the two loops, with every operation
    rounded, for the properties of the rule that depend on the
    rounding. *)
Module Double.

Definition pow2 (e : Z) : Q := 2 ^ e.

(** The exponent of the leading bit of a positive [q]:
    [2 ^ ilog2 q <= q < 2 ^ (ilog2 q + 1)]. *)
Definition ilog2 (q : Q) : Z :=
  let l := (Z.log2 (Qnum q) - Z.log2 (Zpos (Qden q)))%Z in
  if Qle_bool (pow2 l) q then l else (l - 1)%Z.

(** The exponent of the last place of the binary64 values around a
    positive [q]: 53 bits of mantissa, and no exponent below -1074
    (the subnormal values). *)
Definition expo (q : Q) : Z := Z.max (ilog2 q - 52) (-1074).

(** The nearest integer, ties to the even one. *)
Definition rne (x : Q) : Z :=
  let f := Qfloor x in
  match Qcompare (x - inject_Z f) (1 # 2) with
  | Lt => f
  | Gt => (f + 1)%Z
  | Eq => if Z.even f then f else (f + 1)%Z
  end.

Definition fl_pos (q : Q) : Q :=
  let e := expo q in inject_Z (rne (q / pow2 e)) * pow2 e.

(** Rounding to binary64.  A result beyond the largest finite value
    would be an infinity; [is_double] keeps the values of the rule
    within the finite range. *)
Definition fl (q : Q) : Q :=
  match Qcompare q 0 with
  | Eq => 0
  | Gt => fl_pos q
  | Lt => - fl_pos (- q)
  end.

(** [Number.MAX_VALUE], (2^53 - 1) * 2^971. *)
Definition MAX_VALUE : Q := inject_Z (2 ^ 53 - 1) * pow2 971.

(** [q] is a finite binary64 value. *)
Definition is_double (q : Q) : bool :=
  Qeq_bool (fl q) q && Qle_bool (- MAX_VALUE) q && Qle_bool q MAX_VALUE.

Definition sub (a b : Q) : Q := fl (a - b).
Definition mul (a b : Q) : Q := fl (a * b).
Definition div (a b : Q) : Q := fl (a / b).

Definition num_div (a : num) (d : Q) : num :=
  match a with Num x => Num (div x d) | NaN => NaN end.

Definition num_mul (a : num) (m : Q) : num :=
  match a with Num x => Num (mul x m) | NaN => NaN end.

(** [Math.floor((i / NUM_BARS) * (bufferLength * 0.5))]. *)
Definition dataIndex (i : nat) (node : AnalyserNode) : Z :=
  Math_floor (mul (div (Qnat i) (Qnat VisualizerCanvas.NUM_BARS))
                  (mul (QN (frequencyBinCount node)) (fl 0.5))).

(** [Math.min(width, height) * 0.35]. *)
Definition maxBarLength (width height : Q) : Q :=
  mul (Math_min width height) (fl 0.35).

(** [(dataArray[dataIndex] / 255) * maxBarLength]. *)
Definition targetLength (dataArray : list byte) (dataIndex : Z)
  (maxBarLength : Q) : num :=
  num_mul (num_div (to_num (read_u8 dataArray dataIndex)) 255) maxBarLength.

(** [targetLength >= oldLength ? targetLength
     : Math.max(targetLength, oldLength - (maxBarLength * 0.025))]. *)
Definition newLength (targetLength : num) (oldLength maxBarLength : Q) : num :=
  if num_ge targetLength oldLength then targetLength
  else Math_max targetLength (sub oldLength (mul maxBarLength (fl 0.025))).

Definition barLength (node : AnalyserNode) (dataArray : list byte)
  (maxBarLength : Q) (old : list num) (i : nat) : num :=
  newLength (targetLength dataArray (dataIndex i node) maxBarLength)
            (or_zero (nth_error old i)) maxBarLength.

(** The lengths one turn of the loop over the bars stores. *)
Definition tick (node : AnalyserNode) (dataArray : list byte)
  (maxBarLength : Q) (old : list num) : list num :=
  map (barLength node dataArray maxBarLength old)
      (seq 0 VisualizerCanvas.NUM_BARS).

(** What one silent tick leaves of a bar of length [p]. *)
Definition fall (maxBarLength p : Q) : Q :=
  Qmax 0 (sub p (mul maxBarLength (fl 0.025))).

End Double.

(** The machine's binary64 values, to compare [Double.fl] with. *)
Module Hardware.

(** The rational a finite machine value stands for. *)
Definition of_float (f : float) : option Q :=
  match Prim2SF f with
  | S754_zero _ => Some 0
  | S754_finite sg m e =>
      Some ((if sg then -1 else 1) * inject_Z (Zpos m) * Double.pow2 e)
  | _ => None
  end.

(** The literals [0.025] and [0.35]. *)
Definition step_factor : float := 0x1.999999999999ap-6%float.
Definition length_factor : float := 0x1.6666666666666p-2%float.

(** [Math.max(0, p - maxBarLength * 0.025)] on machine values. *)
Definition fall (maxBarLength p : float) : float :=
  let x := PrimFloat.sub p (PrimFloat.mul maxBarLength step_factor) in
  if PrimFloat.ltb 0%float x then x else 0%float.

End Hardware.

(** The rule in binary64: the new length is a binary64 value in
    [0, maxLength]; it is the target on attack; on decay it is the
    larger of the target and of the rounded difference, it lies between
    the target and the previous length, and it is below the previous
    length by no more than the exact step and the rounding of the
    product and of the difference. *)
Definition AdvanceRounded (target : num) (previous maxLength : Q) (new : num)
  : Prop :=
  exists t n : Q,
    target = Num t /\ new = Num n /\
    Double.is_double n = true /\
    0 <= n /\ n <= maxLength /\
    (previous <= t -> n = t) /\
    (t < previous ->
       n = Qmax t (Double.sub previous
                     (Double.mul maxLength (Double.fl 0.025)))
       /\ t <= n /\ n <= previous
       /\ previous - n
          <= maxLength * 0.025 + maxLength * Double.pow2 (-52)
             + Double.pow2 (-1074)).

(** The array holds 128 numbers, none below [bound]. *)
Definition lengths_above (bound : Q) (l : list num) : Prop :=
  length l = 128%nat
  /\ Forall (fun x => exists q, x = Num q /\ bound <= q) l.

(** The length 26 silent ticks leave of a bar at full scale on a
    surface whose smaller side is 1080: 132.3000000000003. *)
Definition after_26_silent_ticks : Q :=
  Nat.iter 26 (Double.fall (Double.maxBarLength 1920 1080))
    (Double.maxBarLength 1920 1080).

(* ================================================================== *)
(** ** The events of a session *)
(* ================================================================== *)







(* ================================================================== *)
(** ** Lemmas on the values *)
(* ================================================================== *)

Lemma array_set_end (a : list num) (v : num) :
  array_set a (length a) v = a ++ [v].
Proof.
  induction a as [|x a IH]; simpl; [reflexivity|].
  now rewrite IH.
Qed.

Lemma getByteFrequencyData_length (spectrum array : list byte) :
  length (getByteFrequencyData spectrum array) = length array.
Proof.
  unfold getByteFrequencyData.
  rewrite length_app, length_firstn, length_skipn. lia.
Qed.

Lemma Uint8Array_length (n : N) : length (Uint8Array n) = N.to_nat n.
Proof. unfold Uint8Array. apply repeat_length. Qed.

Lemma trimStart_spaces (s : jsstring) :
  Forall (fun c => is_space c = true) s -> trimStart s = [].
Proof.
  induction 1 as [|c s Hc _ IH]; simpl; [reflexivity|].
  now rewrite Hc.
Qed.

Lemma trim_spaces (s : jsstring) :
  Forall (fun c => is_space c = true) s -> trim s = [].
Proof.
  intros H. unfold trim, trimEnd.
  now rewrite (trimStart_spaces s H).
Qed.

(** The floor of the bar-to-bin map is an integer division. *)
Lemma bin_floor (i : nat) (b : N) :
  Qfloor ((Qnat i / Qnat 128) * (QN b * 0.5))
  = (Z.of_nat i * Z.of_N b / 256)%Z.
Proof.
  rewrite Zdiv_Qdiv. apply Qfloor_comp.
  unfold Qnat, QN. rewrite inject_Z_mult.
  change (inject_Z (Z.of_nat 128)) with (128 : Q).
  change (inject_Z 256) with (256 : Q).
  field.
Qed.

Lemma bin_floor_spec (i : nat) (b : N) :
  Spec.binIndex i b = (Z.of_nat i * Z.of_N b / 256)%Z.
Proof.
  unfold Spec.binIndex. rewrite Zdiv_Qdiv. apply Qfloor_comp.
  unfold Qnat, QN. rewrite inject_Z_mult.
  change (inject_Z 256) with (256 : Q).
  field.
Qed.

Lemma bin_range (i : nat) (b : N) :
  (i < 128)%nat -> (1 <= b)%N ->
  (0 <= Z.of_nat i * Z.of_N b / 256 < Z.of_N b)%Z.
Proof.
  intros Hi Hb. split.
  - apply Z.div_pos; lia.
  - apply Z.div_lt_upper_bound; nia.
Qed.

Lemma read_u8_in_range (a : list byte) (i : Z) :
  (0 <= i < Z.of_nat (length a))%Z ->
  exists s : byte,
    nth_error a (Z.to_nat i) = Some s /\
    read_u8 a i = Some (Num (QN (Byte.to_N s))).
Proof.
  intros [H0 H1]. unfold read_u8.
  destruct (Z.ltb_spec i 0) as [Hneg|_]; [lia|].
  destruct (nth_error a (Z.to_nat i)) as [s|] eqn:E.
  - exists s. split; reflexivity.
  - apply nth_error_None in E. lia.
Qed.

Lemma byte_fraction (s : byte) :
  0 <= QN (Byte.to_N s) / 255 /\ QN (Byte.to_N s) / 255 <= 1.
Proof.
  pose proof (Byte.to_N_bounded s) as Hb.
  unfold QN, Qdiv, Qle, Qmult, Qinv, inject_Z; simpl. lia.
Qed.

Lemma target_range (s : byte) (m : Q) :
  0 <= m -> 0 <= QN (Byte.to_N s) / 255 * m /\ QN (Byte.to_N s) / 255 * m <= m.
Proof.
  intros Hm. destruct (byte_fraction s) as [H0 H1]. split.
  - apply Qmult_le_0_compat; assumption.
  - rewrite <- (Qmult_1_l m) at 2.
    apply Qmult_le_compat_r; assumption.
Qed.

(** The attack/decay rule on numbers. *)
Lemma rule_ok (t prev m : Q) :
  0 <= t -> t <= m -> 0 <= prev -> prev <= m ->
  AdvanceOk (Num t) prev m (VisualizerCanvas.newLength (Num t) prev m).
Proof.
  intros Ht0 Htm Hp0 Hpm.
  unfold VisualizerCanvas.newLength, num_ge, Math_max.
  destruct (Qle_bool prev t) eqn:E.
  - apply Qle_bool_iff in E.
    exists t, t.
    split; [reflexivity|]. split; [reflexivity|].
    split; [assumption|]. split; [assumption|].
    split; [reflexivity|].
    intros Hlt. exfalso. exact (Qlt_not_le _ _ Hlt E).
  - assert (Hlt : t < prev).
    { apply Qnot_le_lt. intros H. apply Qle_bool_iff in H. congruence. }
    assert (Hd : 0 <= m * 0.025).
    { apply Qmult_le_0_compat; [|discriminate].
      apply Qle_trans with prev; assumption. }
    exists t, (Qmax t (prev - m * 0.025)).
    split; [reflexivity|]. split; [reflexivity|].
    split; [apply Qle_trans with t; [assumption|apply Q.le_max_l]|].
    split.
    { apply Q.max_lub; [assumption|].
      apply Qle_trans with prev; [|assumption].
      apply Qle_minus_iff.
      setoid_replace (prev + - (prev - m * 0.025)) with (m * 0.025) by ring.
      exact Hd. }
    split.
    { intros Hle. exfalso. exact (Qlt_not_le _ _ Hlt Hle). }
    intros _. split; [|apply Q.le_max_l].
    pose proof (Q.le_max_r t (prev - m * 0.025)) as Hr.
    apply Qle_minus_iff in Hr. apply Qle_minus_iff.
    setoid_replace (m * 0.025 + - (prev - Qmax t (prev - m * 0.025)))
      with (Qmax t (prev - m * 0.025) + - (prev - m * 0.025)) by ring.
    exact Hr.
Qed.

Lemma newLength_same :
  App.newLength = VisualizerCanvas.newLength.
Proof. reflexivity. Qed.

Lemma targetLength_same :
  App.targetLength = VisualizerCanvas.targetLength.
Proof. reflexivity. Qed.

Lemma dataIndex_same :
  App.dataIndex = VisualizerCanvas.dataIndex.
Proof. reflexivity. Qed.

Lemma targetLength_read (a : list byte) (i : Z) (s : byte) (m : Q) :
  read_u8 a i = Some (Num (QN (Byte.to_N s))) ->
  VisualizerCanvas.targetLength a i m = Num (Spec.target s m).
Proof.
  intros H. unfold VisualizerCanvas.targetLength. rewrite H. reflexivity.
Qed.

(* ================================================================== *)
(** ** The bar loop *)
(* ================================================================== *)

Section BarLoop.

Variables (step : nat -> Ctx * list num -> Ctx * list num)
          (len : nat -> num).
Hypothesis step_lengths :
  forall i ctx acc, snd (step i (ctx, acc)) = array_set acc i (len i).

Lemma for_loop_lengths (count i : nat) (ctx : Ctx) (acc : list num) :
  length acc = i ->
  snd (for_loop step i count (ctx, acc)) = acc ++ map len (seq i count).
Proof.
  revert i ctx acc.
  induction count as [|k IH]; intros i ctx acc Hlen; simpl.
  - now rewrite app_nil_r.
  - destruct (step i (ctx, acc)) as [ctx' acc'] eqn:E.
    assert (Hacc : acc' = acc ++ [len i]).
    { pose proof (step_lengths i ctx acc) as H. rewrite E in H. simpl in H.
      subst acc'. rewrite <- Hlen. apply array_set_end. }
    rewrite IH.
    + rewrite Hacc, <- app_assoc. reflexivity.
    + rewrite Hacc, length_app. simpl. lia.
Qed.

End BarLoop.

Lemma snd_let_pair {A B C : Type} (x : A * B) (g : A -> C) :
  snd (let '(c, l) := x in (g c, l)) = snd x.
Proof. now destruct x. Qed.

Lemma live_bar_lengths node dataArray barColors colorCount cx cy radius m old :
  forall i ctx acc,
    snd (VisualizerCanvas.bar node dataArray barColors colorCount cx cy
           radius m old i (ctx, acc))
    = array_set acc i (VisualizerCanvas.barLength node dataArray m old i).
Proof. reflexivity. Qed.

Lemma capture_bar_lengths node dataArray barColors colorCount cx cy radius m old :
  forall i ctx acc,
    snd (App.bar node dataArray barColors colorCount cx cy
           radius m old i (ctx, acc))
    = array_set acc i (App.barLength node dataArray m old i).
Proof. reflexivity. Qed.

Lemma live_render_lengths (p : VisualizerCanvas.Props) (node : AnalyserNode)
  (dataArray : list byte) (w h : Q) (old : list num) (ctx : Ctx) :
  snd (VisualizerCanvas.render p node dataArray w h old ctx)
  = map (VisualizerCanvas.barLength node dataArray (Math_min w h * 0.35) old)
        (seq 0 VisualizerCanvas.NUM_BARS).
Proof.
  unfold VisualizerCanvas.render.
  rewrite snd_let_pair.
  rewrite (for_loop_lengths _ _ (live_bar_lengths _ _ _ _ _ _ _ _ _)); reflexivity.
Qed.

(** [draw] stores in [barLengthsRef] the lengths of the frame it
    renders on the resized canvas. *)
Lemma draw_barLengths (p : VisualizerCanvas.Props) (node : AnalyserNode)
  (spectrum dataArray : list byte) (cv : Canvas)
  (s : VisualizerCanvas.Component) :
  let cv' := match VisualizerCanvas.parentElement s with
             | Some (w, h) => set_height h (set_width w cv)
             | None => cv
             end in
  VisualizerCanvas.barLengthsRef
    (snd (VisualizerCanvas.draw p node spectrum dataArray cv s))
  = map (VisualizerCanvas.barLength node
           (getByteFrequencyData spectrum dataArray)
           (Math_min (QN (width cv')) (QN (height cv')) * 0.35)
           (VisualizerCanvas.barLengthsRef s))
        (seq 0 VisualizerCanvas.NUM_BARS).
Proof.
  intros cv'. unfold VisualizerCanvas.draw. fold cv'.
  rewrite <- live_render_lengths
    with (p := p) (ctx := context cv').
  destruct (VisualizerCanvas.render p node
              (getByteFrequencyData spectrum dataArray)
              (QN (width cv')) (QN (height cv'))
              (VisualizerCanvas.barLengthsRef s) (context cv'))
    as [ctx l].
  now destruct (VisualizerCanvas.isPlaying p).
Qed.

Lemma capture_render_lengths (colors : list jsstring) (image : option Image)
  (title : jsstring) (node : AnalyserNode)
  (dataArray : list byte) (w h : Q) (old : list num) (ctx : Ctx) :
  snd (App.renderOffscreen colors image title node dataArray w h old ctx)
  = map (App.barLength node dataArray (Math_min w h * 0.35) old)
        (seq 0 App.NUM_BARS).
Proof.
  unfold App.renderOffscreen.
  rewrite snd_let_pair.
  rewrite (for_loop_lengths _ _ (capture_bar_lengths _ _ _ _ _ _ _ _ _)); reflexivity.
Qed.

Lemma or_zero_num (q : Q) : or_zero (Some (Num q)) == q.
Proof.
  unfold or_zero. destruct (Qeq_bool q 0) eqn:E; [|reflexivity].
  apply Qeq_bool_eq in E. now symmetry.
Qed.


Lemma live_dataIndex_spec (i : nat) (node : AnalyserNode) :
  VisualizerCanvas.dataIndex i node = Spec.binIndex i (frequencyBinCount node).
Proof.
  unfold VisualizerCanvas.dataIndex, Math_floor, VisualizerCanvas.NUM_BARS.
  now rewrite bin_floor, bin_floor_spec.
Qed.


(* ================================================================== *)
(** ** Bar-State Animator *)
(* ================================================================== *)

(** C10: for every bar index below 128 and every bin count of at least
    one, the data index of the live loop and of the capture loop is at
    least 0 and below the bin count, so the read of a sample array of
    that many bytes is in range and gives a number. *)
Theorem dataIndex_within_sample (i : nat) (node : AnalyserNode)
  (dataArray : list byte) :
  (i < 128)%nat ->
  (1 <= frequencyBinCount node)%N ->
  length dataArray = N.to_nat (frequencyBinCount node) ->
  ((0 <= VisualizerCanvas.dataIndex i node < Z.of_N (frequencyBinCount node))%Z
   /\ exists v, read_u8 dataArray (VisualizerCanvas.dataIndex i node)
                = Some (Num v))
  /\
  ((0 <= App.dataIndex i node < Z.of_N (frequencyBinCount node))%Z
   /\ exists v, read_u8 dataArray (App.dataIndex i node) = Some (Num v)).
Proof.
  intros Hi Hb Hlen.
  rewrite dataIndex_same.
  assert (Hr : (0 <= VisualizerCanvas.dataIndex i node
                < Z.of_N (frequencyBinCount node))%Z).
  { rewrite live_dataIndex_spec, bin_floor_spec. now apply bin_range. }
  assert (Hv : exists v, read_u8 dataArray (VisualizerCanvas.dataIndex i node)
                         = Some (Num v)).
  { destruct (read_u8_in_range dataArray (VisualizerCanvas.dataIndex i node))
      as [s [_ Hs]]; [rewrite Hlen; lia|].
    now exists (QN (Byte.to_N s)). }
  repeat split; try apply Hr; exact Hv.
Qed.

Lemma dataIndex_within_sample_witness :
  let node := mkAnalyser 1024 in
  ((0 <= VisualizerCanvas.dataIndex 127 node < 1024)%Z
   /\ exists v, read_u8 (Uint8Array 1024) (VisualizerCanvas.dataIndex 127 node)
                = Some (Num v))
  /\
  ((0 <= App.dataIndex 127 node < 1024)%Z
   /\ exists v, read_u8 (Uint8Array 1024) (App.dataIndex 127 node)
                = Some (Num v)).
Proof.
  apply (dataIndex_within_sample 127 (mkAnalyser 1024) (Uint8Array 1024)).
  - lia.
  - simpl. lia.
  - reflexivity.
Defined.



(** The rule over the rationals, without rounding: for every previous
    length in [0, maxLength] and every sample byte, the rule of the live
    loop and the rule of the capture loop return a length in
    [0, maxLength]; the new length is the target when the target is at
    least the previous length; otherwise it is at most maxLength * 0.025
    below the previous length and not below the target.  With the
    operations rounded the last bound holds up to the rounding only:
    [advance_bounds_rounded], [decay_bound_exceeded]. *)
Theorem advance_bounds (dataArray : list byte) (idx : Z) (sample : byte)
  (previous maxLength : Q) :
  0 <= previous -> previous <= maxLength ->
  read_u8 dataArray idx = Some (Num (QN (Byte.to_N sample))) ->
  AdvanceOk (VisualizerCanvas.targetLength dataArray idx maxLength)
            previous maxLength
            (VisualizerCanvas.newLength
               (VisualizerCanvas.targetLength dataArray idx maxLength)
               previous maxLength)
  /\
  AdvanceOk (App.targetLength dataArray idx maxLength)
            previous maxLength
            (App.newLength (App.targetLength dataArray idx maxLength)
               previous maxLength).
Proof.
  intros Hp0 Hpm Hread.
  rewrite newLength_same, targetLength_same.
  rewrite (targetLength_read _ _ _ _ Hread).
  assert (Hm : 0 <= maxLength) by (apply Qle_trans with previous; assumption).
  destruct (target_range sample maxLength Hm) as [Ht0 Htm].
  split; apply rule_ok; assumption.
Qed.

Lemma advance_bounds_witness :
  AdvanceOk (VisualizerCanvas.targetLength [x40] 0 378) 300 378
            (VisualizerCanvas.newLength
               (VisualizerCanvas.targetLength [x40] 0 378) 300 378)
  /\
  AdvanceOk (App.targetLength [x40] 0 378) 300 378
            (App.newLength (App.targetLength [x40] 0 378) 300 378).
Proof.
  apply (advance_bounds [x40] 0 x40 300 378).
  - discriminate.
  - discriminate.
  - reflexivity.
Defined.

(* ================================================================== *)
(** ** Scene Renderer: the title *)
(* ================================================================== *)

Lemma live_drawTitle_blank (text : jsstring) (w h : Q) (ctx : Ctx) :
  Forall (fun c => is_space c = true) text ->
  VisualizerCanvas.drawTitle text w h ctx = ctx.
Proof.
  intros H. unfold VisualizerCanvas.drawTitle.
  now rewrite (trim_spaces text H).
Qed.

Lemma capture_drawTitle_blank (text : jsstring) (w h : Q) (ctx : Ctx) :
  Forall (fun c => is_space c = true) text ->
  App.drawTitle text w h ctx = ctx.
Proof.
  intros H. unfold App.drawTitle.
  now rewrite (trim_spaces text H).
Qed.

(** C8: for every palette, image, bar-length vector and surface, a
    title that is empty or made of white space only leaves the surface
    as the title step found it, in the live renderer and in the capture
    renderer, so the frame is the frame rendered with the empty title,
    that is, with no title. *)
Theorem blank_title_same_frame (text : jsstring) :
  Forall (fun c => is_space c = true) text ->
  (forall w h ctx, VisualizerCanvas.drawTitle text w h ctx = ctx)
  /\ (forall w h ctx, App.drawTitle text w h ctx = ctx)
  /\ (forall node playing colors image an dataArray w h old ctx,
        VisualizerCanvas.render
          (VisualizerCanvas.mkProps node playing colors text image)
          an dataArray w h old ctx
        = VisualizerCanvas.render
            (VisualizerCanvas.mkProps node playing colors [] image)
            an dataArray w h old ctx)
  /\ (forall colors image an dataArray w h old ctx,
        App.renderOffscreen colors image text an dataArray w h old ctx
        = App.renderOffscreen colors image [] an dataArray w h old ctx).
Proof.
  intros H.
  split; [intros; now apply live_drawTitle_blank|].
  split; [intros; now apply capture_drawTitle_blank|].
  split.
  - intros. unfold VisualizerCanvas.render. simpl VisualizerCanvas.videoTitle.
    simpl VisualizerCanvas.colors. simpl VisualizerCanvas.image.
    match goal with
    | |- context [for_loop ?f ?a ?n ?st] => destruct (for_loop f a n st)
    end.
    rewrite (live_drawTitle_blank text _ _ _ H).
    now rewrite (live_drawTitle_blank [] _ _ _ (Forall_nil _)).
  - intros. unfold App.renderOffscreen.
    match goal with
    | |- context [for_loop ?f ?a ?n ?st] => destruct (for_loop f a n st)
    end.
    rewrite (capture_drawTitle_blank text _ _ _ H).
    now rewrite (capture_drawTitle_blank [] _ _ _ (Forall_nil _)).
Qed.

Lemma blank_title_same_frame_witness :
  let text := [32; 9; 160; 10]%N in
  (forall w h ctx, VisualizerCanvas.drawTitle text w h ctx = ctx)
  /\ (forall w h ctx, App.drawTitle text w h ctx = ctx)
  /\ (forall node playing colors image an dataArray w h old ctx,
        VisualizerCanvas.render
          (VisualizerCanvas.mkProps node playing colors text image)
          an dataArray w h old ctx
        = VisualizerCanvas.render
            (VisualizerCanvas.mkProps node playing colors [] image)
            an dataArray w h old ctx)
  /\ (forall colors image an dataArray w h old ctx,
        App.renderOffscreen colors image text an dataArray w h old ctx
        = App.renderOffscreen colors image [] an dataArray w h old ctx).
Proof.
  apply (blank_title_same_frame [32; 9; 160; 10]%N).
  repeat constructor.
Defined.

(** A title with a visible character is drawn: one more operation. *)
Lemma live_drawTitle_visible :
  ops (VisualizerCanvas.drawTitle (lit " a ") 640 360 fresh)
  = [FillText
       {| fillStyle := lit "rgba(255, 255, 255, 0.95)";
          strokeStyle := lit "#000000"; lineWidth := 1;
          font := BoldArial (Qmax 24 (Qmin (640 * 0.05) 80));
          textAlign := lit "center"; clipRegion := None |}
       (lit " a ") (640 / 2) (360 - Qmax 24 (Qmin (640 * 0.05) 80) * 2)].
Proof. reflexivity. Qed.

(* ================================================================== *)
(** ** Live loop without an analysis node *)
(* ================================================================== *)

(** The guard of the effect: when no analysis node is attached, the
    effect of the live component returns before [draw] is defined; the
    component, with its canvas, its bar lengths and its requested
    frames, is left as it was. *)
Theorem no_node_no_frame (p : VisualizerCanvas.Props) (spectrum : list byte)
  (s : VisualizerCanvas.Component) :
  VisualizerCanvas.analyserNode p = None ->
  VisualizerCanvas.useEffect p spectrum s = s.
Proof.
  intros H. unfold VisualizerCanvas.useEffect. rewrite H.
  now destruct (VisualizerCanvas.canvasRef s).
Qed.

Lemma no_node_no_frame_witness :
  VisualizerCanvas.useEffect Examples.props_no_node Examples.silent
    Examples.component
  = Examples.component.
Proof.
  apply (no_node_no_frame Examples.props_no_node Examples.silent
           Examples.component).
  reflexivity.
Defined.

(** Without an analysis node the background is not painted on the
    canvas of the example component. *)
Lemma no_node_background_missing :
  ~ draws_background
      (VisualizerCanvas.useEffect Examples.props_no_node Examples.silent
         Examples.component).
Proof.
  intros (cv & st & x & y & w & h & Hcv & Hin).
  simpl in Hcv. injection Hcv as <-. simpl in Hin. exact Hin.
Qed.

(* ================================================================== *)
(** ** The palette request *)
(* ================================================================== *)

(** C9: whatever the provider's promise settles to, the generating flag
    ends idle; the result becomes the palette exactly when the promise
    is fulfilled with at least two colours, and then no error is shown;
    on a rejection or a shorter result the palette is the previous one
    and an error message is set.  Nothing else of the session changes. *)
Theorem palette_request_outcome (r : Settled (list jsstring))
  (s : App.Session) :
  let s' := App.handleGeneratePalette r s in
  App.isGenerating s' = false
  /\ match r with
     | Fulfilled palette =>
         if Nat.leb 2 (length palette)
         then App.colors s' = palette /\ App.error s' = None
         else App.colors s' = App.colors s
              /\ App.error s' = Some (lit "AI did not return a valid palette. Please try a different prompt.")
     | Rejected message =>
         App.colors s' = App.colors s /\ App.error s' = Some message
     end
  /\ App.videoTitle s' = App.videoTitle s
  /\ App.image s' = App.image s
  /\ App.file s' = App.file s
  /\ App.isPlaying s' = App.isPlaying s
  /\ App.isDownloading s' = App.isDownloading s
  /\ App.graph s' = App.graph s.
Proof.
  destruct r as [palette|message]; cbv zeta.
  - unfold App.handleGeneratePalette, App.handleGeneratePalette_settle.
    destruct (Nat.leb_spec 2 (length palette)) as [Hle|Hlt];
      destruct (Nat.ltb_spec (length palette) 2) as [Hlt'|Hle'];
      try lia; repeat split.
  - repeat split.
Qed.

(** The palette service rejects what the model could not produce, and
    the request then keeps the previous palette. *)
Lemma palette_service_failure (s : App.Session) :
  App.colors (App.handleGeneratePalette (generateColorPalette CallFails) s)
  = App.colors s
  /\ App.colors
       (App.handleGeneratePalette (generateColorPalette (Parsed (Some []))) s)
     = App.colors s.
Proof. split; reflexivity. Qed.

(** The scenario of the specification: five colours are accepted. *)
Lemma palette_ocean_sunset :
  let palette := [lit "#01030a"; lit "#00FFD1"; lit "#FF6B00";
                  lit "#00BFFF"; lit "#FFD700"] in
  let s' := App.handleGeneratePalette
              (generateColorPalette (Parsed (Some palette)))
              (Examples.ready "song.mp3" App.R16_9) in
  App.colors s' = palette /\ length (App.colors s') = 5%nat
  /\ nth_error (App.colors s') 0 = Some (lit "#01030a").
Proof. repeat split. Qed.

(* ================================================================== *)
(** ** The capture session *)
(* ================================================================== *)

Lemma capturing_inv (s : App.Session) :
  capturing s = true ->
  exists r c g,
    App.mediaRecorderRef s = Some r /\ App.rstate r = App.recording /\
    App.capture s = Some c /\ App.tap_connected c = true /\
    App.endedListener c = true /\
    App.graph s = Some g /\ App.tasks s = [].
Proof.
  unfold capturing, App.is_recording. intros H.
  destruct (App.mediaRecorderRef s) as [r|]; [|discriminate].
  destruct (App.rstate r) eqn:Er; try discriminate.
  destruct (App.capture s) as [c|]; [|discriminate].
  destruct (App.tap_connected c) eqn:Et; [|discriminate].
  destruct (App.endedListener c) eqn:El; [|discriminate].
  destruct (App.graph s) as [g|]; [|discriminate].
  destruct (App.tasks s); [|discriminate].
  exists r, c, g. repeat split; assumption.
Qed.

(** [drawOffscreen] touches the offscreen surface, the bar lengths and
    the frame request of the capture, nothing else. *)
Lemma capturing_drawOffscreen (spectrum : list byte) (s : App.Session) :
  capturing (App.drawOffscreen spectrum s) = capturing s.
Proof.
  unfold App.drawOffscreen.
  destruct (App.is_recording s); [|reflexivity]. simpl negb. cbv iota.
  destruct (App.capture s) as [c|] eqn:Ec; [|reflexivity].
  destruct (App.graph s) as [g|] eqn:Eg; [|reflexivity].
  match goal with
  | |- context [App.renderOffscreen ?a ?b ?c ?d ?e ?f ?g ?h ?i] =>
      generalize (App.renderOffscreen a b c d e f g h i)
  end.
  intros [ctx l].
  unfold capturing, App.is_recording. simpl.
  now rewrite Ec, Eg.
Qed.

Lemma capturing_setIsPlaying (v : bool) (s : App.Session) :
  capturing (App.setIsPlaying v s) = capturing s.
Proof. reflexivity. Qed.

(** A download started from a ready session, once playback has
    started, is a running capture. *)
Lemma capture_started (vp9 : bool) (spectrum : list byte) (s : App.Session) :
  ready_to_capture s = true -> App.tasks s = [] ->
  capturing (App.play_then spectrum (App.handleDownload true vp9 s)) = true.
Proof.
  unfold ready_to_capture. intros H Ht.
  unfold App.play_then.
  rewrite capturing_setIsPlaying, capturing_drawOffscreen.
  destruct s as [f pl dl gen col ar ti im er au gr mr ch cap dw ts].
  simpl in *. subst ts.
  destruct dl; [discriminate|].
  destruct f as [f|]; [|discriminate].
  destruct gr as [g|]; [|discriminate].
  destruct au as [a|]; [|discriminate].
  destruct ar; reflexivity.
Qed.

(** Frames and encoded data keep the capture running. *)
Lemma frame_keeps_capturing (spectrum : list byte) (s : App.Session) :
  capturing s = true -> capturing (App.frame spectrum s) = true.
Proof.
  intros H. pose proof H as H0.
  apply capturing_inv in H as (r & c & g & Hr & Hs & Hc & Ht & He & Hg & Hk).
  unfold App.frame. rewrite Hc.
  destruct (App.frameRequested c); [|exact H0].
  rewrite capturing_drawOffscreen.
  unfold App.with_capture. rewrite Hc.
  unfold capturing, App.is_recording. simpl.
  now rewrite Hr, Hs, Hg, Hk, Ht, He.
Qed.

Lemma gather_keeps_capturing (data : App.Blob) (s : App.Session) :
  capturing s = true -> capturing (App.gather data s) = true.
Proof.
  intros H.
  apply capturing_inv in H as (r & c & g & Hr & Hs & Hc & Ht & He & Hg & Hk).
  unfold App.gather. rewrite Hr, Hs.
  unfold capturing, App.is_recording. simpl.
  now rewrite Hc, Ht, He, Hg, Hk.
Qed.

(** C4: when the encoder reports an error while a capture runs, then,
    once the recorder's queued events have run, the analysis node is
    connected to the audio output again, the downloading flag is
    cleared, the error message is shown, the recorder is inactive and
    the tap is released; the audio graph is the one the success path
    (the media reaching its end) leaves. *)
Theorem encoder_error_restores (ua_inactivates : bool) (s : App.Session) :
  capturing s = true ->
  let s' := App.drain (App.encoder_error ua_inactivates s) in
  analyser_reconnected s' = true
  /\ App.isDownloading s' = false
  /\ App.error s' = Some (lit "An error occurred during video creation.")
  /\ encoder_inactive s' = true
  /\ tap_released s' = true
  /\ App.tasks s' = []
  /\ App.graph s' = App.graph (App.drain (App.audio_ended s)).
Proof.
  intros H.
  apply capturing_inv in H as (r & c & g & Hr & Hs & Hc & Ht & He & Hg & Hk).
  destruct s as [f pl dl gen col ar ti im er au gr mr ch cap dw ts].
  simpl in *. subst.
  destruct r as [mt st gth]. simpl in Hs. subst st.
  destruct c as [cf cc ct ci cw chh cv bl tap el fr].
  simpl in Ht, He. subst tap el.
  destruct ua_inactivates, gth; vm_compute; repeat split.
Qed.

Lemma encoder_error_restores_witness :
  let s := App.gather [x1a; x45]
             (App.frame Examples.loud
                (App.play_then Examples.silent
                   (App.handleDownload true true
                      (Examples.ready "song.mp3" App.R9_16)))) in
  let s' := App.drain (App.encoder_error true s) in
  analyser_reconnected s' = true
  /\ App.isDownloading s' = false
  /\ App.error s' = Some (lit "An error occurred during video creation.")
  /\ encoder_inactive s' = true
  /\ tap_released s' = true
  /\ App.tasks s' = []
  /\ App.graph s' = App.graph (App.drain (App.audio_ended s)).
Proof.
  apply (encoder_error_restores true).
  vm_compute. reflexivity.
Defined.

(** The success path: the media reaches its end, the recorder stops,
    the file is emitted and the routing is restored. *)
Lemma natural_end_restores (s : App.Session) :
  capturing s = true ->
  let s' := App.drain (App.audio_ended s) in
  analyser_reconnected s' = true
  /\ App.isDownloading s' = false
  /\ App.isPlaying s' = false
  /\ encoder_inactive s' = true
  /\ tap_released s' = true
  /\ length (App.downloads s') = S (length (App.downloads s)).
Proof.
  intros H.
  apply capturing_inv in H as (r & c & g & Hr & Hs & Hc & Ht & He & Hg & Hk).
  destruct s as [f pl dl gen col ar ti im er au gr mr ch cap dw ts].
  simpl in *. subst.
  destruct r as [mt st gth]. simpl in Hs. subst st.
  destruct c as [cf cc ct ci cw chh cv bl tap el fr].
  simpl in Ht, He. subst tap el.
  destruct gth; cbn; (repeat split; try reflexivity);
    rewrite length_app; simpl; lia.
Qed.

(** C5, as the code has it: when starting playback for a capture
    fails, the encoder has been allocated already but is never started;
    the failure handler shows an error, clears the downloading flag and
    reconnects the analysis node to the audio output; no file is
    emitted and no recorder event is queued. *)
Theorem playback_failure_cleanup (vp9 : bool) (s : App.Session) :
  ready_to_capture s = true ->
  let s' := App.play_catch (App.handleDownload true vp9 s) in
  encoder_inactive s' = true
  /\ analyser_reconnected s' = true
  /\ App.isDownloading s' = false
  /\ App.error s' = Some (lit "Could not start playback for recording.")
  /\ App.downloads s' = App.downloads s
  /\ App.tasks s' = App.tasks s.
Proof.
  unfold ready_to_capture. intros H.
  destruct s as [f pl dl gen col ar ti im er au gr mr ch cap dw ts].
  simpl in H.
  destruct dl; [discriminate|].
  destruct f as [f|]; [|discriminate].
  destruct gr as [g|]; [|discriminate].
  destruct au as [a|]; [|discriminate].
  destruct ar, vp9; vm_compute; repeat split.
Qed.

Lemma playback_failure_cleanup_witness :
  let s := Examples.ready "song.mp3" App.R16_9 in
  let s' := App.play_catch (App.handleDownload true true s) in
  encoder_inactive s' = true
  /\ analyser_reconnected s' = true
  /\ App.isDownloading s' = false
  /\ App.error s' = Some (lit "Could not start playback for recording.")
  /\ App.downloads s' = App.downloads s
  /\ App.tasks s' = App.tasks s.
Proof.
  apply (playback_failure_cleanup true (Examples.ready "song.mp3" App.R16_9)).
  reflexivity.
Defined.

(** C5, as stated, fails: after a failed start of playback the encoder
    is allocated and the routing is not the one before the capture. *)
Lemma playback_failure_encoder_allocated :
  ~ abort_before_encoder
      (App.play_catch
         (App.handleDownload true true (Examples.ready "song.mp3" App.R16_9))).
Proof.
  unfold abort_before_encoder. intros (He & _ & _).
  vm_compute in He. discriminate He.
Qed.

(** After a failed start the tap connected by [handleDownload] still
    hangs on the source; [onstop], the other exit, releases it. *)
Lemma playback_failure_tap_left :
  let s' := App.play_catch
              (App.handleDownload true true
                 (Examples.ready "song.mp3" App.R16_9)) in
  taps s' = 1%nat /\ tap_released s' = false /\ routing_restored s' = false.
Proof. vm_compute. repeat split. Qed.

(* ================================================================== *)
(** ** The output file and the offscreen surface *)
(* ================================================================== *)

Lemma has_dot_cons (c : code_unit) (s : jsstring) :
  Spec.has_dot (c :: s) = code_unit_eqb c 46%N || Spec.has_dot s.
Proof. reflexivity. Qed.

Lemma split_cons_other (c : code_unit) (s : jsstring) :
  code_unit_eqb c 46%N = false ->
  nth 0 (split 46%N (c :: s)) [] = c :: nth 0 (split 46%N s) [].
Proof.
  intros Hc. cbn [split]. rewrite Hc.
  now destruct (split 46%N s).
Qed.

Lemma split_head_no_dot (base : jsstring) :
  Spec.has_dot base = false ->
  nth 0 (split 46%N base) [] = base.
Proof.
  induction base as [|c base IH]; [reflexivity|].
  rewrite has_dot_cons. intros H. apply orb_false_elim in H as [Hc Hb].
  now rewrite (split_cons_other c base Hc), (IH Hb).
Qed.

Lemma split_head_dot (base rest : jsstring) :
  Spec.has_dot base = false ->
  nth 0 (split 46%N (base ++ 46%N :: rest)) [] = base.
Proof.
  induction base as [|c base IH]; [reflexivity|].
  rewrite has_dot_cons. intros H. apply orb_false_elim in H as [Hc Hb].
  rewrite <- app_comm_cons.
  now rewrite (split_cons_other c _ Hc), (IH Hb).
Qed.

Lemma strip_extension_one_dot (base ext : jsstring) :
  Spec.has_dot base = false ->
  Spec.has_dot ext = false ->
  Spec.strip_extension (base ++ 46%N :: ext) = base.
Proof.
  intros Hb He. induction base as [|c base IH].
  - cbn [app Spec.strip_extension]. now rewrite He.
  - rewrite has_dot_cons in Hb. apply orb_false_elim in Hb as [Hc Hb].
    rewrite <- app_comm_cons. cbn [Spec.strip_extension].
    unfold Spec.has_dot at 1. rewrite existsb_app.
    cbn [existsb]. change (Spec.is_dot 46%N) with true.
    rewrite orb_true_l, orb_true_r.
    now rewrite (IH Hb).
Qed.

(** With a single extension the name is the base name plus the fixed
    suffix and container extension. *)
Lemma download_name_one_dot (base ext : jsstring) :
  Spec.has_dot base = false ->
  Spec.has_dot ext = false ->
  App.download_name (App.mkFile (base ++ 46%N :: ext))
  = Spec.strip_extension (base ++ 46%N :: ext) ++ lit "_visualizer.webm".
Proof.
  intros Hb He. unfold App.download_name. simpl App.name.
  now rewrite (split_head_dot base ext Hb), (strip_extension_one_dot _ _ Hb He).
Qed.

Lemma download_name_song :
  App.download_name (App.mkFile (lit "song.mp3")) = lit "song_visualizer.webm".
Proof. reflexivity. Qed.

(** The offscreen surface has the size of the selected preset. *)
Lemma download_surface (vp9 : bool) (s : App.Session) :
  ready_to_capture s = true ->
  exists c,
    App.capture (App.handleDownload true vp9 s) = Some c
    /\ (width (App.offscreenCanvas c), height (App.offscreenCanvas c))
       = App.RESOLUTIONS (App.aspectRatio s)
    /\ (App.c_width c, App.c_height c) = App.RESOLUTIONS (App.aspectRatio s).
Proof.
  unfold ready_to_capture. intros H.
  destruct s as [f pl dl gen col ar ti im er au gr mr ch cap dw ts].
  simpl in H.
  destruct dl; [discriminate|].
  destruct f as [f|]; [|discriminate].
  destruct gr as [g|]; [|discriminate].
  destruct au as [a|]; [|discriminate].
  destruct ar; eexists; repeat split.
Qed.

Lemma download_presets :
  App.RESOLUTIONS App.R9_16 = (1080, 1920)%N
  /\ App.RESOLUTIONS App.R16_9 = (1920, 1080)%N.
Proof. split; reflexivity. Qed.

(** The scenario of the specification, from the start of the download
    to the emitted file. *)
Lemma download_scenario_song :
  let s := App.handleDownload true true (Examples.ready "song.mp3" App.R9_16) in
  let s' := App.drain (App.audio_ended
                         (App.gather [x1a; x45]
                            (App.play_then Examples.silent s))) in
  option_map (fun c => (width (App.offscreenCanvas c),
                        height (App.offscreenCanvas c))) (App.capture s)
    = Some (1080, 1920)%N
  /\ App.downloads s'
     = [App.mkDownload (lit "song_visualizer.webm") [x1a; x45]].
Proof. vm_compute. split; reflexivity. Qed.

(** C7: the presets and the example of the claim hold, but the base
    name is what precedes the first dot of the input name, not the name
    without its extension: for my.song.mp3 the emitted file is
    my_visualizer.webm, where stripping the extension gives
    my.song_visualizer.webm. *)
Theorem download_name_first_dot :
  let s := App.handleDownload true true
             (Examples.ready "my.song.mp3" App.R9_16) in
  let s' := App.drain (App.audio_ended (App.play_then Examples.silent s)) in
  map App.download (App.downloads s') = [lit "my_visualizer.webm"]
  /\ App.download_name (App.mkFile (lit "my.song.mp3"))
     = lit "my_visualizer.webm"
  /\ Spec.strip_extension (lit "my.song.mp3") ++ lit "_visualizer.webm"
     = lit "my.song_visualizer.webm"
  /\ App.download_name (App.mkFile (lit "my.song.mp3"))
     <> Spec.strip_extension (lit "my.song.mp3") ++ lit "_visualizer.webm".
Proof.
  vm_compute. repeat split. discriminate.
Qed.

(* ================================================================== *)
(** ** Scene Renderer: the bar colours *)
(* ================================================================== *)


Lemma fst_let_pair {A B C : Type} (x : A * B) (g : A -> C) :
  fst (let '(c, l) := x in (g c, l)) = g (fst x).
Proof. now destruct x. Qed.

Lemma bar_same : App.bar = VisualizerCanvas.bar.
Proof. reflexivity. Qed.

(** One bar: one stroke, in the colour picked for the bar or, when the
    pick is undefined, in the colour the context already had. *)
Lemma bar_styles node dataArray barColors colorCount cx cy radius m old
  (i : nat) (ctx : Ctx) (acc : list num) :
  let ctx' := fst (VisualizerCanvas.bar node dataArray barColors colorCount
                     cx cy radius m old i (ctx, acc)) in
  let c := match color_at barColors i colorCount with
           | Some c => c
           | None => strokeStyle (state ctx)
           end in
  stroke_styles ctx' = stroke_styles ctx ++ [c]
  /\ strokeStyle (state ctx') = c.
Proof.
  unfold VisualizerCanvas.bar. cbn [fst].
  destruct (color_at barColors i colorCount) as [c|];
    unfold stroke_styles; cbn; rewrite flat_map_app; cbn; split; reflexivity.
Qed.

Lemma drawCenterImage_styles (image : option Image) (cx cy radius : Q)
  (ctx : Ctx) :
  let ctx' := App.drawCenterImage image cx cy radius ctx in
  stroke_styles ctx' = stroke_styles ctx
  /\ strokeStyle (state ctx') = strokeStyle (state ctx).
Proof.
  destruct image as [img|]; [|split; reflexivity].
  unfold App.drawCenterImage, stroke_styles. cbn.
  rewrite flat_map_app. cbn. rewrite app_nil_r. split; reflexivity.
Qed.

Lemma drawCenterImage_same :
  App.drawCenterImage = VisualizerCanvas.drawCenterImage.
Proof. reflexivity. Qed.

Lemma drawTitle_styles (text : jsstring) (w h : Q) (ctx : Ctx) :
  stroke_styles (App.drawTitle text w h ctx) = stroke_styles ctx.
Proof.
  unfold App.drawTitle. destruct (negb (truthy (trim text))); [reflexivity|].
  unfold stroke_styles. cbn. rewrite flat_map_app. cbn.
  now rewrite app_nil_r.
Qed.

Lemma background_styles (v : option jsstring) (x y w h : Q) (ctx : Ctx) :
  let ctx' := fillRect x y w h (set_fillStyle v ctx) in
  stroke_styles ctx' = stroke_styles ctx
  /\ strokeStyle (state ctx') = strokeStyle (state ctx).
Proof.
  destruct v; unfold stroke_styles; cbn; rewrite flat_map_app; cbn;
    rewrite app_nil_r; split; reflexivity.
Qed.




(* ================================================================== *)
(** ** The first tick *)
(* ================================================================== *)

(** Before the first tick the state is the empty array: every bar reads
    as 0, and the first tick puts every bar at its target. *)
Lemma live_first_tick (node : AnalyserNode) (dataArray : list byte)
  (maxLength : Q) (i : nat) (sample : byte) :
  0 <= maxLength ->
  read_u8 dataArray (VisualizerCanvas.dataIndex i node)
    = Some (Num (QN (Byte.to_N sample))) ->
  VisualizerCanvas.barLength node dataArray maxLength [] i
  = Num (Spec.target sample maxLength).
Proof.
  intros Hm Hread. unfold VisualizerCanvas.barLength.
  rewrite (targetLength_read _ _ _ _ Hread).
  replace (nth_error (@nil num) i) with (@None num) by now destruct i.
  unfold VisualizerCanvas.newLength, num_ge, or_zero.
  destruct (target_range sample maxLength Hm) as [H0 _].
  apply Qle_bool_iff in H0. unfold Spec.target. now rewrite H0.
Qed.

(** One tick of the live component on a silent spectrum: 128 bars of
    length 0, one frame on the canvas, no tick scheduled while paused. *)
Lemma live_effect_paused :
  let s := VisualizerCanvas.useEffect Examples.props Examples.silent
             Examples.component in
  length (VisualizerCanvas.barLengthsRef s) = 128%nat
  /\ Forall (fun l => num_eq l (Num 0)) (VisualizerCanvas.barLengthsRef s)
  /\ VisualizerCanvas.pendingFrames s = []
  /\ option_map (fun cv => (width cv, height cv, length (ops (context cv))))
       (VisualizerCanvas.canvasRef s)
     = Some (640, 360, 130%nat)%N.
Proof.
  split; [reflexivity|]. split; [|split; reflexivity].
  vm_compute. repeat constructor.
Qed.

(* ================================================================== *)
(** ** Further properties: the two renderers *)
(* ================================================================== *)

Lemma drawTitle_same : App.drawTitle = VisualizerCanvas.drawTitle.
Proof. reflexivity. Qed.

(** X1: with a palette made of a non-empty background colour and at
    least one bar colour, the capture renderer draws, from the same
    inputs on the same context, exactly the frame of the live renderer,
    and computes the same bar lengths. *)
Theorem capture_frame_is_live_frame (bg c : jsstring) (rest : list jsstring)
  (image : option Image) (title : jsstring) (an : option AnalyserNode)
  (playing : bool) (node : AnalyserNode) (dataArray : list byte) (w h : Q)
  (old : list num) (ctx : Ctx) :
  truthy bg = true ->
  App.renderOffscreen (bg :: c :: rest) image title node dataArray w h old ctx
  = VisualizerCanvas.render
      (VisualizerCanvas.mkProps an playing (bg :: c :: rest) title image)
      node dataArray w h old ctx.
Proof.
  intros Hbg.
  unfold App.renderOffscreen, VisualizerCanvas.render.
  rewrite bar_same, drawTitle_same, drawCenterImage_same.
  cbn [VisualizerCanvas.colors VisualizerCanvas.image
       VisualizerCanvas.videoTitle nth_error tl length Nat.eqb or_string].
  rewrite Hbg. reflexivity.
Qed.

Lemma capture_frame_is_live_frame_witness :
  App.renderOffscreen Examples.initial_colors None (lit "Neon Drift")
    Examples.node Examples.loud 1080 1920 [] fresh
  = VisualizerCanvas.render
      (VisualizerCanvas.mkProps (Some Examples.node) true
         Examples.initial_colors (lit "Neon Drift") None)
      Examples.node Examples.loud 1080 1920 [] fresh.
Proof.
  apply (capture_frame_is_live_frame (lit "#000000") (lit "#8A2BE2")
           [lit "#FFFFFF"] None (lit "Neon Drift") (Some Examples.node) true
           Examples.node Examples.loud 1080 1920 [] fresh).
  reflexivity.
Defined.

(** Collecting what each turn of the bar loop adds to an observation of
    the context. *)
Lemma for_loop_collect {A : Type}
  (body : nat -> Ctx * list num -> Ctx * list num)
  (obs : Ctx -> list A) (f : nat -> A) :
  (forall i ctx acc, obs (fst (body i (ctx, acc))) = obs ctx ++ [f i]) ->
  forall n i ctx acc,
    obs (fst (for_loop body i n (ctx, acc))) = obs ctx ++ map f (seq i n).
Proof.
  intros Hstep. induction n as [|n IH]; intros i ctx acc; simpl.
  - now rewrite app_nil_r.
  - destruct (body i (ctx, acc)) as [ctx' acc'] eqn:E.
    rewrite IH. pose proof (Hstep i ctx acc) as H. rewrite E in H.
    simpl in H. rewrite H, <- app_assoc. reflexivity.
Qed.

Lemma color_at_cycle (barColors : list jsstring) (i : nat) :
  barColors <> [] ->
  color_at barColors i (length barColors)
  = Some (nth (i mod length barColors) barColors []).
Proof.
  intros Hne. unfold color_at.
  destruct barColors as [|c0 l]; [contradiction|].
  cbn [length Nat.eqb].
  apply nth_error_nth'. apply Nat.mod_upper_bound. discriminate.
Qed.

Lemma bar_style_cycle node dataArray (barColors : list jsstring)
  cx cy radius m old (i : nat) (ctx : Ctx) (acc : list num) :
  barColors <> [] ->
  stroke_styles (fst (VisualizerCanvas.bar node dataArray barColors
                        (length barColors) cx cy radius m old i (ctx, acc)))
  = stroke_styles ctx ++ [nth (i mod length barColors) barColors []].
Proof.
  intros Hne.
  destruct (bar_styles node dataArray barColors (length barColors)
              cx cy radius m old i ctx acc) as [H _].
  now rewrite (color_at_cycle barColors i Hne) in H.
Qed.

(** X2: when the palette has k >= 1 bar colours, both renderers stroke
    bar i in bar colour number i mod k, for each of the 128 bars. *)
Theorem bar_colours_cycle (colors : list jsstring) (image : option Image)
  (title : jsstring) (an : option AnalyserNode) (playing : bool)
  (node : AnalyserNode) (dataArray : list byte) (w h : Q) (old : list num)
  (ctx : Ctx) :
  tl colors <> [] ->
  let cycle := map (fun i => nth (i mod length (tl colors)) (tl colors) [])
                   (seq 0 128) in
  stroke_styles
    (fst (App.renderOffscreen colors image title node dataArray w h old ctx))
  = stroke_styles ctx ++ cycle
  /\
  stroke_styles
    (fst (VisualizerCanvas.render
            (VisualizerCanvas.mkProps an playing colors title image)
            node dataArray w h old ctx))
  = stroke_styles ctx ++ cycle.
Proof.
  intros Hne cycle. split.
  - unfold App.renderOffscreen.
    rewrite fst_let_pair, drawTitle_styles, bar_same.
    rewrite (for_loop_collect _ stroke_styles
               (fun i => nth (i mod length (tl colors)) (tl colors) [])).
    + destruct (drawCenterImage_styles image (w / 2) (h / 2)
                  (Math_min w h * 0.2)
                  (fillRect 0 0 w h (set_fillStyle (nth_error colors 0) ctx)))
        as [H1 _].
      destruct (background_styles (nth_error colors 0) 0 0 w h ctx) as [H3 _].
      cbv zeta in H1, H3. rewrite H1, H3. reflexivity.
    + intros i c a. now apply bar_style_cycle.
  - unfold VisualizerCanvas.render.
    cbn [VisualizerCanvas.colors VisualizerCanvas.image
         VisualizerCanvas.videoTitle].
    destruct (tl colors) as [|c0 l] eqn:Etl; [contradiction|].
    cbn [length Nat.eqb].
    rewrite fst_let_pair, <- drawTitle_same, drawTitle_styles.
    rewrite <- drawCenterImage_same.
    rewrite (for_loop_collect _ stroke_styles
               (fun i => nth (i mod length (c0 :: l)) (c0 :: l) [])).
    + set (bgc := Some (or_string (nth_error colors 0) (lit "#000000"))).
      destruct (drawCenterImage_styles image (w / 2) (h / 2)
                  (Math_min w h * 0.2)
                  (fillRect 0 0 w h (set_fillStyle bgc ctx)))
        as [H1 _].
      destruct (background_styles bgc 0 0 w h ctx) as [H3 _].
      cbv zeta in H1, H3. rewrite H1, H3. reflexivity.
    + intros i c a.
      apply (bar_style_cycle node dataArray (c0 :: l)). discriminate.
Qed.

Lemma bar_colours_cycle_witness :
  let cycle := map (fun i => nth (i mod 2) (tl Examples.initial_colors) [])
                   (seq 0 128) in
  stroke_styles
    (fst (App.renderOffscreen Examples.initial_colors None [] Examples.node
            Examples.loud 1080 1920 [] fresh))
  = stroke_styles fresh ++ cycle
  /\
  stroke_styles
    (fst (VisualizerCanvas.render
            (VisualizerCanvas.mkProps None false Examples.initial_colors []
               None)
            Examples.node Examples.loud 1080 1920 [] fresh))
  = stroke_styles fresh ++ cycle.
Proof.
  apply (bar_colours_cycle Examples.initial_colors None [] None false
           Examples.node Examples.loud 1080 1920 [] fresh).
  discriminate.
Defined.

Lemma bar_paths node dataArray barColors colorCount cx cy radius m old
  (i : nat) (ctx : Ctx) (acc : list num) :
  stroke_paths (fst (VisualizerCanvas.bar node dataArray barColors colorCount
                       cx cy radius m old i (ctx, acc)))
  = stroke_paths ctx
    ++ [(4, bar_path cx cy radius
              (VisualizerCanvas.barLength node dataArray m old i) i)].
Proof.
  unfold VisualizerCanvas.bar. cbn [fst].
  destruct (color_at barColors i colorCount) as [c|];
    unfold stroke_paths; cbn; rewrite flat_map_app; reflexivity.
Qed.

Lemma drawCenterImage_paths (image : option Image) (cx cy radius : Q)
  (ctx : Ctx) :
  stroke_paths (App.drawCenterImage image cx cy radius ctx) = stroke_paths ctx.
Proof.
  destruct image as [img|]; [|reflexivity].
  unfold App.drawCenterImage, stroke_paths. cbn.
  rewrite flat_map_app. cbn. now rewrite app_nil_r.
Qed.

Lemma drawTitle_paths (text : jsstring) (w h : Q) (ctx : Ctx) :
  stroke_paths (App.drawTitle text w h ctx) = stroke_paths ctx.
Proof.
  unfold App.drawTitle. destruct (negb (truthy (trim text))); [reflexivity|].
  unfold stroke_paths. cbn. rewrite flat_map_app. cbn.
  now rewrite app_nil_r.
Qed.

Lemma background_paths (v : option jsstring) (x y w h : Q) (ctx : Ctx) :
  stroke_paths (fillRect x y w h (set_fillStyle v ctx)) = stroke_paths ctx.
Proof.
  destruct v; unfold stroke_paths; cbn; rewrite flat_map_app; cbn;
    now rewrite app_nil_r.
Qed.

(** X3: every frame, live or captured, strokes exactly 128 paths of
    width 4 on top of what the context held: bar i is the segment that
    starts on the circle of radius 0.2 * min(width, height) around the
    centre of the surface and ends its new length further out, at the
    angle of index i. *)
Theorem frame_bar_paths (colors : list jsstring) (image : option Image)
  (title : jsstring) (an : option AnalyserNode) (playing : bool)
  (node : AnalyserNode) (dataArray : list byte) (w h : Q) (old : list num)
  (ctx : Ctx) :
  let bars :=
    map (fun i =>
           (4, bar_path (w / 2) (h / 2) (Math_min w h * 0.2)
                 (VisualizerCanvas.barLength node dataArray
                    (Math_min w h * 0.35) old i) i))
        (seq 0 128) in
  stroke_paths
    (fst (VisualizerCanvas.render
            (VisualizerCanvas.mkProps an playing colors title image)
            node dataArray w h old ctx))
  = stroke_paths ctx ++ bars
  /\
  stroke_paths
    (fst (App.renderOffscreen colors image title node dataArray w h old ctx))
  = stroke_paths ctx ++ bars.
Proof.
  intros bars. split.
  - unfold VisualizerCanvas.render.
    cbn [VisualizerCanvas.colors VisualizerCanvas.image
         VisualizerCanvas.videoTitle].
    rewrite fst_let_pair, <- drawTitle_same, drawTitle_paths.
    rewrite <- drawCenterImage_same.
    rewrite (for_loop_collect _ stroke_paths
               (fun i =>
                  (4, bar_path (w / 2) (h / 2) (Math_min w h * 0.2)
                        (VisualizerCanvas.barLength node dataArray
                           (Math_min w h * 0.35) old i) i))).
    + now rewrite drawCenterImage_paths, background_paths.
    + intros i c a. apply bar_paths.
  - unfold App.renderOffscreen.
    rewrite fst_let_pair, drawTitle_paths, bar_same.
    rewrite (for_loop_collect _ stroke_paths
               (fun i =>
                  (4, bar_path (w / 2) (h / 2) (Math_min w h * 0.2)
                        (VisualizerCanvas.barLength node dataArray
                           (Math_min w h * 0.35) old i) i))).
    + now rewrite drawCenterImage_paths, background_paths.
    + intros i c a. apply bar_paths.
Qed.

(* ================================================================== *)
(** ** Further properties: the title *)
(* ================================================================== *)

Lemma trimStart_keeps_visible (s : jsstring) :
  existsb visible s = true -> existsb visible (trimStart s) = true.
Proof.
  induction s as [|c s IH]; simpl; [discriminate|].
  unfold visible at 1. destruct (is_space c) eqn:E; simpl.
  - exact IH.
  - intros _. unfold visible at 1. now rewrite E.
Qed.

Lemma existsb_rev {A : Type} (f : A -> bool) (l : list A) :
  existsb f (rev l) = existsb f l.
Proof.
  induction l as [|x l IH]; simpl; [reflexivity|].
  rewrite existsb_app, IH. simpl. rewrite orb_false_r. apply orb_comm.
Qed.

Lemma trim_keeps_visible (s : jsstring) :
  existsb visible s = true -> existsb visible (trim s) = true.
Proof.
  intros H. unfold trim, trimEnd.
  rewrite existsb_rev. apply trimStart_keeps_visible.
  rewrite existsb_rev. now apply trimStart_keeps_visible.
Qed.

Lemma spaces_or_visible (s : jsstring) :
  existsb visible s = false -> Forall (fun c => is_space c = true) s.
Proof.
  induction s as [|c s IH]; simpl; [constructor|].
  intros H. apply orb_false_elim in H as [Hc Hs].
  constructor; [|now apply IH].
  unfold visible in Hc. now destruct (is_space c).
Qed.

(** X4: [drawTitle] draws exactly when the title has a character that
    is not white space: then it adds one text, the title as given (not
    trimmed), centred at width / 2; otherwise the context is left as it
    was. *)
Theorem title_drawn_iff_visible (text : jsstring) (w h : Q) (ctx : Ctx) :
  (existsb visible text = true ->
   exists st y,
     ops (App.drawTitle text w h ctx) = ops ctx ++ [FillText st text (w / 2) y]
     /\ textAlign st = lit "center"
     /\ fillStyle st = lit "rgba(255, 255, 255, 0.95)"
     /\ VisualizerCanvas.drawTitle text w h ctx = App.drawTitle text w h ctx)
  /\
  (existsb visible text = false ->
   App.drawTitle text w h ctx = ctx
   /\ VisualizerCanvas.drawTitle text w h ctx = ctx).
Proof.
  split.
  - intros H. apply trim_keeps_visible in H.
    unfold App.drawTitle.
    destruct (trim text) as [|c t] eqn:E; [discriminate|].
    cbn [truthy negb]. cbv zeta.
    eexists. eexists. split; [reflexivity|]. repeat split.
    unfold VisualizerCanvas.drawTitle. now rewrite E.
  - intros H. apply spaces_or_visible in H. split.
    + now apply capture_drawTitle_blank.
    + now apply live_drawTitle_blank.
Qed.

Lemma title_drawn_iff_visible_witness :
  exists st y,
    ops (App.drawTitle (lit " Neon Drift ") 1080 1920 fresh)
    = ops fresh ++ [FillText st (lit " Neon Drift ") (1080 / 2) y]
    /\ textAlign st = lit "center"
    /\ fillStyle st = lit "rgba(255, 255, 255, 0.95)"
    /\ VisualizerCanvas.drawTitle (lit " Neon Drift ") 1080 1920 fresh
       = App.drawTitle (lit " Neon Drift ") 1080 1920 fresh.
Proof.
  apply (proj1 (title_drawn_iff_visible (lit " Neon Drift ") 1080 1920 fresh)).
  reflexivity.
Defined.

(** X5: a drawn title is set in bold Arial of 5% of the width, clamped
    between 24 and 80 pixels (24 up to width 480, 80 from width 1600),
    and its baseline lies two font sizes above the bottom edge. *)
Theorem title_font_clamped (text : jsstring) (w h : Q) (ctx : Ctx) :
  existsb visible text = true ->
  exists fs st,
    font (state (App.drawTitle text w h ctx)) = BoldArial fs
    /\ ops (App.drawTitle text w h ctx)
       = ops ctx ++ [FillText st text (w / 2) (h - fs * 2)]
    /\ font st = BoldArial fs
    /\ 24 <= fs /\ fs <= 80
    /\ (w <= 480 -> fs == 24)
    /\ (480 <= w -> w <= 1600 -> fs == w * 0.05)
    /\ (1600 <= w -> fs == 80).
Proof.
  intros H. apply trim_keeps_visible in H.
  unfold App.drawTitle.
  destruct (trim text) as [|c t] eqn:E; [discriminate|].
  cbn [truthy negb]. cbv zeta.
  exists (Qmax 24 (Math_min (w * 0.05) 80)). eexists.
  split; [reflexivity|]. split; [reflexivity|]. split; [reflexivity|].
  unfold Math_min.
  split; [apply Q.le_max_l|].
  split; [apply Q.max_lub; [lra|apply Q.le_min_r]|].
  split; [|split].
  - intros Hw. apply Q.max_l.
    apply Qle_trans with (w * 0.05); [apply Q.le_min_l|lra].
  - intros H1 H2. rewrite Q.min_l by lra. apply Q.max_r. lra.
  - intros Hw. rewrite Q.min_r by lra. apply Q.max_r. lra.
Qed.

Lemma title_font_clamped_witness :
  exists fs st,
    font (state (App.drawTitle (lit "Neon Drift") 1080 1920 fresh))
    = BoldArial fs
    /\ ops (App.drawTitle (lit "Neon Drift") 1080 1920 fresh)
       = ops fresh ++ [FillText st (lit "Neon Drift") (1080 / 2)
                         (1920 - fs * 2)]
    /\ font st = BoldArial fs
    /\ 24 <= fs /\ fs <= 80
    /\ (1080 <= 480 -> fs == 24)
    /\ (480 <= 1080 -> 1080 <= 1600 -> fs == 1080 * 0.05)
    /\ (1600 <= 1080 -> fs == 80).
Proof.
  apply (title_font_clamped (lit "Neon Drift") 1080 1920 fresh).
  reflexivity.
Defined.

(* ================================================================== *)
(** ** Further properties: the centre image *)
(* ================================================================== *)

(** X6: the centre image is drawn once, clipped to the circle of the
    given radius around the centre, centred on it, with the aspect
    ratio of the image and fitted inside the square of the circle's
    diameter (its longer side is the diameter); afterwards the drawing
    state, clip included, is the one before, so the bars are not
    clipped. *)
Theorem centre_image_fits (img : Image) (cx cy radius : Q) (ctx : Ctx) :
  0 <= radius ->
  let ctx' := App.drawCenterImage (Some img) cx cy radius ctx in
  exists st x y dw dh,
    ops ctx' = ops ctx ++ [DrawImage st img x y dw dh]
    /\ clipRegion st = Some [Arc cx cy radius]
    /\ dw <= radius * 2 /\ dh <= radius * 2
    /\ (dw == radius * 2 \/ dh == radius * 2)
    /\ dw * inject_Z (Zpos (img_height img))
       == dh * inject_Z (Zpos (img_width img))
    /\ x + dw / 2 == cx /\ y + dh / 2 == cy
    /\ state ctx' = state ctx /\ stack ctx' = stack ctx
    /\ VisualizerCanvas.drawCenterImage (Some img) cx cy radius ctx = ctx'.
Proof.
  intros Hr ctx'. subst ctx'. rewrite <- drawCenterImage_same.
  unfold App.drawCenterImage.
  set (a := inject_Z (Zpos (img_width img))).
  set (b := inject_Z (Zpos (img_height img))).
  assert (Ha : 0 < a) by (unfold a, Qlt; simpl; lia).
  assert (Hb : 0 < b) by (unfold b, Qlt; simpl; lia).
  assert (Hab : 0 < a / b) by (apply Qlt_shift_div_l; [exact Hb|lra]).
  assert (Hne : ~ b == 0) by lra.
  assert (Hna : ~ a == 0) by lra.
  cbv zeta.
  destruct (Qle_bool (a / b) 1) eqn:E; cbn [negb].
  - apply Qle_bool_iff in E.
    do 5 eexists.
    split; [reflexivity|]. split; [reflexivity|].
    split; [nra|]. split; [lra|]. split; [right; reflexivity|].
    split; [field; exact Hne|].
    split; [field; exact Hne|]. split; [field|].
    split; [reflexivity|]. split; reflexivity.
  - assert (Hgt : 1 < a / b).
    { apply Qnot_le_lt. intros H. apply Qle_bool_iff in H. congruence. }
    do 5 eexists.
    split; [reflexivity|]. split; [reflexivity|].
    split; [lra|].
    split; [apply Qle_shift_div_r; [exact Hab|nra]|].
    split; [left; reflexivity|].
    split; [field; split; assumption|].
    split; [field|]. split; [field; split; assumption|].
    split; [reflexivity|]. split; reflexivity.
Qed.

Lemma centre_image_fits_witness :
  let img := mkImage 1600 900 in
  let ctx' := App.drawCenterImage (Some img) 540 960 216 fresh in
  exists st x y dw dh,
    ops ctx' = ops fresh ++ [DrawImage st img x y dw dh]
    /\ clipRegion st = Some [Arc 540 960 216]
    /\ dw <= 216 * 2 /\ dh <= 216 * 2
    /\ (dw == 216 * 2 \/ dh == 216 * 2)
    /\ dw * inject_Z (Zpos (img_height img))
       == dh * inject_Z (Zpos (img_width img))
    /\ x + dw / 2 == 540 /\ y + dh / 2 == 960
    /\ state ctx' = state fresh /\ stack ctx' = stack fresh
    /\ VisualizerCanvas.drawCenterImage (Some img) 540 960 216 fresh = ctx'.
Proof.
  apply (centre_image_fits (mkImage 1600 900) 540 960 216 fresh).
  discriminate.
Defined.

(* ================================================================== *)
(** ** Further properties: the bar-to-bin map and the animation *)
(* ================================================================== *)

Lemma live_dataIndex_div (i : nat) (node : AnalyserNode) :
  VisualizerCanvas.dataIndex i node
  = (Z.of_nat i * Z.of_N (frequencyBinCount node) / 256)%Z.
Proof. now rewrite live_dataIndex_spec, bin_floor_spec. Qed.

(** X7: the bars read the lower half of the spectrum only, in
    increasing order of frequency: the data index of a bar is below
    half the bin count, it does not decrease with the bar index, it
    increases strictly once there are at least 256 bins, and for a bin
    count that is a multiple of 256 bar i reads bin i * (binCount / 256).
    The capture loop uses the same index. *)
Theorem dataIndex_lower_half (i j : nat) (node : AnalyserNode) :
  (i < 128)%nat ->
  (1 <= frequencyBinCount node)%N ->
  let b := Z.of_N (frequencyBinCount node) in
  (2 * VisualizerCanvas.dataIndex i node < b)%Z
  /\ ((i <= j)%nat ->
      (VisualizerCanvas.dataIndex i node <= VisualizerCanvas.dataIndex j node)%Z)
  /\ ((256 <= b)%Z -> (i < j)%nat ->
      (VisualizerCanvas.dataIndex i node < VisualizerCanvas.dataIndex j node)%Z)
  /\ ((b mod 256 = 0)%Z ->
      VisualizerCanvas.dataIndex i node = (Z.of_nat i * (b / 256))%Z)
  /\ App.dataIndex i node = VisualizerCanvas.dataIndex i node.
Proof.
  intros Hi Hb b. rewrite !live_dataIndex_div. fold b.
  assert (Hb' : (1 <= b)%Z) by (unfold b; lia).
  split.
  - pose proof (Z.mul_div_le (Z.of_nat i * b) 256 ltac:(lia)) as H.
    assert (Z.of_nat i * b <= 127 * b)%Z by nia. lia.
  - split.
    + intros Hij. apply Z.div_le_mono; [lia|nia].
    + split.
      * intros H256 Hij.
        apply Z.lt_le_trans with ((Z.of_nat i * b + 1 * 256) / 256)%Z.
        -- rewrite Z.div_add by lia. lia.
        -- apply Z.div_le_mono; [lia|nia].
      * split; [|reflexivity].
        intros Hmod.
        apply Z.mod_divide in Hmod; [|lia]. destruct Hmod as [k Hk].
        rewrite Hk, Z.div_mul by lia.
        rewrite Z.mul_assoc. apply Z.div_mul. lia.
Qed.

Lemma dataIndex_lower_half_witness :
  let b := Z.of_N (frequencyBinCount Transport.new_graph.(App.analyser)) in
  (2 * VisualizerCanvas.dataIndex 127 Examples.node < b)%Z
  /\ ((127 <= 127)%nat ->
      (VisualizerCanvas.dataIndex 127 Examples.node
       <= VisualizerCanvas.dataIndex 127 Examples.node)%Z)
  /\ ((256 <= b)%Z -> (127 < 127)%nat ->
      (VisualizerCanvas.dataIndex 127 Examples.node
       < VisualizerCanvas.dataIndex 127 Examples.node)%Z)
  /\ ((b mod 256 = 0)%Z ->
      VisualizerCanvas.dataIndex 127 Examples.node = (Z.of_nat 127 * (b / 256))%Z)
  /\ App.dataIndex 127 Examples.node
     = VisualizerCanvas.dataIndex 127 Examples.node.
Proof.
  apply (dataIndex_lower_half 127 127 Examples.node).
  - lia.
  - simpl. lia.
Defined.

Lemma live_tick_lengths (p : VisualizerCanvas.Props) (node : AnalyserNode)
  (dataArray : list byte) (w h : Q) (ctx : Ctx) (old : list num) :
  live_tick p node dataArray w h ctx old
  = map (VisualizerCanvas.barLength node dataArray (Math_min w h * 0.35) old)
        (seq 0 128).
Proof. unfold live_tick. apply live_render_lengths. Qed.

Lemma or_zero_within (bound : Q) (old : list num) (i : nat) :
  0 <= bound -> lengths_within bound old ->
  0 <= or_zero (nth_error old i) /\ or_zero (nth_error old i) <= bound.
Proof.
  intros Hb H.
  destruct (nth_error old i) as [x|] eqn:E; [|simpl; lra].
  apply nth_error_In in E.
  unfold lengths_within in H. rewrite Forall_forall in H.
  destruct (H x E) as (q & -> & H0 & H1).
  pose proof (or_zero_num q) as Hq. lra.
Qed.

Section Steady.

Variables (node : AnalyserNode) (dataArray : list byte) (m : Q).
Hypothesis bins : (1 <= frequencyBinCount node)%N.
Hypothesis sized : length dataArray = N.to_nat (frequencyBinCount node).
Hypothesis m_nonneg : 0 <= m.

Lemma target_defined (i : nat) :
  (i < 128)%nat ->
  exists t, VisualizerCanvas.targetLength dataArray
              (VisualizerCanvas.dataIndex i node) m = Num t
            /\ 0 <= t /\ t <= m.
Proof.
  intros Hi.
  destruct (read_u8_in_range dataArray (VisualizerCanvas.dataIndex i node))
    as [s [_ Hs]].
  { rewrite sized, live_dataIndex_div.
    pose proof (bin_range i (frequencyBinCount node) Hi bins). lia. }
  exists (Spec.target s m). split.
  - now apply targetLength_read.
  - apply (target_range s m m_nonneg).
Qed.

(** A bar whose stored length equals its target stays on it. *)
Lemma bar_holds_target (old : list num) (i : nat) :
  (i < 128)%nat ->
  nth_error old i
  = Some (VisualizerCanvas.targetLength dataArray
            (VisualizerCanvas.dataIndex i node) m)
  \/ nth_error old i = None ->
  VisualizerCanvas.barLength node dataArray m old i
  = VisualizerCanvas.targetLength dataArray
      (VisualizerCanvas.dataIndex i node) m.
Proof.
  intros Hi Hold. destruct (target_defined i Hi) as (t & Ht & Ht0 & Htm).
  unfold VisualizerCanvas.barLength. rewrite Ht in *.
  unfold VisualizerCanvas.newLength, num_ge.
  assert (Hle : or_zero (nth_error old i) <= t).
  { destruct Hold as [-> | ->]; [rewrite or_zero_num; lra|exact Ht0]. }
  apply Qle_bool_iff in Hle. now rewrite Hle.
Qed.

End Steady.

Lemma maxBarLength_nonneg (w h : Q) :
  0 <= w -> 0 <= h -> 0 <= Math_min w h * 0.35.
Proof.
  intros Hw Hh. unfold Math_min.
  assert (0 <= Qmin w h) by (apply Q.min_glb; assumption). lra.
Qed.

(** X9: under a spectrum that does not change, the bars go from rest to
    their targets in one tick of the live loop and stay there: after any
    positive number of ticks bar i has the length
    (sample[dataIndex i] / 255) * maxBarLength. *)
Theorem steady_spectrum_steady_bars (p : VisualizerCanvas.Props)
  (node : AnalyserNode) (dataArray : list byte) (w h : Q) (ctx : Ctx)
  (k : nat) :
  (1 <= frequencyBinCount node)%N ->
  length dataArray = N.to_nat (frequencyBinCount node) ->
  0 <= w -> 0 <= h ->
  Nat.iter (S k) (live_tick p node dataArray w h ctx) []
  = map (fun i => VisualizerCanvas.targetLength dataArray
                    (VisualizerCanvas.dataIndex i node)
                    (Math_min w h * 0.35))
        (seq 0 128).
Proof.
  intros Hb Hlen Hw Hh.
  pose proof (maxBarLength_nonneg w h Hw Hh) as Hm.
  induction k as [|k IH].
  - cbn [Nat.iter nat_rect]. rewrite live_tick_lengths.
    apply map_ext_in. intros i Hi. apply in_seq in Hi.
    apply (bar_holds_target node dataArray _ Hb Hlen Hm); [lia|].
    right. now destruct i.
  - rewrite Nat.iter_succ, IH, live_tick_lengths.
    apply map_ext_in. intros i Hi. apply in_seq in Hi.
    apply (bar_holds_target node dataArray _ Hb Hlen Hm); [lia|].
    left. rewrite nth_error_map, nth_error_seq.
    destruct (Nat.ltb_spec i 128) as [_|Hge]; [reflexivity|lia].
Qed.

Lemma steady_spectrum_steady_bars_witness :
  Nat.iter 3 (live_tick Examples.props Examples.node Examples.loud
                640 360 fresh) []
  = map (fun i => VisualizerCanvas.targetLength Examples.loud
                    (VisualizerCanvas.dataIndex i Examples.node)
                    (Math_min 640 360 * 0.35))
        (seq 0 128).
Proof.
  apply (steady_spectrum_steady_bars Examples.props Examples.node
           Examples.loud 640 360 fresh 2).
  - simpl. lia.
  - reflexivity.
  - discriminate.
  - discriminate.
Defined.

(* ================================================================== *)
(** ** Further properties: the capture session *)
(* ================================================================== *)

(** A display refresh changes the closures of the capture only. *)
Lemma frame_only_capture (spectrum : list byte) (s : App.Session) :
  exists c', App.frame spectrum s = App.set_capture c' s.
Proof.
  unfold App.frame.
  destruct (App.capture s) as [c|] eqn:Ec.
  - destruct (App.frameRequested c).
    + unfold App.with_capture. rewrite Ec. unfold App.drawOffscreen.
      destruct (negb _).
      * eexists. reflexivity.
      * cbn [App.capture App.set_capture App.graph].
        destruct (App.graph s) as [g|]; [|eexists; reflexivity].
        match goal with
        | |- context [App.renderOffscreen ?a ?b ?c ?d ?e ?f ?g ?h ?i] =>
            generalize (App.renderOffscreen a b c d e f g h i)
        end.
        intros [ctx l]. eexists. reflexivity.
    + exists (Some c). destruct s; simpl in *. now subst.
  - exists None. destruct s; simpl in *. now subst.
Qed.

Lemma recording_of_frame f g dl data (spectrum : list byte) (s : App.Session) :
  recording_of f g dl data s ->
  recording_of f g dl data (App.frame spectrum s).
Proof.
  intros ((r & Hr & Hs & Hd) & (c & Hc & Hf & Ht & He) & Hg & Hch & Hdl & Hk & Hi & Hfile & (ael & Hael)).
  unfold App.frame. rewrite Hc.
  destruct (App.frameRequested c);
    [|repeat split; eauto 6].
  unfold App.with_capture. rewrite Hc.
  unfold App.drawOffscreen, App.is_recording.
  cbn [App.mediaRecorderRef App.set_capture App.capture App.graph].
  rewrite Hr, Hs, Hg. cbn [negb].
  match goal with
  | |- context [App.renderOffscreen ?a ?b ?c ?d ?e ?f ?g ?h ?i] =>
      generalize (App.renderOffscreen a b c d e f g h i)
  end.
  intros [ctx l]. unfold recording_of. cbn.
  split; [exists r; repeat split; assumption|].
  split; [eexists; split; [reflexivity|]; cbn; repeat split; assumption|].
  repeat split; try assumption. now exists ael.
Qed.

Lemma recording_of_gather f g dl data (more : App.Blob) (s : App.Session) :
  recording_of f g dl data s ->
  recording_of f g dl (data ++ more) (App.gather more s).
Proof.
  intros ((r & Hr & Hs & Hd) & (c & Hc & Hf & Ht & He) & Hg & Hch & Hdl & Hk & Hi & Hfile & (ael & Hael)).
  unfold App.gather. rewrite Hr, Hs. unfold recording_of. cbn.
  split; [eexists; split; [reflexivity|]; cbn; split; [reflexivity|now rewrite Hd]|].
  split; [exists c; repeat split; assumption|].
  repeat split; try assumption. now exists ael.
Qed.

Lemma recording_of_run f g dl (es : list CaptureEvent) :
  forall data s,
    recording_of f g dl data s ->
    recording_of f g dl (data ++ gathered_data es) (capture_run es s).
Proof.
  induction es as [|e es IH]; intros data s H.
  - simpl. now rewrite app_nil_r.
  - cbn [capture_run fold_left gathered_data flat_map].
    destruct e as [spectrum|more].
    + cbn [capture_step app]. apply (IH data). now apply recording_of_frame.
    + cbn [capture_step]. rewrite app_assoc. apply IH.
      now apply recording_of_gather.
Qed.

Lemma recording_of_drawOffscreen f g dl data (spectrum : list byte)
  (s : App.Session) :
  recording_of f g dl data s ->
  recording_of f g dl data (App.drawOffscreen spectrum s).
Proof.
  intros ((r & Hr & Hs & Hd) & (c & Hc & Hf & Ht & He) & Hg & Hch & Hdl & Hk & Hi & Hfile & (ael & Hael)).
  unfold App.drawOffscreen, App.is_recording.
  rewrite Hr, Hs, Hc, Hg. cbn [negb].
  match goal with
  | |- context [App.renderOffscreen ?a ?b ?c ?d ?e ?f ?g ?h ?i] =>
      generalize (App.renderOffscreen a b c d e f g h i)
  end.
  intros [ctx l]. unfold recording_of. cbn.
  split; [exists r; repeat split; assumption|].
  split; [eexists; split; [reflexivity|]; cbn; repeat split; assumption|].
  repeat split; try assumption. now exists ael.
Qed.

Lemma recording_of_setIsPlaying f g dl data (v : bool) (s : App.Session) :
  recording_of f g dl data s ->
  recording_of f g dl data (App.setIsPlaying v s).
Proof. intros H. exact H. Qed.

Lemma recording_of_start (vp9 : bool) (spectrum : list byte) f g
  (s : App.Session) :
  ready_to_capture s = true -> App.tasks s = [] ->
  App.file s = Some f -> App.graph s = Some g ->
  recording_of f g (App.downloads s) []
    (App.play_then spectrum (App.handleDownload true vp9 s)).
Proof.
  unfold ready_to_capture. intros H Ht Hf Hg.
  unfold App.play_then.
  apply recording_of_setIsPlaying, recording_of_drawOffscreen.
  destruct s as [f0 pl dl gen col ar ti im er au gr mr ch cap dw ts].
  simpl in *. subst.
  destruct dl; [discriminate|].
  destruct au as [a|]; [|discriminate].
  destruct ar; unfold recording_of; cbn;
    (split; [eexists; repeat split|]);
    (split; [eexists; repeat split|]); repeat split; eexists; reflexivity.
Qed.

Lemma recording_of_facts f g dl data (s : App.Session) :
  recording_of f g dl data s ->
  capturing s = true
  /\ analyser_reconnected s = false
  /\ taps s = S (App.recording_taps g)
  /\ App.isDownloading s = true
  /\ App.downloads s = dl.
Proof.
  intros ((r & Hr & Hs & Hd) & (c & Hc & Hf & Ht & He) & Hg & Hch & Hdl & Hk & Hi & Hfile & (ael & Hael)).
  unfold capturing, App.is_recording, analyser_reconnected, taps.
  rewrite Hr, Hs, Hc, Ht, He, Hg, Hk. repeat split; assumption.
Qed.

(** X10: from the moment playback has started for a download until the
    recorder stops, whatever display refreshes and encoder data come in
    between, the capture keeps running: the analysis node stays
    disconnected from the speakers, exactly one more recording tap hangs
    on the source, the session stays downloading and no file has been
    emitted. *)
Theorem capture_keeps_speakers_off (vp9 : bool) (spectrum : list byte)
  (es : list CaptureEvent) (s : App.Session) :
  ready_to_capture s = true -> App.tasks s = [] ->
  let s' := capture_run es
              (App.play_then spectrum (App.handleDownload true vp9 s)) in
  capturing s' = true
  /\ analyser_reconnected s' = false
  /\ taps s' = S (taps s)
  /\ App.isDownloading s' = true
  /\ App.downloads s' = App.downloads s.
Proof.
  intros H Ht s'.
  assert (Hfg : exists f g, App.file s = Some f /\ App.graph s = Some g).
  { unfold ready_to_capture in H.
    destruct (App.isDownloading s); [discriminate|].
    destruct (App.file s) as [f|]; [|discriminate].
    destruct (App.graph s) as [g|]; [|discriminate].
    now exists f, g. }
  destruct Hfg as (f & g & Hf & Hg).
  pose proof (recording_of_run f g (App.downloads s) es [] _
                (recording_of_start vp9 spectrum f g s H Ht Hf Hg)) as R.
  apply recording_of_facts in R. unfold taps at 2. rewrite Hg. exact R.
Qed.

Lemma capture_keeps_speakers_off_witness :
  let s := Examples.ready "song.mp3" App.R9_16 in
  let s' := capture_run [Frame Examples.loud; Gather [x1a; x45];
                         Frame Examples.silent]
              (App.play_then Examples.silent (App.handleDownload true true s)) in
  capturing s' = true
  /\ analyser_reconnected s' = false
  /\ taps s' = S (taps s)
  /\ App.isDownloading s' = true
  /\ App.downloads s' = App.downloads s.
Proof.
  apply (capture_keeps_speakers_off true Examples.silent
           [Frame Examples.loud; Gather [x1a; x45]; Frame Examples.silent]
           (Examples.ready "song.mp3" App.R9_16)).
  - reflexivity.
  - reflexivity.
Defined.

Lemma recording_of_end f g dl data (s : App.Session) :
  recording_of f g dl data s ->
  let s' := App.drain (App.audio_ended s) in
  App.downloads s' = dl ++ [App.mkDownload (App.download_name f) data]
  /\ App.graph s' = Some (App.connect_destination g)
  /\ App.isDownloading s' = false
  /\ App.isPlaying s' = false
  /\ encoder_inactive s' = true
  /\ App.tasks s' = [].
Proof.
  intros ((r & Hr & Hs & Hd) & (c & Hc & Hf & Ht & He) & Hg & Hch & Hdl & Hk & Hi & Hfile & (ael & Hael)).
  destruct s as [f0 pl dl0 gen col ar ti im er au gr mr ch cap dw ts].
  simpl in *. subst.
  destruct r as [mt st gth]. simpl in *. subst st.
  destruct c as [cf cc ct ci cw chh cv bl tap el fr]. simpl in *. subst.
  destruct gth as [|x gth]; cbn; repeat split.
  now rewrite app_nil_r.
Qed.

(** X11: a capture that runs to the natural end of the media emits
    exactly one file, named after the input file, whose content is all
    the data the encoder gathered, in order of arrival (empty when none
    arrived); it ends not downloading and not playing, with the recorder
    inactive, the tap removed and the analysis node connected to the
    speakers: the audio graph is the graph before the capture whenever
    the analysis node fed the speakers then. *)
Theorem capture_round_trip (vp9 : bool) (spectrum : list byte)
  (es : list CaptureEvent) (f : App.File) (g : App.AudioGraph)
  (s : App.Session) :
  ready_to_capture s = true -> App.tasks s = [] ->
  App.file s = Some f -> App.graph s = Some g ->
  let s' := App.drain
              (App.audio_ended
                 (capture_run es
                    (App.play_then spectrum
                       (App.handleDownload true vp9 s)))) in
  App.downloads s'
  = App.downloads s ++ [App.mkDownload (App.download_name f)
                          (gathered_data es)]
  /\ App.graph s' = Some (App.connect_destination g)
  /\ (App.analyser_to_destination g = true -> App.graph s' = App.graph s)
  /\ App.isDownloading s' = false
  /\ App.isPlaying s' = false
  /\ encoder_inactive s' = true
  /\ App.tasks s' = [].
Proof.
  intros H Ht Hf Hg s'.
  pose proof (recording_of_run f g (App.downloads s) es [] _
                (recording_of_start vp9 spectrum f g s H Ht Hf Hg)) as R.
  apply recording_of_end in R. cbn [app] in R.
  destruct R as (R1 & R2 & R3 & R4 & R5 & R6).
  split; [exact R1|]. split; [exact R2|].
  split; [|repeat split; assumption].
  intros Hcon. fold s'. unfold s' at 1. rewrite R2, Hg. f_equal.
  destruct g as [an sa ad rt]. simpl in Hcon. now subst ad.
Qed.

Lemma capture_round_trip_witness :
  let s := Examples.ready "song.mp3" App.R9_16 in
  let es := [Gather [x1a; x45]; Frame Examples.loud; Gather [xdf]] in
  let s' := App.drain
              (App.audio_ended
                 (capture_run es
                    (App.play_then Examples.silent
                       (App.handleDownload true true s)))) in
  App.downloads s'
  = App.downloads s ++ [App.mkDownload
                          (App.download_name (App.mkFile (lit "song.mp3")))
                          (gathered_data es)]
  /\ App.graph s' = Some (App.connect_destination
                            (App.mkGraph Examples.node true true 0))
  /\ (App.analyser_to_destination (App.mkGraph Examples.node true true 0)
      = true -> App.graph s' = App.graph s)
  /\ App.isDownloading s' = false
  /\ App.isPlaying s' = false
  /\ encoder_inactive s' = true
  /\ App.tasks s' = [].
Proof.
  apply (capture_round_trip true Examples.silent
           [Gather [x1a; x45]; Frame Examples.loud; Gather [xdf]]
           (App.mkFile (lit "song.mp3"))
           (App.mkGraph Examples.node true true 0)
           (Examples.ready "song.mp3" App.R9_16)); reflexivity.
Defined.

Lemma gather_stopped (data : App.Blob) (s : App.Session) :
  App.is_recording s = false -> App.gather data s = s.
Proof.
  unfold App.is_recording, App.gather.
  destruct (App.mediaRecorderRef s) as [r|]; [|reflexivity].
  now destruct (App.rstate r).
Qed.

Lemma frame_stopped (spectrum : list byte) (s : App.Session) :
  App.is_recording s = false ->
  App.frame spectrum s = s
  \/ App.frame spectrum s = App.with_capture (App.set_frameRequested false) s.
Proof.
  intros H. unfold App.frame.
  destruct (App.capture s) as [c|] eqn:Ec; [|now left].
  destruct (App.frameRequested c); [|now left].
  right. unfold App.drawOffscreen.
  replace (App.is_recording
             (App.with_capture (App.set_frameRequested false) s))
    with false; [reflexivity|].
  unfold App.with_capture. now rewrite Ec.
Qed.

Lemma step_cleared (e : CaptureEvent) (s : App.Session) :
  App.is_recording s = false ->
  let s0 := App.with_capture (App.set_frameRequested false) s in
  capture_step s0 e = s0.
Proof.
  intros H s0.
  assert (H0 : App.is_recording s0 = false).
  { unfold s0, App.with_capture. now destruct (App.capture s). }
  destruct e as [spectrum|data]; cbn [capture_step].
  - unfold App.frame, s0, App.with_capture.
    destruct (App.capture s) as [c|] eqn:Ec.
    + reflexivity.
    + now rewrite Ec.
  - now apply gather_stopped.
Qed.

(** X12: once the recorder is not recording, the capture loop is over:
    whatever display refreshes and encoder data still arrive, nothing
    is drawn on the offscreen surface, the bar lengths stay, no data is
    kept, and the only change is that the pending frame request, if
    one was left, is cleared and none is made again. *)
Theorem capture_loop_stops (es : list CaptureEvent) (s : App.Session) :
  App.is_recording s = false ->
  capture_run es s = s
  \/ capture_run es s = App.with_capture (App.set_frameRequested false) s.
Proof.
  intros H. unfold capture_run.
  assert (Hfix : forall l,
             fold_left capture_step l
               (App.with_capture (App.set_frameRequested false) s)
             = App.with_capture (App.set_frameRequested false) s).
  { induction l as [|e l IH]; [reflexivity|].
    cbn [fold_left]. rewrite (step_cleared e s H). exact IH. }
  induction es as [|e es IH]; [now left|].
  cbn [fold_left].
  destruct e as [spectrum|data]; cbn [capture_step].
  - destruct (frame_stopped spectrum s H) as [-> | ->].
    + exact IH.
    + right. apply Hfix.
  - rewrite (gather_stopped data s H). exact IH.
Qed.

Lemma capture_loop_stops_witness :
  let s := App.drain
             (App.audio_ended
                (App.play_then Examples.loud
                   (App.handleDownload true true
                      (Examples.ready "song.mp3" App.R9_16)))) in
  let es := [Frame Examples.loud; Gather [x1a]; Frame Examples.silent] in
  capture_run es s = s
  \/ capture_run es s = App.with_capture (App.set_frameRequested false) s.
Proof.
  apply (capture_loop_stops
           [Frame Examples.loud; Gather [x1a]; Frame Examples.silent]).
  vm_compute. reflexivity.
Defined.

(** X13: [handleDownload] does nothing unless the session is not
    downloading and has a file, an audio graph and a media element; and
    once a download has been started, starting again does nothing, so
    that no second encoder or tap is created. *)
Theorem download_guard (has2d vp9 a b : bool) (s : App.Session) :
  (ready_to_capture s = false -> App.handleDownload has2d vp9 s = s)
  /\ (ready_to_capture s = true ->
      App.handleDownload a b (App.handleDownload true vp9 s)
      = App.handleDownload true vp9 s).
Proof.
  unfold ready_to_capture.
  destruct s as [f pl dl gen col ar ti im er au gr mr ch cap dw ts].
  cbn [App.isDownloading App.file App.graph App.audioRef].
  split; intros H.
  - unfold App.handleDownload.
    cbn [App.isDownloading App.file App.graph App.audioRef].
    destruct dl; [reflexivity|].
    destruct f as [f|]; [|reflexivity].
    destruct gr as [g|]; [|reflexivity].
    destruct au as [au|]; [discriminate|reflexivity].
  - destruct dl; [discriminate|].
    destruct f as [f|]; [|discriminate].
    destruct gr as [g|]; [|discriminate].
    destruct au as [au|]; [|discriminate].
    destruct ar; vm_compute; reflexivity.
Qed.

Lemma download_guard_witness :
  App.handleDownload false false
    (App.handleDownload true true (Examples.ready "song.mp3" App.R16_9))
  = App.handleDownload true true (Examples.ready "song.mp3" App.R16_9).
Proof.
  apply (proj2 (download_guard true true false false
                  (Examples.ready "song.mp3" App.R16_9))).
  reflexivity.
Defined.

(** X14: when the new canvas gives no 2D context, [handleDownload]
    gives up before touching the audio: no tap is connected, the
    analysis node keeps its connection, no encoder is allocated, no
    closure is kept, and the session is not downloading; only a shown
    error has been cleared. *)
Theorem download_without_context (vp9 : bool) (s : App.Session) :
  ready_to_capture s = true ->
  let s' := App.handleDownload false vp9 s in
  App.graph s' = App.graph s
  /\ App.mediaRecorderRef s' = App.mediaRecorderRef s
  /\ App.capture s' = App.capture s
  /\ App.recordingChunksRef s' = App.recordingChunksRef s
  /\ App.audioRef s' = App.audioRef s
  /\ App.isDownloading s' = false
  /\ App.isPlaying s' = App.isPlaying s
  /\ App.error s' = None.
Proof.
  unfold ready_to_capture. intros H.
  destruct s as [f pl dl gen col ar ti im er au gr mr ch cap dw ts].
  cbn [App.isDownloading App.file App.graph App.audioRef] in H.
  destruct dl; [discriminate|].
  destruct f as [f|]; [|discriminate].
  destruct gr as [g|]; [|discriminate].
  destruct au as [au|]; [|discriminate].
  destruct ar; cbn; repeat split.
Qed.

Lemma download_without_context_witness :
  let s := Examples.ready "song.mp3" App.R16_9 in
  let s' := App.handleDownload false true s in
  App.graph s' = App.graph s
  /\ App.mediaRecorderRef s' = App.mediaRecorderRef s
  /\ App.capture s' = App.capture s
  /\ App.recordingChunksRef s' = App.recordingChunksRef s
  /\ App.audioRef s' = App.audioRef s
  /\ App.isDownloading s' = false
  /\ App.isPlaying s' = App.isPlaying s
  /\ App.error s' = None.
Proof.
  apply (download_without_context true (Examples.ready "song.mp3" App.R16_9)).
  reflexivity.
Defined.

(* ================================================================== *)
(** ** Further properties: the title and palette requests *)
(* ================================================================== *)

Lemma remove_quotes_clean (s : jsstring) :
  Forall (fun c => GeminiTitle.is_quote c = false)
         (GeminiTitle.remove_quotes s).
Proof.
  unfold GeminiTitle.remove_quotes. apply Forall_forall.
  intros c Hc. apply filter_In in Hc as [_ Hc].
  now destruct (GeminiTitle.is_quote c).
Qed.

Lemma remove_quotes_nonempty (s : jsstring) :
  truthy (GeminiTitle.remove_quotes s)
  = existsb (fun c => negb (GeminiTitle.is_quote c)) s.
Proof.
  unfold GeminiTitle.remove_quotes.
  induction s as [|c s IH]; [reflexivity|].
  cbn [filter existsb].
  destruct (negb (GeminiTitle.is_quote c)); [reflexivity|exact IH].
Qed.

(** X15: the title service fulfils exactly when the answer, trimmed,
    has a character that is not a quote; the title is then the trimmed
    answer without its quote characters: it is not empty and holds no
    double quote and no apostrophe.  Every failure is reported with the
    same message. *)
Theorem generated_title_clean (r : GeminiTitle.Response) :
  match GeminiTitle.generateTitle r with
  | Fulfilled title =>
      title <> []
      /\ Forall (fun c => GeminiTitle.is_quote c = false) title
      /\ exists text,
           r = GeminiTitle.Text text
           /\ title = GeminiTitle.remove_quotes (trim text)
           /\ existsb (fun c => negb (GeminiTitle.is_quote c)) (trim text)
              = true
  | Rejected message =>
      message = lit "Could not generate a title from the AI service."
      /\ (r = GeminiTitle.CallFails
          \/ exists text,
               r = GeminiTitle.Text text
               /\ existsb (fun c => negb (GeminiTitle.is_quote c)) (trim text)
                  = false)
  end.
Proof.
  destruct r as [|text]; cbn [GeminiTitle.generateTitle].
  - split; [reflexivity|now left].
  - cbv zeta.
    pose proof (remove_quotes_nonempty (trim text)) as Hne.
    destruct (truthy (GeminiTitle.remove_quotes (trim text))) eqn:E.
    + split.
      * intros Hnil. rewrite Hnil in E. discriminate.
      * split; [apply remove_quotes_clean|].
        exists text. repeat split. now symmetry.
    + split; [reflexivity|]. right. exists text. split; [reflexivity|].
      now symmetry.
Qed.

(** X16: whatever the model answers, after the title request the
    generating-title flag is down; the video title is replaced exactly
    when the service fulfils, by a title that is not empty and has no
    quote character, and then no error is shown; otherwise the title is
    the previous one and the error message is set.  The palette, the
    image, the file and the capture state are not touched. *)
Theorem title_request_outcome (r : GeminiTitle.Response)
  (p : Transport.Player) :
  let p' := Transport.handleGenerateTitle (GeminiTitle.generateTitle r) p in
  let s := Transport.session p in
  let s' := Transport.session p' in
  Transport.isGeneratingTitle p' = false
  /\ match GeminiTitle.generateTitle r with
     | Fulfilled title =>
         App.videoTitle s' = title /\ App.error s' = None
         /\ title <> []
         /\ Forall (fun c => GeminiTitle.is_quote c = false) title
     | Rejected message =>
         App.videoTitle s' = App.videoTitle s
         /\ App.error s'
            = Some (lit "Could not generate a title from the AI service.")
     end
  /\ App.colors s' = App.colors s
  /\ App.image s' = App.image s
  /\ App.file s' = App.file s
  /\ App.isGenerating s' = App.isGenerating s
  /\ App.isDownloading s' = App.isDownloading s
  /\ App.graph s' = App.graph s
  /\ App.mediaRecorderRef s' = App.mediaRecorderRef s.
Proof.
  cbv zeta.
  destruct r as [|text]; cbn [GeminiTitle.generateTitle]; cbv zeta.
  - repeat split.
  - destruct (truthy (GeminiTitle.remove_quotes (trim text))) eqn:E.
    + repeat split.
      * intros Hnil. rewrite Hnil in E. discriminate.
      * apply remove_quotes_clean.
    + repeat split.
Qed.

(** X17: a palette request never leaves the session with fewer than two
    colours: whatever the provider's promises settle to, one after the
    other, a palette of at least two colours (as the initial one) stays
    a palette of at least two colours, so there is always a background
    and at least one bar colour. *)
Theorem palette_keeps_two_colours (rs : list (Settled (list jsstring)))
  (s : App.Session) :
  (2 <= length (App.colors s))%nat ->
  let s' := fold_left (fun s r => App.handleGeneratePalette r s) rs s in
  (2 <= length (App.colors s'))%nat /\ tl (App.colors s') <> [].
Proof.
  revert s. induction rs as [|r rs IH]; intros s H; cbn [fold_left].
  - split; [exact H|].
    destruct (App.colors s) as [|a [|b l]]; simpl in *; try lia. discriminate.
  - apply IH.
    destruct r as [palette|message].
    + unfold App.handleGeneratePalette, App.handleGeneratePalette_settle.
      destruct (Nat.ltb_spec (length palette) 2) as [Hlt|Hge].
      * exact H.
      * exact Hge.
    + exact H.
Qed.

Lemma palette_keeps_two_colours_witness :
  let s := Examples.ready "song.mp3" App.R16_9 in
  let rs := [generateColorPalette (Parsed (Some [lit "#101010"]));
             generateColorPalette CallFails;
             generateColorPalette
               (Parsed (Some [lit "#01030a"; lit "#00FFD1"; lit "#FF6B00"]))] in
  let s' := fold_left (fun s r => App.handleGeneratePalette r s) rs s in
  (2 <= length (App.colors s'))%nat /\ tl (App.colors s') <> [].
Proof.
  apply (palette_keeps_two_colours
           [generateColorPalette (Parsed (Some [lit "#101010"]));
            generateColorPalette CallFails;
            generateColorPalette
              (Parsed (Some [lit "#01030a"; lit "#00FFD1"; lit "#FF6B00"]))]
           (Examples.ready "song.mp3" App.R16_9)).
  simpl. lia.
Defined.

(** X18: the palette service hands on any palette with at least one
    colour, the App asks for two: a palette of exactly one colour is
    the only answer that passes the service and is refused by the App,
    with the App's own message; an absent or empty palette and a failed
    call are refused by the service with its message; in all these
    cases the colours stay. *)
Theorem palette_refusals (r : GeminiService.Response) (s : App.Session) :
  let s' := App.handleGeneratePalette (generateColorPalette r) s in
  match r with
  | Parsed (Some palette) =>
      match length palette with
      | O =>
          App.colors s' = App.colors s
          /\ App.error s' = Some (lit "Could not generate a color palette. The AI service might be unavailable or the prompt was invalid.")
      | S O =>
          App.colors s' = App.colors s
          /\ App.error s' = Some (lit "AI did not return a valid palette. Please try a different prompt.")
      | S (S _) => App.colors s' = palette /\ App.error s' = None
      end
  | Parsed None | CallFails =>
      App.colors s' = App.colors s
      /\ App.error s' = Some (lit "Could not generate a color palette. The AI service might be unavailable or the prompt was invalid.")
  end.
Proof.
  destruct r as [|[palette|]]; cbv zeta; try (split; reflexivity).
  destruct palette as [|a [|b l]]; split; reflexivity.
Qed.

(* ================================================================== *)
(** ** Further properties: the frames the live component requests *)
(* ================================================================== *)

Lemma draw_schedule (p : VisualizerCanvas.Props) (node : AnalyserNode)
  (spectrum dataArray : list byte) (cv : Canvas)
  (s : VisualizerCanvas.Component) :
  let s' := snd (VisualizerCanvas.draw p node spectrum dataArray cv s) in
  VisualizerCanvas.pendingFrames s'
  = (if VisualizerCanvas.isPlaying p
     then VisualizerCanvas.pendingFrames s ++ [VisualizerCanvas.nextHandle s]
     else VisualizerCanvas.pendingFrames s)
  /\ VisualizerCanvas.nextHandle s'
     = (if VisualizerCanvas.isPlaying p
        then S (VisualizerCanvas.nextHandle s)
        else VisualizerCanvas.nextHandle s)
  /\ VisualizerCanvas.animationFrameRef s'
     = (if VisualizerCanvas.isPlaying p
        then Some (VisualizerCanvas.nextHandle s)
        else VisualizerCanvas.animationFrameRef s).
Proof.
  unfold VisualizerCanvas.draw.
  match goal with
  | |- context [VisualizerCanvas.render ?a ?b ?c ?d ?e ?f ?g] =>
      generalize (VisualizerCanvas.render a b c d e f g)
  end.
  intros [ctx l]. now destruct (VisualizerCanvas.isPlaying p).
Qed.

Lemma cancel_frames (s : VisualizerCanvas.Component) :
  let s' := VisualizerCanvas.cancelAnimationFrame s in
  incl (VisualizerCanvas.pendingFrames s') (VisualizerCanvas.pendingFrames s)
  /\ VisualizerCanvas.nextHandle s' = VisualizerCanvas.nextHandle s
  /\ VisualizerCanvas.animationFrameRef s' = VisualizerCanvas.animationFrameRef s
  /\ forall h, VisualizerCanvas.animationFrameRef s = Some (S h) ->
               ~ In (S h) (VisualizerCanvas.pendingFrames s').
Proof.
  unfold VisualizerCanvas.cancelAnimationFrame.
  destruct (VisualizerCanvas.animationFrameRef s) as [[|h0]|] eqn:E; cbn.
  - rewrite E. repeat split; try apply incl_refl. discriminate.
  - split; [intros k Hk; now apply filter_In in Hk|].
    split; [reflexivity|]. split; [reflexivity|].
    intros h [= <-] Hin. apply filter_In in Hin as [_ Hin].
    now rewrite Nat.eqb_refl in Hin.
  - rewrite E. repeat split; try apply incl_refl. discriminate.
Qed.

(** X19: while paused, a run of the effect requests no frame: the
    frames pending afterwards are among those pending before, and when
    the effect draws, the frame [animationFrameRef] refers to is
    cancelled.  While playing, a run that draws requests two frames,
    one at the end of [draw] and one after it, and [animationFrameRef]
    keeps the handle of the second only. *)
Theorem effect_frame_requests (p : VisualizerCanvas.Props)
  (spectrum : list byte) (s : VisualizerCanvas.Component) :
  let s' := VisualizerCanvas.useEffect p spectrum s in
  (VisualizerCanvas.isPlaying p = false ->
   incl (VisualizerCanvas.pendingFrames s') (VisualizerCanvas.pendingFrames s)
   /\ VisualizerCanvas.nextHandle s' = VisualizerCanvas.nextHandle s)
  /\
  (forall cv node,
     VisualizerCanvas.canvasRef s = Some cv -> supports2d cv = true ->
     VisualizerCanvas.analyserNode p = Some node ->
     (VisualizerCanvas.isPlaying p = false ->
      forall h, VisualizerCanvas.animationFrameRef s = Some (S h) ->
                ~ In (S h) (VisualizerCanvas.pendingFrames s'))
     /\
     (VisualizerCanvas.isPlaying p = true ->
      VisualizerCanvas.pendingFrames s'
      = VisualizerCanvas.pendingFrames s
        ++ [VisualizerCanvas.nextHandle s; S (VisualizerCanvas.nextHandle s)]
      /\ VisualizerCanvas.animationFrameRef s'
         = Some (S (VisualizerCanvas.nextHandle s)))).
Proof.
  cbv zeta. unfold VisualizerCanvas.useEffect. split.
  - intros Hp.
    destruct (VisualizerCanvas.canvasRef s) as [cv|];
      [|split; [apply incl_refl|reflexivity]].
    destruct (VisualizerCanvas.analyserNode p) as [node|];
      [|split; [apply incl_refl|reflexivity]].
    destruct (getContext2d cv); [|split; [apply incl_refl|reflexivity]].
    pose proof (draw_schedule p node spectrum
                  (Uint8Array (frequencyBinCount node)) cv s) as D.
    destruct (VisualizerCanvas.draw p node spectrum
                (Uint8Array (frequencyBinCount node)) cv s) as [d s1].
    cbv zeta in D. cbn [snd] in D. rewrite Hp in *.
    destruct D as (D1 & D2 & D3).
    destruct (cancel_frames s1) as (C1 & C2 & _).
    rewrite <- D1, <- D2. split; assumption.
  - intros cv node Hcv H2d Hnode. rewrite Hcv, Hnode.
    unfold getContext2d. rewrite H2d.
    pose proof (draw_schedule p node spectrum
                  (Uint8Array (frequencyBinCount node)) cv s) as D.
    destruct (VisualizerCanvas.draw p node spectrum
                (Uint8Array (frequencyBinCount node)) cv s) as [d s1].
    cbv zeta in D. cbn [snd] in D. destruct D as (D1 & D2 & D3).
    split; intros Hp; rewrite Hp in *.
    + intros h Hh. destruct (cancel_frames s1) as (_ & _ & _ & C4).
      apply C4. now rewrite D3.
    + unfold VisualizerCanvas.requestAnimationFrame. cbn.
      rewrite D1, D2, <- app_assoc. split; reflexivity.
Qed.

Lemma effect_frame_requests_witness :
  let p := VisualizerCanvas.mkProps (Some Examples.node) true
             Examples.initial_colors [] None in
  let s' := VisualizerCanvas.useEffect p Examples.loud Examples.component in
  VisualizerCanvas.pendingFrames s'
  = VisualizerCanvas.pendingFrames Examples.component
    ++ [VisualizerCanvas.nextHandle Examples.component;
        S (VisualizerCanvas.nextHandle Examples.component)]
  /\ VisualizerCanvas.animationFrameRef s'
     = Some (S (VisualizerCanvas.nextHandle Examples.component)).
Proof.
  apply (proj2 (effect_frame_requests
                  (VisualizerCanvas.mkProps (Some Examples.node) true
                     Examples.initial_colors [] None)
                  Examples.loud Examples.component)
           (createCanvas true) Examples.node);
    reflexivity.
Defined.

(* ================================================================== *)
(** ** Further properties: play, pause and the audio graph *)
(* ================================================================== *)

Lemma handlePlayPause_step (starts_suspended play_allowed : bool)
  (p : Transport.Player) :
  App.audioRef (Transport.session p) <> None ->
  let p' := Transport.handlePlayPause starts_suspended play_allowed p in
  let s := Transport.session p in
  let s' := Transport.session p' in
  App.graph s'
  = Some (match App.graph s with Some g => g | None => Transport.new_graph end)
  /\ Transport.contextSuspended p' = false
  /\ App.isPlaying s' = negb (App.isPlaying s)
  /\ App.audioRef s' = App.audioRef s
  /\ App.file s' = App.file s
  /\ App.isDownloading s' = App.isDownloading s
  /\ App.mediaRecorderRef s' = App.mediaRecorderRef s.
Proof.
  intros Ha.
  destruct p as [s gt sus pa].
  destruct s as [f pl dl gen col ar ti im er au gr mr ch cap dw ts].
  cbn [Transport.session App.audioRef] in Ha.
  destruct au as [au|]; [|contradiction].
  destruct gr as [g|], sus, pl, play_allowed, starts_suspended; cbn;
    repeat split.
Qed.

(** X20: with the media element mounted, pressing play/pause any
    positive number of times sets the audio graph up at most once: a
    graph that exists is never replaced, a missing one is created on
    the first press (analysis node of 1024 bins, connected to the
    speakers, no tap), and the audio context is not left suspended.
    Each press flips the playing flag, and after it a loaded file that
    is not being downloaded can be downloaded. *)
Theorem play_pause_sets_up_once (presses : list (bool * bool))
  (p : Transport.Player) :
  App.audioRef (Transport.session p) <> None ->
  presses <> [] ->
  let p' := fold_left
              (fun p e => Transport.handlePlayPause (fst e) (snd e) p)
              presses p in
  let s := Transport.session p in
  let s' := Transport.session p' in
  App.graph s'
  = Some (match App.graph s with Some g => g | None => Transport.new_graph end)
  /\ Transport.contextSuspended p' = false
  /\ App.isPlaying s'
     = (if Nat.even (length presses) then App.isPlaying s
        else negb (App.isPlaying s))
  /\ (App.file s <> None -> App.isDownloading s = false ->
      ready_to_capture s' = true).
Proof.
  intros Ha Hne. cbv zeta.
  assert (Hstep : forall l q,
            App.audioRef (Transport.session q) <> None ->
            App.graph (Transport.session q) <> None ->
            Transport.contextSuspended q = false ->
            let q' := fold_left
                        (fun p e => Transport.handlePlayPause (fst e) (snd e) p)
                        l q in
            App.graph (Transport.session q') = App.graph (Transport.session q)
            /\ Transport.contextSuspended q' = false
            /\ App.isPlaying (Transport.session q')
               = (if Nat.even (length l)
                  then App.isPlaying (Transport.session q)
                  else negb (App.isPlaying (Transport.session q)))
            /\ App.audioRef (Transport.session q')
               = App.audioRef (Transport.session q)
            /\ App.file (Transport.session q') = App.file (Transport.session q)
            /\ App.isDownloading (Transport.session q')
               = App.isDownloading (Transport.session q)).
  { induction l as [|[a b] l IH]; intros q Hq Hg Hs; cbv zeta.
    - repeat split; assumption.
    - cbn [fold_left fst snd].
      destruct (handlePlayPause_step a b q Hq)
        as (S1 & S2 & S3 & S4 & S5 & S6 & _).
      cbv zeta in S1, S2, S3, S4, S5, S6.
      destruct (App.graph (Transport.session q)) as [g|] eqn:Eg;
        [|contradiction].
      destruct (IH (Transport.handlePlayPause a b q))
        as (I1 & I2 & I3 & I4 & I5 & I6).
      + now rewrite S4.
      + now rewrite S1.
      + exact S2.
      + split; [now rewrite I1, S1|]. split; [exact I2|].
        split.
        * rewrite I3, S3. cbn [length].
          rewrite Nat.even_succ, <- Nat.negb_even.
          destruct (Nat.even (length l)); cbn;
            [reflexivity|apply negb_involutive].
        * split; [now rewrite I4|]. split; [now rewrite I5|now rewrite I6]. }
  destruct presses as [|[a b] l]; [contradiction|].
  cbn [fold_left fst snd].
  destruct (handlePlayPause_step a b p Ha)
    as (S1 & S2 & S3 & S4 & S5 & S6 & _).
  cbv zeta in S1, S2, S3, S4, S5, S6.
  destruct (Hstep l (Transport.handlePlayPause a b p))
    as (I1 & I2 & I3 & I4 & I5 & I6).
  - now rewrite S4.
  - rewrite S1. discriminate.
  - exact S2.
  - cbv zeta in I1, I2, I3, I4, I5, I6.
    split; [now rewrite I1, S1|]. split; [exact I2|].
    split.
    + rewrite I3, S3. cbn [length].
      rewrite Nat.even_succ, <- Nat.negb_even.
      destruct (Nat.even (length l)); cbn;
        [reflexivity|apply negb_involutive].
    + intros Hf Hd. unfold ready_to_capture.
      rewrite I6, S6, Hd, I5, S5, I1, S1, I4, S4.
      destruct (App.file (Transport.session p)); [|contradiction].
      destruct (App.audioRef (Transport.session p)); [reflexivity|contradiction].
Qed.

Lemma play_pause_sets_up_once_witness :
  let p := Transport.mkPlayer
             (App.set_graph None (Examples.ready "song.mp3" App.R16_9))
             false false true in
  let presses := [(true, true); (false, true); (false, false)] in
  let p' := fold_left
              (fun p e => Transport.handlePlayPause (fst e) (snd e) p)
              presses p in
  let s := Transport.session p in
  let s' := Transport.session p' in
  App.graph s'
  = Some (match App.graph s with Some g => g | None => Transport.new_graph end)
  /\ Transport.contextSuspended p' = false
  /\ App.isPlaying s'
     = (if Nat.even (length presses) then App.isPlaying s
        else negb (App.isPlaying s))
  /\ (App.file s <> None -> App.isDownloading s = false ->
      ready_to_capture s' = true).
Proof.
  apply (play_pause_sets_up_once
           [(true, true); (false, true); (false, false)]
           (Transport.mkPlayer
              (App.set_graph None (Examples.ready "song.mp3" App.R16_9))
              false false true)).
  - discriminate.
  - discriminate.
Defined.

(* ================================================================== *)
(** ** Further properties: starting again *)
(* ================================================================== *)

Lemma recording_of_ready_again f g dl data (b : bool) (s : App.Session) :
  recording_of f g dl data s ->
  ready_to_capture (App.drain (App.audio_ended s)) = true
  /\ ready_to_capture (App.drain (App.encoder_error b s)) = true.
Proof.
  intros ((r & Hr & Hs & Hd) & (c & Hc & Hf & Ht & He)
          & Hg & Hch & Hdl & Hk & Hi & Hfile & (ael & Hael)).
  destruct s as [f0 pl dl0 gen col ar ti im er au gr mr ch cap dw ts].
  simpl in *. subst.
  destruct r as [mt st gth]. simpl in *. subst st.
  destruct c as [cf cc ct ci cw chh cv bl tap el fr]. simpl in *. subst.
  destruct b, gth; split; reflexivity.
Qed.

(** X21: the downloading flag never sticks.  Whether playback cannot
    start, the media reaches its end or the encoder fails, and whatever
    display refreshes and encoder data came before, the session ends
    with the guard of [handleDownload] open again: not downloading,
    with its file, its audio graph and its media element. *)
Theorem download_can_start_again (vp9 ua_inactivates : bool)
  (spectrum : list byte) (es : list CaptureEvent) (s : App.Session) :
  ready_to_capture s = true -> App.tasks s = [] ->
  let started := App.handleDownload true vp9 s in
  let running := capture_run es (App.play_then spectrum started) in
  ready_to_capture (App.play_catch started) = true
  /\ ready_to_capture (App.drain (App.audio_ended running)) = true
  /\ ready_to_capture
       (App.drain (App.encoder_error ua_inactivates running)) = true.
Proof.
  intros H Ht started running. split.
  - unfold started. unfold ready_to_capture in H.
    destruct s as [f pl dl gen col ar ti im er au gr mr ch cap dw ts].
    cbn [App.isDownloading App.file App.graph App.audioRef] in H.
    destruct dl; [discriminate|].
    destruct f as [f|]; [|discriminate].
    destruct gr as [g|]; [|discriminate].
    destruct au as [au|]; [|discriminate].
    destruct ar; vm_compute; reflexivity.
  - assert (Hfg : exists f g, App.file s = Some f /\ App.graph s = Some g).
    { unfold ready_to_capture in H.
      destruct (App.isDownloading s); [discriminate|].
      destruct (App.file s) as [f|]; [|discriminate].
      destruct (App.graph s) as [g|]; [|discriminate].
      now exists f, g. }
    destruct Hfg as (f & g & Hf & Hg).
    pose proof (recording_of_run f g (App.downloads s) es [] _
                  (recording_of_start vp9 spectrum f g s H Ht Hf Hg)) as R.
    exact (recording_of_ready_again f g _ _ ua_inactivates _ R).
Qed.

Lemma download_can_start_again_witness :
  let s := Examples.ready "song.mp3" App.R9_16 in
  let started := App.handleDownload true true s in
  let running := capture_run [Frame Examples.loud; Gather [x1a]]
                   (App.play_then Examples.silent started) in
  ready_to_capture (App.play_catch started) = true
  /\ ready_to_capture (App.drain (App.audio_ended running)) = true
  /\ ready_to_capture (App.drain (App.encoder_error false running)) = true.
Proof.
  apply (download_can_start_again true false Examples.silent
           [Frame Examples.loud; Gather [x1a]]
           (Examples.ready "song.mp3" App.R9_16)); reflexivity.
Defined.
(* ================================================================== *)
(** ** Binary64 rounding *)
(* ================================================================== *)

Lemma pow2_pos (e : Z) : 0 < Double.pow2 e.
Proof. apply Qpower_0_lt. reflexivity. Qed.

Lemma pow2_plus (a b : Z) : Double.pow2 (a + b) == Double.pow2 a * Double.pow2 b.
Proof. apply Qpower_plus. discriminate. Qed.

Lemma pow2_le (a b : Z) : (a <= b)%Z -> Double.pow2 a <= Double.pow2 b.
Proof. intros H. apply Qpower_le_compat_l; [exact H|discriminate]. Qed.

Lemma pow2_lt (a b : Z) : (a < b)%Z -> Double.pow2 a < Double.pow2 b.
Proof. intros H. apply Qpower_lt_compat_l; [exact H|reflexivity]. Qed.

Lemma pow2_Z (a : Z) : (0 <= a)%Z -> Double.pow2 a == inject_Z (2 ^ a).
Proof. intros H. unfold Double.pow2. now rewrite Zpower_Qpower. Qed.

Lemma ilog2_spec (q : Q) :
  0 < q -> Double.pow2 (Double.ilog2 q) <= q /\ q < Double.pow2 (Double.ilog2 q + 1).
Proof.
  intros Hq.
  assert (Hn : (0 < Qnum q)%Z).
  { unfold Qlt in Hq. simpl in Hq. lia. }
  set (a := Z.log2 (Qnum q)). set (b := Z.log2 (Zpos (Qden q))).
  destruct (Z.log2_spec (Qnum q) Hn) as [Ha1 Ha2]. fold a in Ha1, Ha2.
  destruct (Z.log2_spec (Zpos (Qden q)) ltac:(lia)) as [Hb1 Hb2].
  fold b in Hb1, Hb2.
  assert (Ha0 : (0 <= a)%Z) by apply Z.log2_nonneg.
  assert (Hb0 : (0 <= b)%Z) by apply Z.log2_nonneg.
  assert (Hqd : q * inject_Z (Zpos (Qden q)) == inject_Z (Qnum q)).
  { unfold Qeq, Qmult, inject_Z. simpl. lia. }
  set (n := inject_Z (Qnum q)) in *. set (d := inject_Z (Zpos (Qden q))) in *.
  assert (Hn1 : Double.pow2 a <= n).
  { rewrite pow2_Z by lia. unfold n. rewrite <- Zle_Qle. exact Ha1. }
  assert (Hn2 : n < Double.pow2 (a + 1)).
  { rewrite pow2_Z by lia. unfold n. rewrite <- Zlt_Qlt.
    now rewrite <- Z.add_1_r in Ha2. }
  assert (Hd1 : Double.pow2 b <= d).
  { rewrite pow2_Z by lia. unfold d. rewrite <- Zle_Qle. exact Hb1. }
  assert (Hd2 : d < Double.pow2 (b + 1)).
  { rewrite pow2_Z by lia. unfold d. rewrite <- Zlt_Qlt.
    now rewrite <- Z.add_1_r in Hb2. }
  pose proof (pow2_pos b) as Pb. pose proof (pow2_pos (b + 1)) as Pb1.
  (* q < Double.pow2 (a - b + 1) *)
  assert (Hup : q < Double.pow2 (a - b + 1)).
  { apply Qmult_lt_r with (Double.pow2 b); [exact Pb|].
    rewrite <- pow2_plus. replace (a - b + 1 + b)%Z with (a + 1)%Z by lia.
    apply Qle_lt_trans with n; [|exact Hn2].
    rewrite <- Hqd. apply Qmult_le_l; [exact Hq|exact Hd1]. }
  assert (Hlo : Double.pow2 (a - b - 1) < q).
  { apply Qmult_lt_r with (Double.pow2 (b + 1)); [exact Pb1|].
    rewrite <- pow2_plus. replace (a - b - 1 + (b + 1))%Z with a by lia.
    apply Qle_lt_trans with n; [exact Hn1|].
    rewrite <- Hqd. apply Qmult_lt_l; [exact Hq|exact Hd2]. }
  unfold Double.ilog2. fold a b.
  destruct (Qle_bool (Double.pow2 (a - b)) q) eqn:E.
  - apply Qle_bool_iff in E. split; assumption.
  - split; [apply Qlt_le_weak; exact Hlo|].
    replace (a - b - 1 + 1)%Z with (a - b)%Z by lia.
    apply Qnot_le_lt. intros H. apply Qle_bool_iff in H. congruence.
Qed.

Lemma ilog2_mono (x y : Q) : 0 < x -> x <= y -> (Double.ilog2 x <= Double.ilog2 y)%Z.
Proof.
  intros Hx Hxy.
  assert (Hy : 0 < y) by (apply Qlt_le_trans with x; assumption).
  destruct (ilog2_spec x Hx) as [X1 _].
  destruct (ilog2_spec y Hy) as [_ Y2].
  destruct (Z.le_gt_cases (Double.ilog2 x) (Double.ilog2 y)) as [H|H]; [exact H|].
  exfalso.
  assert (Double.pow2 (Double.ilog2 y + 1) <= Double.pow2 (Double.ilog2 x)) by (apply pow2_le; lia).
  lra.
Qed.

Lemma expo_mono (x y : Q) : 0 < x -> x <= y -> (Double.expo x <= Double.expo y)%Z.
Proof.
  intros Hx Hxy. pose proof (ilog2_mono x y Hx Hxy). unfold Double.expo. lia.
Qed.

Lemma scaled_lt (q : Q) : 0 < q -> q / Double.pow2 (Double.expo q) < Double.pow2 53.
Proof.
  intros Hq. destruct (ilog2_spec q Hq) as [_ H2].
  pose proof (pow2_pos (Double.expo q)) as Pe.
  apply Qlt_shift_div_r; [exact Pe|].
  rewrite <- pow2_plus.
  apply Qlt_le_trans with (Double.pow2 (Double.ilog2 q + 1)); [exact H2|].
  apply pow2_le. unfold Double.expo. lia.
Qed.

Lemma scaled_ge (q : Q) :
  0 < q -> (-1074 < Double.expo q)%Z -> Double.pow2 52 <= q / Double.pow2 (Double.expo q).
Proof.
  intros Hq He. destruct (ilog2_spec q Hq) as [H1 _].
  pose proof (pow2_pos (Double.expo q)) as Pe.
  apply Qle_shift_div_l; [exact Pe|].
  rewrite <- pow2_plus.
  apply Qle_trans with (Double.pow2 (Double.ilog2 q)); [|exact H1].
  apply pow2_le. unfold Double.expo in *. lia.
Qed.

Lemma rne_floor (x : Q) : (Qfloor x <= Double.rne x <= Qfloor x + 1)%Z.
Proof.
  unfold Double.rne. destruct (Qcompare _ _); [destruct (Z.even _)| |]; lia.
Qed.

Lemma rne_int (n : Z) : Double.rne (inject_Z n) = n.
Proof.
  unfold Double.rne. rewrite Qfloor_Z.
  destruct (Qcompare_spec (inject_Z n - inject_Z n) (1 # 2)) as [H|H|H];
    [exfalso; lra|reflexivity|exfalso; lra].
Qed.

Lemma rne_mono (a b : Q) : a <= b -> (Double.rne a <= Double.rne b)%Z.
Proof.
  intros Hab.
  pose proof (Qfloor_resp_le a b Hab) as Hf.
  pose proof (rne_floor a) as Ra. pose proof (rne_floor b) as Rb.
  destruct (Z.eq_dec (Qfloor a) (Qfloor b)) as [E|NE]; [|lia].
  unfold Double.rne. rewrite E.
  destruct (Qcompare_spec (a - inject_Z (Qfloor b)) (1 # 2)) as [Ha|Ha|Ha];
    destruct (Qcompare_spec (b - inject_Z (Qfloor b)) (1 # 2)) as [Hb|Hb|Hb];
    try (destruct (Z.even (Qfloor b))); try lia; exfalso; lra.
Qed.

Lemma fl_pos_nonneg (q : Q) : 0 < q -> 0 <= Double.fl_pos q.
Proof.
  intros Hq. unfold Double.fl_pos. cbv zeta.
  pose proof (pow2_pos (Double.expo q)) as Pe.
  apply Qmult_le_0_compat; [|lra].
  assert (0 <= q / Double.pow2 (Double.expo q)).
  { apply Qle_shift_div_l; [exact Pe|lra]. }
  pose proof (rne_mono 0 _ H) as R. change 0 with (inject_Z 0) in R.
  rewrite rne_int in R. change 0 with (inject_Z 0). now rewrite <- Zle_Qle.
Qed.

Lemma fl_pos_mono (x y : Q) : 0 < x -> x <= y -> Double.fl_pos x <= Double.fl_pos y.
Proof.
  intros Hx Hxy.
  assert (Hy : 0 < y) by lra.
  pose proof (expo_mono x y Hx Hxy) as He.
  pose proof (pow2_pos (Double.expo x)) as Px. pose proof (pow2_pos (Double.expo y)) as Py.
  unfold Double.fl_pos. cbv zeta.
  destruct (Z.eq_dec (Double.expo x) (Double.expo y)) as [E|NE].
  - rewrite E. apply Qmult_le_compat_r; [|lra].
    rewrite <- Zle_Qle. apply rne_mono.
    apply Qmult_le_compat_r; [exact Hxy|].
    apply Qlt_le_weak, Qinv_lt_0_compat, Py.
  - assert (Hlt : (Double.expo x < Double.expo y)%Z) by lia.
    apply Qle_trans with (Double.pow2 53 * Double.pow2 (Double.expo x)).
    + apply Qmult_le_compat_r; [|lra].
      pose proof (scaled_lt x Hx) as S.
      assert (R : (Double.rne (x / Double.pow2 (Double.expo x)) <= 2 ^ 53)%Z).
      { rewrite <- (rne_int (2 ^ 53)). apply rne_mono.
        rewrite <- (pow2_Z 53) by lia. lra. }
      rewrite (pow2_Z 53) by lia. now rewrite <- Zle_Qle.
    + apply Qle_trans with (Double.pow2 52 * Double.pow2 (Double.expo y)).
      * rewrite <- !pow2_plus. apply pow2_le. lia.
      * apply Qmult_le_compat_r; [|lra].
        assert (Hn : (-1074 < Double.expo y)%Z) by (unfold Double.expo in *; lia).
        pose proof (scaled_ge y Hy Hn) as S.
        assert (R : (2 ^ 52 <= Double.rne (y / Double.pow2 (Double.expo y)))%Z).
        { rewrite <- (rne_int (2 ^ 52)) at 1. apply rne_mono.
          rewrite <- (pow2_Z 52) by lia. exact S. }
        rewrite (pow2_Z 52) by lia. now rewrite <- Zle_Qle.
Qed.

Lemma fl_0 : Double.fl 0 == 0.
Proof. reflexivity. Qed.

Lemma fl_nonneg (q : Q) : 0 <= q -> 0 <= Double.fl q.
Proof.
  intros Hq. unfold Double.fl.
  destruct (Qcompare_spec q 0) as [H|H|H]; [lra|lra|].
  now apply fl_pos_nonneg.
Qed.

Lemma fl_nonpos (q : Q) : q <= 0 -> Double.fl q <= 0.
Proof.
  intros Hq. unfold Double.fl.
  destruct (Qcompare_spec q 0) as [H|H|H]; [lra| |lra].
  assert (0 <= Double.fl_pos (- q)) by (apply fl_pos_nonneg; lra). lra.
Qed.

Lemma fl_mono (x y : Q) : x <= y -> Double.fl x <= Double.fl y.
Proof.
  intros Hxy.
  destruct (Qlt_le_dec 0 x) as [Hx|Hx].
  - unfold Double.fl.
    destruct (Qcompare_spec x 0) as [H|H|H]; [lra|lra|].
    destruct (Qcompare_spec y 0) as [H'|H'|H']; [lra|lra|].
    now apply fl_pos_mono.
  - destruct (Qlt_le_dec y 0) as [Hy|Hy].
    + unfold Double.fl.
      destruct (Qcompare_spec x 0) as [H|H|H]; [lra| |lra].
      destruct (Qcompare_spec y 0) as [H'|H'|H']; [lra| |lra].
      assert (Double.fl_pos (- y) <= Double.fl_pos (- x)) by (apply fl_pos_mono; lra).
      lra.
    + apply Qle_trans with 0; [now apply fl_nonpos|now apply fl_nonneg].
Qed.

Lemma ilog2_le (q : Q) (l : Z) : 0 < q -> q < Double.pow2 (l + 1) -> (Double.ilog2 q <= l)%Z.
Proof.
  intros Hq H. destruct (ilog2_spec q Hq) as [A _].
  destruct (Z_lt_le_dec l (Double.ilog2 q)) as [Hlt|Hle]; [|exact Hle].
  exfalso.
  assert (Double.pow2 (l + 1) <= Double.pow2 (Double.ilog2 q)) by (apply pow2_le; lia). lra.
Qed.

Lemma rne_proper (a b : Q) : a == b -> Double.rne a = Double.rne b.
Proof.
  intros H.
  assert (H1 : a <= b) by (rewrite H; apply Qle_refl).
  assert (H2 : b <= a) by (rewrite H; apply Qle_refl).
  pose proof (rne_mono a b H1). pose proof (rne_mono b a H2). lia.
Qed.

Lemma rne_error (y : Q) :
  inject_Z (Double.rne y) - y <= 1 # 2 /\ y - inject_Z (Double.rne y) <= 1 # 2.
Proof.
  unfold Double.rne. pose proof (Qfloor_le y) as H0. pose proof (Qlt_floor y) as H1.
  rewrite inject_Z_plus in H1. change (inject_Z 1) with 1 in H1.
  destruct (Qcompare_spec (y - inject_Z (Qfloor y)) (1 # 2)) as [H|H|H];
    [destruct (Z.even _)| |];
    rewrite ?inject_Z_plus; change (inject_Z 1) with 1; split; lra.
Qed.

Lemma expo_bound (q : Q) :
  0 < q -> Double.pow2 (Double.expo q) <= q * Double.pow2 (-52) + Double.pow2 (-1074).
Proof.
  intros Hq. unfold Double.expo. destruct (ilog2_spec q Hq) as [A _].
  pose proof (pow2_pos (-52)) as P1. pose proof (pow2_pos (-1074)) as P2.
  destruct (Z.max_spec (Double.ilog2 q - 52) (-1074)) as [[_ ->]|[_ ->]].
  - assert (0 <= q * Double.pow2 (-52)) by (apply Qmult_le_0_compat; lra). lra.
  - replace (Double.ilog2 q - 52)%Z with (Double.ilog2 q + -52)%Z by lia.
    rewrite pow2_plus.
    assert (Double.pow2 (Double.ilog2 q) * Double.pow2 (-52) <= q * Double.pow2 (-52))
      by (apply Qmult_le_compat_r; lra).
    lra.
Qed.

Lemma fl_pos_error (q : Q) :
  0 < q ->
  Double.fl_pos q - q <= Double.pow2 (Double.expo q) * (1 # 2)
  /\ q - Double.fl_pos q <= Double.pow2 (Double.expo q) * (1 # 2).
Proof.
  intros Hq. unfold Double.fl_pos. cbv zeta.
  pose proof (pow2_pos (Double.expo q)) as Pe.
  destruct (rne_error (q / Double.pow2 (Double.expo q))) as [A B].
  assert (E : q / Double.pow2 (Double.expo q) * Double.pow2 (Double.expo q) == q) by (field; lra).
  apply Qmult_le_compat_r with (z := Double.pow2 (Double.expo q)) in A; [|lra].
  apply Qmult_le_compat_r with (z := Double.pow2 (Double.expo q)) in B; [|lra].
  split; lra.
Qed.

Lemma rne_scaled_range (q : Q) :
  0 < q -> (0 <= Double.rne (q / Double.pow2 (Double.expo q)) <= 2 ^ 53)%Z.
Proof.
  intros Hq. pose proof (pow2_pos (Double.expo q)) as Pe. split.
  - assert (H : 0 <= q / Double.pow2 (Double.expo q)).
    { apply Qle_shift_div_l; [exact Pe|lra]. }
    pose proof (rne_mono 0 _ H) as R. change 0 with (inject_Z 0) in R.
    now rewrite rne_int in R.
  - pose proof (scaled_lt q Hq) as S.
    rewrite <- (rne_int (2 ^ 53)). apply rne_mono.
    rewrite <- (pow2_Z 53) by lia. lra.
Qed.

Lemma fl_pos_proper (x y : Q) : 0 < x -> x == y -> Double.fl_pos x == Double.fl_pos y.
Proof.
  intros Hx H. apply Qle_antisym; apply fl_pos_mono; lra.
Qed.

Lemma inject_Z_pos (n : Z) : (0 < n)%Z -> 0 < inject_Z n.
Proof. intros H. change 0 with (inject_Z 0). now rewrite <- Zlt_Qlt. Qed.

Lemma scale_div (a b c n : Q) : 0 < b -> a == c * b -> n * a / b == n * c.
Proof. intros Hb H. rewrite H. field. lra. Qed.

Lemma scale_mul (a b c n : Q) : a == c * b -> n * c * b == n * a.
Proof. intros H. rewrite H. ring. Qed.

Lemma fl_pos_repr_lt (N e : Z) :
  (0 < N < 2 ^ 53)%Z -> (-1074 <= e)%Z ->
  Double.fl_pos (inject_Z N * Double.pow2 e) == inject_Z N * Double.pow2 e.
Proof.
  intros HN He. set (r := inject_Z N * Double.pow2 e).
  pose proof (pow2_pos e) as Pe.
  assert (Hr : 0 < r).
  { apply Qmult_lt_0_compat; [apply inject_Z_pos; lia|exact Pe]. }
  assert (He' : (Double.expo r <= e)%Z).
  { assert (Double.ilog2 r <= 52 + e)%Z.
    { apply ilog2_le; [exact Hr|].
      replace (52 + e + 1)%Z with (53 + e)%Z by lia.
      rewrite pow2_plus. unfold r.
      apply Qmult_lt_compat_r; [exact Pe|].
      rewrite (pow2_Z 53) by lia. rewrite <- Zlt_Qlt. lia. }
    unfold Double.expo. lia. }
  unfold Double.fl_pos. cbv zeta.
  pose proof (pow2_pos (Double.expo r)) as Pr.
  assert (Hp : Double.pow2 e == Double.pow2 (e - Double.expo r) * Double.pow2 (Double.expo r)).
  { rewrite <- pow2_plus. replace (e - Double.expo r + Double.expo r)%Z with e by lia.
    reflexivity. }
  assert (Hs : r / Double.pow2 (Double.expo r) == inject_Z (N * 2 ^ (e - Double.expo r))).
  { rewrite inject_Z_mult, <- (pow2_Z (e - Double.expo r)) by lia.
    apply (scale_div (Double.pow2 e)); assumption. }
  rewrite (rne_proper _ _ Hs), rne_int.
  rewrite inject_Z_mult, <- (pow2_Z (e - Double.expo r)) by lia.
  apply (scale_mul (Double.pow2 e)). exact Hp.
Qed.

Lemma fl_pos_repr (N e : Z) :
  (0 < N <= 2 ^ 53)%Z -> (-1074 <= e)%Z ->
  Double.fl_pos (inject_Z N * Double.pow2 e) == inject_Z N * Double.pow2 e.
Proof.
  intros HN He.
  destruct (Z.eq_dec N (2 ^ 53)) as [->|NE].
  - assert (E : inject_Z (2 ^ 53) * Double.pow2 e == inject_Z (2 ^ 52) * Double.pow2 (e + 1)).
    { rewrite <- (pow2_Z 53), <- (pow2_Z 52) by lia.
      rewrite <- !pow2_plus. replace (53 + e)%Z with (52 + (e + 1))%Z by lia.
      reflexivity. }
    assert (H0 : 0 < inject_Z (2 ^ 53) * Double.pow2 e).
    { apply Qmult_lt_0_compat; [reflexivity|apply pow2_pos]. }
    rewrite (fl_pos_proper _ _ H0 E).
    rewrite E. apply fl_pos_repr_lt; [split; reflexivity|lia].
  - apply fl_pos_repr_lt; lia.
Qed.

Lemma fl_pos_idem (q : Q) : 0 < q -> 0 < Double.fl_pos q -> Double.fl_pos (Double.fl_pos q) == Double.fl_pos q.
Proof.
  intros Hq Hp. unfold Double.fl_pos at 2 3. cbv zeta.
  pose proof (rne_scaled_range q Hq) as [R0 R1].
  apply fl_pos_repr; [|unfold Double.expo; lia].
  split; [|exact R1].
  destruct (Z.eq_dec (Double.rne (q / Double.pow2 (Double.expo q))) 0) as [E|NE]; [|lia].
  exfalso. unfold Double.fl_pos in Hp. cbv zeta in Hp. rewrite E in Hp.
  change (inject_Z 0) with 0 in Hp. lra.
Qed.

Lemma fl_eq0 (q : Q) : q == 0 -> Double.fl q = 0.
Proof.
  intros H. unfold Double.fl. rewrite Qeq_alt in H. now rewrite H.
Qed.

Lemma fl_proper (x y : Q) : x == y -> Double.fl x == Double.fl y.
Proof. intros H. apply Qle_antisym; apply fl_mono; lra. Qed.

Lemma fl_opp (q : Q) : Double.fl (- q) == - Double.fl q.
Proof.
  unfold Double.fl.
  destruct (Qcompare_spec q 0) as [H|H|H];
    destruct (Qcompare_spec (- q) 0) as [H'|H'|H']; try (exfalso; lra).
  - reflexivity.
  - ring.
  - rewrite (fl_pos_proper (- - q) q); [reflexivity|lra|ring].
Qed.

Lemma fl_idem (q : Q) : Double.fl (Double.fl q) == Double.fl q.
Proof.
  assert (P : forall x, 0 < x -> Double.fl (Double.fl_pos x) == Double.fl_pos x).
  { intros x Hx. pose proof (fl_pos_nonneg x Hx) as H0.
    unfold Double.fl. destruct (Qcompare_spec (Double.fl_pos x) 0) as [H|H|H].
    - now rewrite H.
    - lra.
    - now apply fl_pos_idem. }
  unfold Double.fl at 2 3.
  destruct (Qcompare_spec q 0) as [H|H|H].
  - reflexivity.
  - rewrite fl_opp. rewrite P by lra. reflexivity.
  - now apply P.
Qed.

Lemma fl_dyadic (n k : Z) :
  (0 <= n < 2 ^ 53)%Z -> (k <= 1074)%Z ->
  Double.fl (inject_Z n * Double.pow2 (- k)) == inject_Z n * Double.pow2 (- k).
Proof.
  intros Hn Hk. destruct (Z.eq_dec n 0) as [->|NE].
  - rewrite fl_eq0; [|ring]. ring.
  - assert (0 < inject_Z n * Double.pow2 (- k)).
    { apply Qmult_lt_0_compat; [apply inject_Z_pos; lia|apply pow2_pos]. }
    unfold Double.fl. destruct (Qcompare_spec (inject_Z n * Double.pow2 (- k)) 0) as [E|E|E];
      [lra|lra|].
    apply fl_pos_repr_lt; lia.
Qed.

Lemma fl_exact (x : Q) (n k : Z) :
  x == inject_Z n * Double.pow2 (- k) ->
  (0 <= n < 2 ^ 53)%Z -> (k <= 1074)%Z ->
  Double.fl x == x.
Proof.
  intros E Hn Hk.
  rewrite (fl_proper _ _ E), E. now apply fl_dyadic.
Qed.

Lemma fl_1 : Double.fl 1 == 1.
Proof.
  apply (fl_exact 1 1 0);
    [reflexivity|split; [discriminate|reflexivity]|discriminate].
Qed.

Lemma fl_half : Double.fl 0.5 == 0.5.
Proof.
  apply (fl_exact 0.5 1 1);
    [reflexivity|split; [discriminate|reflexivity]|discriminate].
Qed.

Lemma MAX_VALUE_fl : Double.fl Double.MAX_VALUE == Double.MAX_VALUE.
Proof.
  apply (fl_dyadic (2 ^ 53 - 1) (-971)); [split|]; [discriminate|reflexivity|].
  discriminate.
Qed.

Lemma is_double_spec (q : Q) :
  Double.is_double q = true <->
  Double.fl q == q /\ - Double.MAX_VALUE <= q /\ q <= Double.MAX_VALUE.
Proof.
  unfold Double.is_double.
  rewrite !andb_true_iff, Qeq_bool_iff, !Qle_bool_iff. tauto.
Qed.

Lemma fl_le_double (x r : Q) : Double.fl r == r -> x <= r -> Double.fl x <= r.
Proof. intros Hr H. rewrite <- Hr. now apply fl_mono. Qed.

Lemma fl_ge_double (x r : Q) : Double.fl r == r -> r <= x -> r <= Double.fl x.
Proof. intros Hr H. rewrite <- Hr. now apply fl_mono. Qed.

(** Rounding a value that lies between two binary64 values gives a
    binary64 value between them. *)
Lemma is_double_fl (q lo hi : Q) :
  Double.is_double lo = true -> Double.is_double hi = true ->
  lo <= q -> q <= hi ->
  Double.is_double (Double.fl q) = true
  /\ lo <= Double.fl q /\ Double.fl q <= hi.
Proof.
  intros Hlo Hhi H0 H1.
  apply is_double_spec in Hlo. destruct Hlo as (L1 & L2 & L3).
  apply is_double_spec in Hhi. destruct Hhi as (U1 & U2 & U3).
  pose proof (fl_ge_double q lo L1 H0) as A.
  pose proof (fl_le_double q hi U1 H1) as B.
  split; [|split; assumption].
  apply is_double_spec. split; [apply fl_idem|]. split; lra.
Qed.

Lemma is_double_0 : Double.is_double 0 = true.
Proof. reflexivity. Qed.

Lemma is_double_opp (q : Q) :
  Double.is_double q = true -> Double.is_double (- q) = true.
Proof.
  intros H. apply is_double_spec in H. destruct H as (H1 & H2 & H3).
  apply is_double_spec. split; [|split; lra].
  rewrite fl_opp, H1. reflexivity.
Qed.

Lemma pow2_m52 : Double.pow2 (-52) == 1 # 4503599627370496.
Proof. reflexivity. Qed.

Lemma pow2_m1074 : Double.pow2 (-1074) == 2 * Double.pow2 (-1075).
Proof.
  change (-1074)%Z with (1 + -1075)%Z. rewrite pow2_plus. reflexivity.
Qed.

(** The relative error of a rounding: half a unit in the last place. *)
Lemma fl_error (x : Q) :
  0 <= x ->
  Double.fl x <= x + x * (1 # 9007199254740992) + Double.pow2 (-1075)
  /\ x - x * (1 # 9007199254740992) - Double.pow2 (-1075) <= Double.fl x.
Proof.
  intros Hx. pose proof (pow2_pos (-1075)) as T.
  pose proof pow2_m1074 as T2.
  unfold Double.fl.
  destruct (Qcompare_spec x 0) as [H|H|H]; [|lra|].
  - split; lra.
  - destruct (fl_pos_error x H) as [A B].
    pose proof (expo_bound x H) as E.
    pose proof pow2_m52 as P. 
    assert (E' : Double.pow2 (Double.expo x)
                 <= x * (1 # 4503599627370496) + Double.pow2 (-1074)).
    { rewrite <- P. exact E. }
    split; lra.
Qed.

Lemma fl_025 :
  Double.fl 0.025 == 3602879701896397 # 144115188075855872.
Proof. vm_compute. reflexivity. Qed.

(** The decay step [maxBarLength * 0.025] as the engine computes it. *)
Lemma decay_step (m : Q) :
  0 <= m -> Double.fl m == m ->
  let d := Double.mul m (Double.fl 0.025) in
  0 <= d /\ d <= m
  /\ d <= m * (3602879701896397 # 144115188075855872)
          * (9007199254740993 # 9007199254740992)
          + Double.pow2 (-1075).
Proof.
  intros Hm Fm d. pose proof fl_025 as C.
  assert (Ex : m * Double.fl 0.025
               == m * (3602879701896397 # 144115188075855872)).
  { rewrite C. reflexivity. }
  assert (Hx : 0 <= m * Double.fl 0.025) by lra.
  unfold d, Double.mul.
  split; [now apply fl_nonneg|]. split.
  - apply fl_le_double; [exact Fm|lra].
  - destruct (fl_error _ Hx) as [A _]. lra.
Qed.

Lemma targetLength_rounded (a : list byte) (i : Z) (s : byte) (m : Q) :
  read_u8 a i = Some (Num (QN (Byte.to_N s))) ->
  Double.targetLength a i m
  = Num (Double.mul (Double.div (QN (Byte.to_N s)) 255) m).
Proof.
  intros H. unfold Double.targetLength. rewrite H. reflexivity.
Qed.

Lemma target_rounded_range (s : byte) (m : Q) :
  0 <= m -> Double.is_double m = true ->
  let t := Double.mul (Double.div (QN (Byte.to_N s)) 255) m in
  Double.is_double t = true /\ 0 <= t /\ t <= m.
Proof.
  intros Hm Dm t.
  destruct (byte_fraction s) as [H0 H1].
  assert (A0 : 0 <= Double.div (QN (Byte.to_N s)) 255)
    by (now apply fl_nonneg).
  assert (A1 : Double.div (QN (Byte.to_N s)) 255 <= 1)
    by (apply fl_le_double; [exact fl_1|exact H1]).
  unfold t, Double.mul.
  apply (is_double_fl _ 0 m is_double_0 Dm).
  - now apply Qmult_le_0_compat.
  - rewrite <- (Qmult_1_l m) at 2. now apply Qmult_le_compat_r.
Qed.

(** The attack/decay rule on binary64 values. *)
Lemma rule_rounded (t prev m : Q) :
  Double.is_double t = true -> Double.is_double prev = true ->
  Double.is_double m = true ->
  0 <= t -> t <= m -> 0 <= prev -> prev <= m ->
  AdvanceRounded (Num t) prev m (Double.newLength (Num t) prev m).
Proof.
  intros Dt Dp Dm Ht0 Htm Hp0 Hpm.
  unfold Double.newLength, num_ge, Math_max.
  destruct (Qle_bool prev t) eqn:E.
  - apply Qle_bool_iff in E.
    exists t, t.
    split; [reflexivity|]. split; [reflexivity|].
    split; [exact Dt|]. split; [exact Ht0|]. split; [exact Htm|].
    split; [reflexivity|].
    intros Hlt. exfalso. exact (Qlt_not_le _ _ Hlt E).
  - assert (Hlt : t < prev).
    { apply Qnot_le_lt. intros H. apply Qle_bool_iff in H. congruence. }
    assert (Hm : 0 <= m) by lra.
    assert (Fm : Double.fl m == m) by (apply is_double_spec in Dm; tauto).
    destruct (decay_step m Hm Fm) as (Hd0 & Hdm & Hd).
    cbv zeta in Hd0, Hdm, Hd.
    set (d := Double.mul m (Double.fl 0.025)) in *.
    destruct (is_double_fl (prev - d) (- m) prev
                (is_double_opp m Dm) Dp) as (Dx & Hx0 & Hx1); [lra|lra|].
    fold (Double.sub prev d) in Dx, Hx0, Hx1.
    set (x := Double.sub prev d) in *.
    exists t, (Qmax t x).
    split; [reflexivity|]. split; [reflexivity|].
    pose proof (Q.le_max_l t x) as Ml.
    pose proof (Q.le_max_r t x) as Mr.
    assert (Mu : Qmax t x <= prev) by (apply Q.max_lub; lra).
    split.
    { destruct (Q.max_spec t x) as [[_ Hmax]|[_ Hmax]].
      - apply is_double_spec in Dx. apply is_double_spec.
        rewrite (fl_proper _ _ Hmax), Hmax. exact Dx.
      - apply is_double_spec in Dt. apply is_double_spec.
        rewrite (fl_proper _ _ Hmax), Hmax. exact Dt. }
    split; [lra|]. split; [lra|].
    split; [intros Hle; exfalso; lra|].
    intros _. split; [reflexivity|]. split; [exact Ml|]. split; [exact Mu|].
    pose proof (pow2_pos (-1075)) as T. pose proof pow2_m1074 as T2.
    rewrite pow2_m52.
    destruct (Qlt_le_dec 0 (prev - d)) as [Hpos|Hneg].
    + assert (Hx : 0 <= prev - d) by lra.
      destruct (fl_error _ Hx) as [_ B].
      fold (Double.sub prev d) in B. fold x in B.
      lra.
    + lra.
Qed.

(** C2, as the engine computes: for binary64 values previous in
    [0, maxLength] and every sample byte, the rule of the two loops
    returns a binary64 length in [0, maxLength]; on attack it is the
    target; on decay it is the larger of the target and of
    previous - maxLength * 0.025 with the product and the difference
    rounded: not below the target, not above the previous length, and
    below the previous length by at most
    maxLength * 0.025 + maxLength * 2^-52 + 2^-1074. *)
Theorem advance_bounds_rounded (dataArray : list byte) (idx : Z)
  (sample : byte) (previous maxLength : Q) :
  Double.is_double previous = true -> Double.is_double maxLength = true ->
  0 <= previous -> previous <= maxLength ->
  read_u8 dataArray idx = Some (Num (QN (Byte.to_N sample))) ->
  AdvanceRounded (Double.targetLength dataArray idx maxLength)
                 previous maxLength
                 (Double.newLength
                    (Double.targetLength dataArray idx maxLength)
                    previous maxLength).
Proof.
  intros Dp Dm Hp0 Hpm Hread.
  rewrite (targetLength_rounded _ _ _ _ Hread).
  assert (Hm : 0 <= maxLength) by lra.
  destruct (target_rounded_range sample maxLength Hm Dm) as (Dt & Ht0 & Htm).
  now apply rule_rounded.
Qed.

Lemma advance_bounds_rounded_witness :
  AdvanceRounded (Double.targetLength [x00] 0 378) after_26_silent_ticks 378
                 (Double.newLength (Double.targetLength [x00] 0 378)
                    after_26_silent_ticks 378).
Proof.
  apply (advance_bounds_rounded [x00] 0 x00 after_26_silent_ticks 378).
  - vm_compute. reflexivity.
  - vm_compute. reflexivity.
  - vm_compute. discriminate.
  - vm_compute. discriminate.
  - reflexivity.
Defined.

(** The length the counterexample starts from is the one 26 silent
    ticks leave of a bar at full scale when the smaller side of the
    surface is 1080, and the binary64 value 0x1.08999999999a4p+7. *)
Lemma after_26_silent_ticks_value :
  Double.maxBarLength 1920 1080 == 378
  /\ after_26_silent_ticks == 1163723106838121 # 8796093022208
  /\ Double.is_double after_26_silent_ticks = true.
Proof. vm_compute. repeat split. Qed.

(** C2, as stated, fails in the arithmetic of the engine: at maxLength
    378, from the previous length 132.3000000000003 and a sample of 0,
    the new length is more than maxLength * 0.025 below the previous
    one. *)
Lemma decay_bound_exceeded :
  ~ AdvanceOk (Double.targetLength [x00] 0 378)
              (1163723106838121 # 8796093022208) 378
              (Double.newLength (Double.targetLength [x00] 0 378)
                 (1163723106838121 # 8796093022208) 378).
Proof.
  intros (t & n & Ht & Hn & _ & _ & _ & Hdecay).
  vm_compute in Ht. injection Ht as <-.
  vm_compute in Hn. injection Hn as <-.
  destruct Hdecay as [Hd _]; [reflexivity|].
  vm_compute in Hd. apply Hd. reflexivity.
Qed.

(** The index arithmetic is exact in binary64: i / 128 and
    bufferLength * 0.5 are dyadic, and so is their product. *)
Lemma dataIndex_rounded (i : nat) (node : AnalyserNode) :
  (i < 128)%nat -> (frequencyBinCount node < 2 ^ 32)%N ->
  Double.dataIndex i node = VisualizerCanvas.dataIndex i node.
Proof.
  intros Hi Hb.
  unfold Double.dataIndex, VisualizerCanvas.dataIndex, Math_floor.
  apply Qfloor_comp.
  unfold Double.mul, Double.div.
  change (Qnat VisualizerCanvas.NUM_BARS) with 128%Q.
  assert (Hb' : (Z.of_N (frequencyBinCount node) < 2 ^ 32)%Z).
  { change (2 ^ 32)%Z with (Z.of_N (2 ^ 32)). lia. }
  change (2 ^ 32)%Z with 4294967296%Z in Hb'.
  assert (E1 : Double.fl (Qnat i / 128) == Qnat i / 128).
  { apply (fl_exact _ (Z.of_nat i) 7).
    - setoid_replace (Double.pow2 (Z.opp 7)) with (1 # 128) by reflexivity.
      unfold Qnat. field.
    - change (2 ^ 53)%Z with 9007199254740992%Z. lia.
    - discriminate. }
  assert (E2 : Double.fl (QN (frequencyBinCount node) * Double.fl 0.5)
               == QN (frequencyBinCount node) * 0.5).
  { rewrite (fl_proper _ (QN (frequencyBinCount node) * 0.5))
      by (rewrite fl_half; reflexivity).
    apply (fl_exact _ (Z.of_N (frequencyBinCount node)) 1).
    - setoid_replace (Double.pow2 (Z.opp 1)) with (1 # 2) by reflexivity.
      unfold QN. field.
    - change (2 ^ 53)%Z with 9007199254740992%Z. lia.
    - discriminate. }
  rewrite (fl_proper _ (Qnat i / 128 * (QN (frequencyBinCount node) * 0.5)))
    by (rewrite E1, E2; reflexivity).
  apply (fl_exact _ (Z.of_nat i * Z.of_N (frequencyBinCount node)) 8).
  - setoid_replace (Double.pow2 (Z.opp 8)) with (1 # 256) by reflexivity.
    unfold Qnat, QN. rewrite inject_Z_mult. field.
  - change (2 ^ 53)%Z with 9007199254740992%Z. nia.
  - discriminate.
Qed.

(* ================================================================== *)
(** ** Silence, in binary64 *)
(* ================================================================== *)

Lemma decay_nonneg (m : Q) :
  0 <= m -> 0 <= Double.mul m (Double.fl 0.025).
Proof.
  intros Hm. unfold Double.mul. apply fl_nonneg.
  apply Qmult_le_0_compat; [exact Hm|].
  apply fl_nonneg. discriminate.
Qed.

Lemma fall_nonneg (m p : Q) : 0 <= Double.fall m p.
Proof. apply Q.le_max_l. Qed.

Lemma fall_mono (m a b : Q) :
  a <= b -> Double.fall m a <= Double.fall m b.
Proof.
  intros H. unfold Double.fall, Double.sub.
  apply Q.max_le_compat_l, fl_mono. lra.
Qed.

Lemma fall_rest (m p : Q) : 0 <= m -> p <= 0 -> Double.fall m p == 0.
Proof.
  intros Hm Hp. pose proof (decay_nonneg m Hm) as Hd.
  unfold Double.fall, Double.sub. apply Q.max_l, fl_nonpos. lra.
Qed.

Section Silence.

Variables (node : AnalyserNode) (dataArray : list byte) (m : Q).
Hypothesis bins : (1 <= frequencyBinCount node < 2 ^ 32)%N.
Hypothesis sized : length dataArray = N.to_nat (frequencyBinCount node).
Hypothesis silent : Forall (fun s => s = x00) dataArray.
Hypothesis m_nonneg : 0 <= m.

(** On a silent bin a bar falls as [Double.fall] says. *)
Lemma bar_falls (lo hi : Q) (old : list num) (i : nat) :
  (i < 128)%nat ->
  lo <= or_zero (nth_error old i) -> or_zero (nth_error old i) <= hi ->
  exists q, Double.barLength node dataArray m old i = Num q
            /\ Double.fall m lo <= q /\ q <= Double.fall m hi.
Proof.
  intros Hi Hlo Hhi.
  destruct (read_u8_in_range dataArray (VisualizerCanvas.dataIndex i node))
    as [s [Hn Hs]].
  { rewrite sized, live_dataIndex_div.
    pose proof (bin_range i (frequencyBinCount node) Hi (proj1 bins)). lia. }
  assert (s = x00).
  { rewrite Forall_forall in silent. apply silent.
    eapply nth_error_In, Hn. }
  subst s.
  unfold Double.barLength.
  rewrite (dataIndex_rounded i node Hi (proj2 bins)).
  rewrite (targetLength_rounded _ _ _ _ Hs).
  assert (T : Double.mul (Double.div (QN (Byte.to_N x00)) 255) m = 0).
  { unfold Double.mul, Double.div.
    rewrite (fl_eq0 (QN (Byte.to_N x00) / 255)) by reflexivity.
    apply fl_eq0. ring. }
  rewrite T.
  unfold Double.newLength, num_ge, Math_max.
  set (v := or_zero (nth_error old i)) in *.
  destruct (Qle_bool v 0) eqn:E.
  - apply Qle_bool_iff in E. exists 0. split; [reflexivity|]. split.
    + rewrite (fall_rest m lo m_nonneg); lra.
    + apply fall_nonneg.
  - exists (Double.fall m v). split; [reflexivity|].
    split; now apply fall_mono.
Qed.

Lemma tick_within (hi : Q) (old : list num) :
  0 <= hi -> lengths_within hi old ->
  lengths_within (Double.fall m hi) (Double.tick node dataArray m old).
Proof.
  intros Hhi Hold. unfold lengths_within, Double.tick.
  apply Forall_map, Forall_forall. intros i Hi. apply in_seq in Hi.
  destruct (or_zero_within hi old i Hhi Hold) as [H0 H1].
  destruct (bar_falls 0 hi old i) as (q & Eq & Q0 & Q1);
    [unfold VisualizerCanvas.NUM_BARS in Hi; lia|exact H0|exact H1|].
  exists q. split; [exact Eq|]. split; [|exact Q1].
  apply Qle_trans with (Double.fall m 0); [apply fall_nonneg|exact Q0].
Qed.

Lemma ticks_within (old : list num) (k : nat) :
  lengths_within m old ->
  lengths_within (Nat.iter k (Double.fall m) m)
    (Nat.iter k (Double.tick node dataArray m) old).
Proof.
  intros Hold. induction k as [|k IH].
  - exact Hold.
  - rewrite !Nat.iter_succ. apply tick_within; [|exact IH].
    destruct k; [exact m_nonneg|rewrite Nat.iter_succ; apply fall_nonneg].
Qed.

Lemma or_zero_above (lo : Q) (old : list num) (i : nat) :
  (i < 128)%nat -> lengths_above lo old ->
  lo <= or_zero (nth_error old i).
Proof.
  intros Hi [Hlen H].
  destruct (nth_error old i) as [x|] eqn:E.
  - apply nth_error_In in E. rewrite Forall_forall in H.
    destruct (H x E) as (q & -> & Hq).
    pose proof (or_zero_num q). lra.
  - apply nth_error_None in E. lia.
Qed.

Lemma tick_above (lo : Q) (old : list num) :
  lengths_above lo old ->
  lengths_above (Double.fall m lo) (Double.tick node dataArray m old).
Proof.
  intros Hold. unfold lengths_above, Double.tick. split.
  - now rewrite length_map, length_seq.
  - apply Forall_map, Forall_forall. intros i Hi. apply in_seq in Hi.
    assert (Hi' : (i < 128)%nat)
      by (unfold VisualizerCanvas.NUM_BARS in Hi; lia).
    pose proof (or_zero_above lo old i Hi' Hold) as H0.
    destruct (bar_falls lo (or_zero (nth_error old i)) old i)
      as (q & Eq & Q0 & _); [exact Hi'|exact H0|apply Qle_refl|].
    exists q. split; [exact Eq|exact Q0].
Qed.

Lemma ticks_above (k : nat) :
  lengths_above (Nat.iter k (Double.fall m) m)
    (Nat.iter k (Double.tick node dataArray m) (repeat (Num m) 128)).
Proof.
  induction k as [|k IH].
  - split; [apply repeat_length|].
    apply Forall_forall. intros x Hx. apply repeat_spec in Hx. subst x.
    exists m. split; [reflexivity|apply Qle_refl].
  - rewrite !Nat.iter_succ. now apply tick_above.
Qed.

End Silence.

(** X8: on a capture surface (smaller side 1080, maxBarLength 378) a
    silent spectrum brings the bars to rest in 41 frames, in the
    arithmetic of the engine: from lengths in [0, maxBarLength], after
    k frames no bar is longer than a bar that started at full scale,
    after 41 frames all 128 bars are 0, and 40 frames are not enough
    for bars that started at full scale. *)
Theorem silence_brings_bars_to_rest (ratio : App.AspectRatio)
  (node : AnalyserNode) (dataArray : list byte) (old : list num) :
  (1 <= frequencyBinCount node < 2 ^ 32)%N ->
  length dataArray = N.to_nat (frequencyBinCount node) ->
  Forall (fun s => s = x00) dataArray ->
  let m := Double.maxBarLength (QN (fst (App.RESOLUTIONS ratio)))
             (QN (snd (App.RESOLUTIONS ratio))) in
  let tick := Double.tick node dataArray m in
  lengths_within m old ->
  (forall k, lengths_within (Nat.iter k (Double.fall m) m)
               (Nat.iter k tick old))
  /\ length (Nat.iter 41 tick old) = 128%nat
  /\ Forall (fun x => num_eq x (Num 0)) (Nat.iter 41 tick old)
  /\ Forall (fun x => exists q, x = Num q /\ 0 < q)
       (Nat.iter 40 tick (repeat (Num m) 128)).
Proof.
  intros Hb Hlen Hsil m tick Hold.
  assert (Hm : 0 <= m) by (destruct ratio; vm_compute; discriminate).
  assert (H41 : Nat.iter 41 (Double.fall m) m == 0)
    by (destruct ratio; vm_compute; reflexivity).
  assert (H40 : 0 < Nat.iter 40 (Double.fall m) m)
    by (destruct ratio; vm_compute; reflexivity).
  pose proof (fun k => ticks_within node dataArray m Hb Hlen Hsil Hm old k Hold)
    as Hall.
  split; [exact Hall|]. split; [|split].
  - change (Nat.iter 41 tick old) with (tick (Nat.iter 40 tick old)).
    unfold tick at 1, Double.tick. now rewrite length_map, length_seq.
  - eapply Forall_impl; [|exact (Hall 41%nat)].
    intros x (q & -> & H0 & H1). simpl. lra.
  - destruct (ticks_above node dataArray m Hb Hlen Hsil Hm 40) as [_ H].
    eapply Forall_impl; [|exact H].
    intros x (q & -> & Hq). exists q. split; [reflexivity|lra].
Qed.

Lemma silence_brings_bars_to_rest_witness :
  let m := Double.maxBarLength 1920 1080 in
  let tick := Double.tick Examples.node Examples.silent m in
  let old := repeat (Num 200) 128 in
  (forall k, lengths_within (Nat.iter k (Double.fall m) m)
               (Nat.iter k tick old))
  /\ length (Nat.iter 41 tick old) = 128%nat
  /\ Forall (fun x => num_eq x (Num 0)) (Nat.iter 41 tick old)
  /\ Forall (fun x => exists q, x = Num q /\ 0 < q)
       (Nat.iter 40 tick (repeat (Num m) 128)).
Proof.
  apply (silence_brings_bars_to_rest App.R16_9 Examples.node Examples.silent
           (repeat (Num 200) 128)).
  - split; [discriminate|reflexivity].
  - reflexivity.
  - apply Forall_forall. intros s Hs. now apply repeat_spec in Hs.
  - apply Forall_forall. intros x Hx. apply repeat_spec in Hx. subst x.
    exists 200. split; [reflexivity|]. split; [discriminate|].
    vm_compute. discriminate.
Defined.

(* ================================================================== *)
(** ** The palette of a capture *)
(* ================================================================== *)





























(* ================================================================== *)
(** ** The first load *)
(* ================================================================== *)

(** C6: before the first play the component has no analysis node and
    the effect returns at its guard, before [draw] is defined: the
    canvas of a freshly loaded component receives no drawing operation,
    not even the background.  The effect's own comment announces one
    static frame when initially loaded; with the node attached the same
    paused component does receive it: the background, 128 bars and the
    title. *)
Theorem first_load_draws_no_frame :
  let loaded :=
    VisualizerCanvas.useEffect Examples.props_no_node Examples.silent
      Examples.component in
  let with_node :=
    VisualizerCanvas.useEffect Examples.props Examples.silent
      Examples.component in
  loaded = Examples.component
  /\ option_map (fun cv => ops (context cv))
       (VisualizerCanvas.canvasRef loaded) = Some []
  /\ ~ draws_background loaded
  /\ draws_background with_node
  /\ option_map (fun cv => length (ops (context cv)))
       (VisualizerCanvas.canvasRef with_node) = Some 130%nat.
Proof.
  cbv zeta.
  split; [reflexivity|]. split; [reflexivity|]. split; [|split].
  - intros (cv & st & x & y & w & h & Hcv & Hin).
    simpl in Hcv. injection Hcv as <-. simpl in Hin. exact Hin.
  - remember (VisualizerCanvas.useEffect Examples.props Examples.silent
                Examples.component) as s eqn:Es.
    vm_compute in Es. subst s.
    do 6 eexists. split; [reflexivity|]. left. reflexivity.
  - vm_compute. reflexivity.
Qed.

(* ================================================================== *)
(** ** The rounding against the machine *)
(* ================================================================== *)

Lemma factors_are_literals :
  option_map Qred (Hardware.of_float Hardware.step_factor)
  = Some (Qred (Double.fl 0.025))
  /\ option_map Qred (Hardware.of_float Hardware.length_factor)
     = Some (Qred (Double.fl 0.35)).
Proof. vm_compute. split; reflexivity. Qed.

Lemma maxBarLength_on_machine :
  option_map Qred
    (Hardware.of_float (PrimFloat.mul 1080%float Hardware.length_factor))
  = Some (Qred (Double.maxBarLength 1920 1080)).
Proof. vm_compute. reflexivity. Qed.

(** The lengths of a bar that falls from 378 under silence, frame by
    frame until it rests, are the same with [Double.fl] and on the
    machine's binary64 values. *)
Lemma fall_agrees_with_machine :
  map (fun k => option_map Qred
                  (Hardware.of_float
                     (Nat.iter k (Hardware.fall 378%float) 378%float)))
      (seq 0 42)
  = map (fun k => Some (Qred (Nat.iter k (Double.fall 378) 378)))
        (seq 0 42).
Proof. vm_compute. reflexivity. Qed.

